(** * ipfs-lab: topology constructor / verifier and workload generator

    A shallow embedding of [scripts/topology.py] (class [IPFSTopologyManager])
    and [scripts/simulator.py] (class [IPFSSimulator]).

    The programs talk to a cluster of IPFS nodes over HTTP and DNS.  Every
    answer of the outside world (DNS lookups, HTTP replies, random draws,
    the order in which the event loop resumes tasks) is an explicit input of
    the model, so each Python method becomes a function that can be run on a
    concrete world, and each theorem quantifies over all worlds. *)

From Stdlib Require Import ZArith QArith Qround List String Lia Bool Arith.
From stdpp Require Import base list strings.
Import ListNotations.

#[local] Set Warnings "-clear-no-such-hyp".

Local Open Scope string_scope.
Local Open Scope list_scope.
Local Open Scope nat_scope.

(** ** Python exceptions and results *)

Inductive exn : Type :=
| IndexError
| ZeroDivisionError
| Gaierror                       (* socket.gaierror *)
| ValueError (msg : string)
| TimeoutError
| OtherException (name : string). (* any other subclass of Exception *)

Inductive result (A : Type) : Type :=
| Return (a : A)
| Raise (e : exn).
Arguments Return {A} a.
Arguments Raise {A} e.

(** A computation over a state [S] that may raise: the state reached when
    the exception is raised is kept, as in Python. *)
Definition M (S A : Type) : Type := S -> result A * S.

Definition ret {S A} (a : A) : M S A := fun s => (Return a, s).

Definition raise {S A} (e : exn) : M S A := fun s => (Raise e, s).

Definition bind {S A B} (m : M S A) (f : A -> M S B) : M S B :=
  fun s => match m s with
           | (Return a, s') => f a s'
           | (Raise e, s') => (Raise e, s')
           end.

(** [try: m  except Exception as e: h e] *)
Definition try_except {S A} (m : M S A) (h : exn -> M S A) : M S A :=
  fun s => match m s with
           | (Return a, s') => (Return a, s')
           | (Raise e, s') => h e s'
           end.

Notation "x <- m ;; k" := (bind m (fun x => k))
  (at level 100, m at next level, right associativity).
Notation "m ;;; k" := (bind m (fun _ => k))
  (at level 100, right associativity).

(** [for x in xs: body x] *)
Fixpoint for_each {S A} (xs : list A) (body : A -> M S unit) : M S unit :=
  match xs with
  | [] => ret tt
  | x :: xs' => body x ;;; for_each xs' body
  end.

(** [range(n)] and [range(a, b)] *)
Definition range (n : nat) : list nat := seq 0 n.
Definition range2 (a b : nat) : list nat := seq a (b - a).

Module Topology.

(** *** The outside world seen by [IPFSTopologyManager] *)

(** One entry of the ["Peers"] array of [/swarm/peers?verbose=true]:
    [peer.get("Peer")] and the ["Protocol"] of each of its ["Streams"]. *)
Record PeerSession := mkPeer {
  Peer : option string;
  Streams : list (option string)
}.

(** Every call to the outside is answered by the network as a function of
    the number of calls answered before ([tick]), so the same request may
    be answered differently at different times.
    - [gethostbyname t i]: [socket.gethostbyname(names[i])];
    - [post_id t i]: [requests.post(urls[i]/id).json()['ID']];
    - [post_swarm_connect t i arg]: status code and text of
      [requests.post(urls[i]/swarm/connect, params=arg)];
    - [post_swarm_peers t i]: status code, text and
      [response.json().get("Peers", [])] of [urls[i]/swarm/peers]; the inner
      [Raise] stands for a body from which [kad_peers] cannot be built;
    - [random t]: the t-th draw of the [random] module. *)
Record Network := mkNetwork {
  gethostbyname : nat -> nat -> result string;
  post_id : nat -> nat -> result string;
  post_swarm_connect : nat -> nat -> string -> result (Z * string);
  post_swarm_peers : nat -> nat -> result (Z * string * result (list PeerSession));
  random : nat -> nat
}.

Inductive ConsoleLine : Type :=
| FailedToResolve (index : nat) (e : exn)
| FailedToGetNodeId (index : nat) (e : exn)
| Connected (source target : nat)
| ConnectionFailed (status : Z) (text : string)
| FailedToConnect (source target : nat) (e : exn)
| FailedToGetPeers (index : nat) (text : string)
| ErrorReadingPeers (index : nat) (e : exn)
| Banner (msg : string).

(** A row of the topology CSV: [timestamp, action, num_nodes, status, details]
    (the timestamp is the logical time [tick]). *)
Record LogRow := mkRow {
  row_timestamp : nat;
  row_action : string;
  row_num_nodes : nat;
  row_status : string;
  row_details : string
}.

(** The state threaded through the manager's methods.  [attempts] records
    the arguments of every call of [connect_nodes], in order. *)
Record World := mkWorld {
  tick : nat;
  rng_pos : nat;
  stdout : list ConsoleLine;
  log_file : list LogRow;
  attempts : list (nat * nat)
}.

Definition initial_world : World := mkWorld 0 0 [] [] [].

Definition advance (w : World) : World :=
  mkWorld (S (tick w)) (rng_pos w) (stdout w) (log_file w) (attempts w).

Definition print (l : ConsoleLine) : M World unit := fun w =>
  (Return tt, mkWorld (tick w) (rng_pos w) (stdout w ++ [l]) (log_file w) (attempts w)).

Definition note_attempt (s t : nat) : M World unit := fun w =>
  (Return tt, mkWorld (tick w) (rng_pos w) (stdout w) (log_file w) (attempts w ++ [(s, t)])).

Definition next_random : M World nat := fun w =>
  (Return (rng_pos w),
   mkWorld (tick w) (S (rng_pos w)) (stdout w) (log_file w) (attempts w)).

(** [--topology] *)
Inductive TopologyKind : Type := ring | grid | full | barabasi.

Definition topology_name (kind : TopologyKind) : string :=
  match kind with
  | ring => "ring" | grid => "grid" | full => "full" | barabasi => "barabasi"
  end.

(** [f'{type(e).__name__}: {str(e)}'] *)
Definition exn_details (e : exn) : string :=
  match e with
  | IndexError => "IndexError: list index out of range"
  | ZeroDivisionError => "ZeroDivisionError: division by zero"
  | Gaierror => "gaierror: name resolution failed"
  | ValueError msg => "ValueError: " +:+ msg
  | TimeoutError => "TimeoutError: "
  | OtherException name => name +:+ ": "
  end.

(** The adjacency matrix: a list of rows. *)
Abbreviation Matrix := (list (list Z)).

Section Manager.

Variable net : Network.
(** [self.num_nodes = len(container_names) = len(self.urls) = len(self.names)] *)
Variable num_nodes : nat.

(** An external call: answered at the current [tick], which then advances. *)
Definition call {A} (f : nat -> result A) : M World A := fun w =>
  (f (tick w), advance w).

(** [self.names[index]] / [self.urls[index]] for a non-negative index. *)
Definition subscript (index : nat) : M World unit :=
  if index <? num_nodes then ret tt else raise IndexError.

Definition log_execution (action status details : string) : M World unit := fun w =>
  (Return tt,
   mkWorld (tick w) (rng_pos w) (stdout w)
           (log_file w ++ [mkRow (tick w) action num_nodes status details])
           (attempts w)).

Definition resolve_container_ip (index : nat) : M World (option string) :=
  try_except
    (subscript index ;;;
     ip <- call (fun t => gethostbyname net t index) ;;
     ret (Some ip))
    (fun e => match e with
              | Gaierror =>
                  subscript index ;;; print (FailedToResolve index e) ;;; ret None
              | _ => raise e
              end).

Definition get_node_id (index : nat) : M World (option string) :=
  try_except
    (subscript index ;;;
     id <- call (fun t => post_id net t index) ;;
     ret (Some id))
    (fun e => subscript index ;;; print (FailedToGetNodeId index e) ;;; ret None).

(** Python's [not x] for [x : str | None]. *)
Definition falsy (x : option string) : bool :=
  match x with
  | None => true
  | Some s => bool_decide (s = "")
  end.

Definition multiaddr (target_ip target_id : option string) : string :=
  "/ip4/" +:+ default "" target_ip +:+ "/tcp/4001/p2p/" +:+ default "" target_id.

Definition connect_nodes (source_index target_index : nat) : M World bool :=
  note_attempt source_index target_index ;;;
  try_except
    (target_ip <- resolve_container_ip target_index ;;
     if falsy target_ip then ret false else
     target_id <- get_node_id target_index ;;
     if falsy target_id then ret false else
     subscript source_index ;;;
     response <- call (fun t => post_swarm_connect net t source_index
                                  (multiaddr target_ip target_id)) ;;
     if (fst response =? 200)%Z then
       subscript source_index ;;; subscript target_index ;;;
       print (Connected source_index target_index) ;;; ret true
     else
       print (ConnectionFailed (fst response) (snd response)) ;;; ret false)
    (fun e =>
       subscript source_index ;;; subscript target_index ;;;
       print (FailedToConnect source_index target_index e) ;;; ret false).

Definition create_ring_topology : M World unit :=
  print (Banner "Creating ring topology...") ;;;
  for_each (range num_nodes) (fun i =>
    let next_node := (i + 1) mod num_nodes in
    connect_nodes i next_node ;;; ret tt).

(** [int(len(self.urls) ** 0.5)]: the integer square root (the float power
    is exact on the node counts a lab can hold). *)
Definition isqrt (n : nat) : nat := Nat.sqrt n.

Definition create_grid_topology : M World unit :=
  print (Banner "Creating grid topology...") ;;;
  let size := isqrt num_nodes in
  if negb (size * size =? num_nodes) then
    raise (ValueError "Number of nodes must be a perfect square for grid topology")
  else
    for_each (range size) (fun i =>
      for_each (range size) (fun j =>
        let current := i * size + j in
        (if j <? size - 1 then connect_nodes current (current + 1) ;;; ret tt
         else ret tt) ;;;
        (if i <? size - 1 then connect_nodes current (current + size) ;;; ret tt
         else ret tt))).

Definition create_fully_connected_topology : M World unit :=
  print (Banner "Creating fully connected topology...") ;;;
  for_each (range num_nodes) (fun i =>
    for_each (range2 (i + 1) num_nodes) (fun j =>
      connect_nodes i j ;;; ret tt)).

(** [connected.add(k)] on a set kept as a duplicate-free list. *)
Definition set_add (k : nat) (connected : list nat) : list nat :=
  if bool_decide (k ∈ connected) then connected else connected ++ [k].

(** [random.choices(targets, probabilities, k=k)]: [k] independent draws,
    each of which picks one position of [targets] (all weights are equal). *)
Fixpoint choices (targets : list nat) (k : nat) : M World (list nat) :=
  match k with
  | 0 => ret []
  | S k' =>
      r <- next_random ;;
      rest <- choices targets k' ;;
      ret (nth (random net r mod length targets) targets 0 :: rest)
  end.

Definition barabasi_connect (new_node_index : nat)
  : list nat -> list nat -> M World (list nat) :=
  fix go (selected connected : list nat) : M World (list nat) :=
    match selected with
    | [] => ret connected
    | target_index :: selected' =>
        ok <- connect_nodes new_node_index target_index ;;
        go selected' (if ok then set_add new_node_index connected else connected)
    end.

(** The body of [for new_node_index in range(1, len(self.urls))]. *)
Definition barabasi_step (m : Z) (new_node_index : nat) (connected : list nat)
  : M World (list nat) :=
  let targets := connected in
  (if length targets =? 0 then raise ZeroDivisionError else ret tt) ;;;
  selected <- choices targets (Z.to_nat (Z.min m (Z.of_nat (length targets)))) ;;
  barabasi_connect new_node_index selected connected.

Fixpoint barabasi_loop (m : Z) (new_nodes : list nat) (connected : list nat)
  : M World (list nat) :=
  match new_nodes with
  | [] => ret connected
  | k :: rest =>
      connected' <- barabasi_step m k connected ;;
      barabasi_loop m rest connected'
  end.

Definition create_barabasi_albert_topology (m : Z) : M World unit :=
  print (Banner "Creating Barabasi-Albert topology...") ;;;
  if (m <? 1)%Z || (Z.of_nat num_nodes <=? m)%Z then
    raise (ValueError "Parameter 'm' must be >= 1 and less than the number of nodes")
  else
    barabasi_loop m (range2 1 num_nodes) [0] ;;; ret tt.

(** *** read_connection_matrix *)

(** [[[0] * n for _ in range(n)]]: the rows are distinct objects. *)
Definition zero_matrix (n : nat) : Matrix := replicate n (replicate n 0%Z).

(** [matrix[i][j] = v] *)
Definition set_entry (i j : nat) (v : Z) (matrix : Matrix) : result Matrix :=
  match matrix !! i with
  | Some row =>
      if j <? length row then Return (<[i := <[j := v]> row]> matrix)
      else Raise IndexError
  | None => Raise IndexError
  end.

Definition kad_protocol : string := "/ipfs/lan/kad/1.0.0".

Definition is_kad (peer : PeerSession) : bool :=
  existsb (fun stream => bool_decide (stream = Some kad_protocol)) (Streams peer).

(** [for j in range(num_nodes): if get_node_id(j) == peer_id: matrix[i][j] = 1].
    The matrix is mutated in place, so the entries written before an
    exception stay written: the matrix is part of the state. *)
Fixpoint mark_peer (i : nat) (peer_id : option string) (js : list nat)
  : M (World * Matrix) unit :=
  match js with
  | [] => ret tt
  | j :: js' =>
      fun '(w, matrix) =>
        match get_node_id j w with
        | (Return id, w') =>
            if bool_decide (id = peer_id) then
              match set_entry i j 1 matrix with
              | Return matrix' => mark_peer i peer_id js' (w', matrix')
              | Raise e => (Raise e, (w', matrix))
              end
            else mark_peer i peer_id js' (w', matrix)
        | (Raise e, w') => (Raise e, (w', matrix))
        end
  end.

Definition lift_world {A} (m : M World A) : M (World * Matrix) A :=
  fun '(w, matrix) => let '(r, w') := m w in (r, (w', matrix)).

(** The body of [for i in range(self.num_nodes)]. *)
Definition read_row (i : nat) : M (World * Matrix) unit :=
  try_except
    (lift_world (subscript i) ;;;
     response <- lift_world (call (fun t => post_swarm_peers net t i)) ;;
     let '(status_code, text, json) := response in
     if (status_code =? 200)%Z then
       peers <- (match json with Return ps => ret ps | Raise e => raise e end) ;;
       match peers with
       | [] => ret tt
       | _ =>
           let kad_peers := filter (fun p => is_kad p = true) peers in
           for_each kad_peers (fun peer =>
             mark_peer i (Peer peer) (range num_nodes))
       end
     else
       lift_world (subscript i ;;; print (FailedToGetPeers i text)))
    (fun e => lift_world (subscript i ;;; print (ErrorReadingPeers i e))).

(** Returns the matrix that the method prints. *)
Definition read_connection_matrix : M World Matrix := fun w =>
  let '(r, (w', matrix)) :=
    (lift_world (print (Banner "Reading connection matrix...")) ;;;
     for_each (range num_nodes) read_row) (w, zero_matrix num_nodes) in
  match r with
  | Return _ => (Return matrix, w')
  | Raise e => (Raise e, w')
  end.

(** [" ".join("x" if i == j and val == 0 else str(val) ...)]: one printed
    cell; [None] stands for the marker ["x"]. *)
Definition render_cell (i j : nat) (val : Z) : option Z :=
  if (i =? j) && (val =? 0)%Z then None else Some val.

(** [IPFSTopologyManager.__init__]: the log is emptied (down to its header)
    when [reset_file] is set. *)
Definition init_manager (reset_file : bool) : M World unit := fun w =>
  (Return tt,
   mkWorld (tick w) (rng_pos w) (stdout w)
           (if reset_file then [] else log_file w) (attempts w)).

Definition create_topology (kind : TopologyKind) : M World unit :=
  match kind with
  | ring => create_ring_topology
  | grid => create_grid_topology
  | full => create_fully_connected_topology
  | barabasi => create_barabasi_albert_topology 2
  end.

(** [main] with [--topology topology] and [--matrix]; [num_nodes] is
    [--nodes]. *)
Definition main (topology : option TopologyKind) (matrix : bool) : M World unit :=
  init_manager (match topology with Some _ => true | None => false end) ;;;
  try_except
    (if matrix then
       read_connection_matrix ;;; log_execution "matrix_read" "completed" ""
     else
       match topology with
       | Some kind =>
           create_topology kind ;;;
           read_connection_matrix ;;;
           log_execution ("topology_" +:+ topology_name kind) "completed" ""
       | None =>
           print (Banner "Error: You must specify --topology, --matrix or --disconnect-all") ;;;
           log_execution "invalid_args" "error" "No action specified"
       end)
    (fun e => log_execution "error" "failed" (exn_details e) ;;; raise e).

End Manager.

End Topology.

Module Simulator.

(** *** The workload generator, [IPFSSimulator]

    The generator is a set of cooperative [asyncio] tasks on one thread.
    A task runs without interruption between two [await]s, so a run is a
    sequence of atomic steps; which task is resumed next, at what time and
    with which HTTP reply is decided by the event loop and the cluster and is
    given to the model as a list of events. *)

Inductive Action : Type := upload | download.

(** A row of the workload CSV:
    [timestamp, node, action, file_size, cid, duration, success]. *)
Record OperationRecord := mkRecord {
  timestamp : Q;
  node : nat;                 (* f"ipfs{node_idx}" *)
  action : Action;
  file_size : Z;
  cid : string;
  duration : Q;
  success : bool
}.

(** What [async with session.post(...)] and the reads of the response give:
    the value read from the body (the ["Hash"] of [/api/v0/add], the
    content of [/api/v0/cat]) or the exception raised in the block.
    [AnsweredNull] is a body of [/api/v0/add] whose ["Hash"] is the JSON
    [null], which [result['Hash']] reads as [None]; [response.read()] gives
    bytes and never [None].
    A request that exceeds [self.timeout] fails with [TimeoutError] (the
    exception that [except TimeoutError] names and, from Python 3.11 on, the
    one [asyncio] raises); [raise_for_status], a refused connection or a body
    without ["Hash"] fail with another exception. *)
Inductive Reply : Type :=
| Answered (body : string)
| AnsweredNull
| Failed (e : exn).

(** A task created by [asyncio.create_task(self._delayed_operation(...))]:
    where it is suspended, and the local variables it resumes with. *)
Inductive Task : Type :=
| Sleeping (delay : Q)                                    (* in asyncio.sleep *)
| Uploading (node_idx : nat) (size : Z) (start_time : Q)  (* in upload_file's post *)
| Downloading (node_idx : nat) (target : string) (start_time : Q)
| Done
| Crashed (e : exn).

(** The two random generators, as streams fixed by the seed. A draw of the
    standard exponential distribution is a non-negative rational. *)
Record Randomness := mkRandomness {
  py_random : nat -> nat;
  np_standard_exponential : nat -> N * positive
}.

(** [uploaded_files] is the one list object shared by all tasks;
    [requests] counts the HTTP requests sent so far. *)
Record Sim := mkSim {
  uploaded_files : list string;
  log_file : list OperationRecord;
  py_pos : nat;
  np_pos : nat;
  requests : nat;
  tasks : list Task
}.

(** [IPFSSimulator(...)]: [_init_log_file] leaves only the header row. *)
Definition new_simulator : Sim := mkSim [] [] 0 0 0 [].

Definition _log_action (node : nat) (action : Action) (file_size : Z)
    (cid : string) (duration : Q) (success : bool) (start_time : Q) : M Sim unit :=
  fun s =>
    (Return tt,
     mkSim (uploaded_files s)
           (log_file s ++ [mkRecord start_time node action file_size cid duration success])
           (py_pos s) (np_pos s) (requests s) (tasks s)).

(** [uploaded_files.append(cid)] *)
Definition append_uploaded (cid : string) : M Sim unit := fun s =>
  (Return tt,
   mkSim (uploaded_files s ++ [cid]) (log_file s) (py_pos s) (np_pos s)
         (requests s) (tasks s)).

Definition send_request : M Sim unit := fun s =>
  (Return tt,
   mkSim (uploaded_files s) (log_file s) (py_pos s) (np_pos s)
         (S (requests s)) (tasks s)).

Definition set_tasks (ts : list Task) (s : Sim) : Sim :=
  mkSim (uploaded_files s) (log_file s) (py_pos s) (np_pos s) (requests s) ts.

Definition get_uploaded : M Sim (list string) := fun s => (Return (uploaded_files s), s).

(** [if op >= len(uploaded_files)]: the slot [op] selects an upload. *)
Definition is_upload_slot (uploaded : list string) (op : Z) : bool :=
  (Z.of_nat (length uploaded) <=? op)%Z.

(** [10 MiB] *)
Definition chunk_size : Z := (1024 * 1024 * 10)%Z.

Section Simulator.

Variable rng : Randomness.
(** [len(self.nodes)] *)
Variable num_nodes : nat.

(** [random.randint(a, b)] *)
Definition randint (a b : Z) : M Sim Z := fun s =>
  if (b <? a)%Z then (Raise (ValueError "empty range in randrange"), s)
  else
    (Return (a + Z.of_nat (py_random rng (py_pos s)) mod (b - a + 1))%Z,
     mkSim (uploaded_files s) (log_file s) (S (py_pos s)) (np_pos s)
           (requests s) (tasks s)).

(** [random.randbytes(n)]: only the length of the result is kept. *)
Definition randbytes (n : Z) : M Sim Z := fun s =>
  (Return n,
   mkSim (uploaded_files s) (log_file s) (S (py_pos s)) (np_pos s)
         (requests s) (tasks s)).

(** [np.random.exponential(scale)] *)
Definition np_random_exponential (scale : Q) : M Sim Q := fun s =>
  if Qle_bool 0 scale then
    let '(n, d) := np_standard_exponential rng (np_pos s) in
    (Return (scale * (Z.of_N n # d))%Q,
     mkSim (uploaded_files s) (log_file s) (py_pos s) (S (np_pos s))
           (requests s) (tasks s))
  else (Raise (ValueError "scale < 0"), s).

(** The loop of [generate_random_file]; [fuel] bounds its iterations. The
    result is the length of the payload. *)
Fixpoint generate_chunks (fuel : nat) (remaining_bytes : Z) : M Sim Z :=
  match fuel with
  | 0 => ret 0%Z
  | S fuel' =>
      if (0 <? remaining_bytes)%Z then
        let current_chunk_size := Z.min chunk_size remaining_bytes in
        n <- randbytes current_chunk_size ;;
        rest <- generate_chunks fuel' (remaining_bytes - current_chunk_size) ;;
        ret (n + rest)%Z
      else ret 0%Z
  end.

Definition generate_random_file (size_bytes : Z) : M Sim Z :=
  generate_chunks (Z.to_nat ((size_bytes + chunk_size - 1) / chunk_size)) size_bytes.

(** [self.nodes[node_idx]] *)
Definition subscript_node (node_idx : Z) : M Sim nat :=
  if ((0 <=? node_idx) && (node_idx <? Z.of_nat num_nodes))%Z
  then ret (Z.to_nat node_idx) else raise IndexError.

(** [upload_file] up to its [await]: the task is left in the post. *)
Definition upload_file_begin (now : Q) (node_idx : Z) (file_size : Z) : M Sim Task :=
  node <- subscript_node node_idx ;;
  generate_random_file file_size ;;;
  send_request ;;;
  ret (Uploading node file_size now).

(** [upload_file] from the reply on; the result is the returned [cid]. *)
Definition upload_file_end (now : Q) (node_idx : nat) (file_size : Z)
    (start_time : Q) (reply : Reply) : M Sim (option string) :=
  match reply with
  | Answered cid =>
      _log_action node_idx upload file_size cid (now - start_time) true start_time ;;;
      ret (Some cid)
  | AnsweredNull =>
      (* [cid] is [None]: [csv] writes it as the empty string, and the method
         returns it *)
      _log_action node_idx upload file_size "" (now - start_time) true start_time ;;;
      ret None
  | Failed TimeoutError =>
      _log_action node_idx upload file_size "error" (now - start_time) false start_time ;;;
      ret None
  | Failed e => raise e
  end.

Definition download_file_begin (now : Q) (node_idx : Z) (cid : string) : M Sim Task :=
  node <- subscript_node node_idx ;;
  send_request ;;;
  ret (Downloading node cid now).

Definition download_file_end (now : Q) (node_idx : nat) (cid : string)
    (start_time : Q) (reply : Reply) : M Sim (option string) :=
  match reply with
  | Answered content =>
      _log_action node_idx download (Z.of_nat (String.length content)) cid
                  (now - start_time) true start_time ;;;
      ret (Some content)
  | AnsweredNull =>
      (* [len(content)] of [None]; [step] never passes this reply to a download *)
      raise (OtherException "TypeError")
  | Failed TimeoutError =>
      _log_action node_idx download 0 cid (now - start_time) false start_time ;;;
      ret None
  | Failed e => raise e
  end.

(** [run_operation] up to the [await] inside [upload_file] or
    [download_file]. *)
Definition run_operation_begin (mean_size max_size : Z) (now : Q) : M Sim Task :=
  uploaded <- get_uploaded ;;
  op <- randint 0 (Z.of_nat (length uploaded) + 1) ;;
  node <- randint 0 (Z.of_nat num_nodes - 1) ;;
  if is_upload_slot uploaded op then
    x <- np_random_exponential (inject_Z mean_size) ;;
    let size := Qfloor x in
    upload_file_begin now node (Z.min size max_size)
  else
    match uploaded !! Z.to_nat op with
    | Some cid => download_file_begin now node cid
    | None => raise IndexError
    end.

(** [run_operation] from the reply on. *)
Definition run_operation_end (now : Q) (task : Task) (reply : Reply) : M Sim unit :=
  match task with
  | Uploading node_idx size start_time =>
      cid <- upload_file_end now node_idx size start_time reply ;;
      match cid with
      | Some cid => append_uploaded cid
      | None => ret tt
      end
  | Downloading node_idx cid start_time =>
      download_file_end now node_idx cid start_time reply ;;; ret tt
  | _ => ret tt
  end.

(** What the event loop does next. [now] is the reading of the clock at
    that step, counted from the moment the tasks were created. *)
Inductive Event : Type :=
| Wake (i : nat) (now : Q)                    (* the timer of task i fires *)
| Respond (i : nat) (now : Q) (reply : Reply). (* the request of task i ends *)

Definition finish {A} (i : nat) (done : A -> Task) (r : result A * Sim) : Sim :=
  let '(r, s) := r in
  set_tasks (<[i := match r with Return a => done a | Raise e => Crashed e end]> (tasks s)) s.

(** One atomic step of the run. An event that does not fit the state of
    its task (a timer that fires before its delay has elapsed, a reply for a
    task that waits for none, a null ["Hash"] for a task that reads the
    content of [/api/v0/cat]) does nothing. *)
Definition step (mean_size max_size : Z) (ev : Event) (s : Sim) : Sim :=
  match ev with
  | Wake i now =>
      match tasks s !! i with
      | Some (Sleeping delay) =>
          if Qle_bool delay now
          then finish i (fun t => t) (run_operation_begin mean_size max_size now s)
          else s
      | _ => s
      end
  | Respond i now reply =>
      match tasks s !! i with
      | Some (Uploading _ _ _ as t) =>
          finish i (fun _ => Done) (run_operation_end now t reply s)
      | Some (Downloading _ _ _ as t) =>
          match reply with
          | AnsweredNull => s
          | _ => finish i (fun _ => Done) (run_operation_end now t reply s)
          end
      | _ => s
      end
  end.

(** The loop of [run_simulation]: [delay] accumulates the inter-arrival
    samples, one task is created per iteration. *)
Fixpoint create_tasks (mean_delay : Q) (n : nat) (delay : Q) : M Sim (list Task) :=
  match n with
  | 0 => ret []
  | S n' =>
      x <- np_random_exponential mean_delay ;;
      let delay := (delay + x)%Q in
      rest <- create_tasks mean_delay n' delay ;;
      ret (Sleeping delay :: rest)
  end.

Definition first_crash (ts : list Task) : option exn :=
  head (omap (fun t => match t with Crashed e => Some e | _ => None end) ts).

Definition all_done (ts : list Task) : bool :=
  forallb (fun t => match t with Done => true | _ => false end) ts.

(** How the [await asyncio.gather(...)] of [run_simulation] stands. *)
Inductive Outcome : Type :=
| Returned (s : Sim)               (* every task is done: control returns *)
| Propagated (e : exn) (s : Sim)   (* an exception leaves run_simulation *)
| Waiting (s : Sim).               (* still suspended in gather *)

(** [await asyncio.gather] over all operations: the first exception of a task is
    raised at once; otherwise gather returns when every task is done. *)
Fixpoint gather (mean_size max_size : Z) (schedule : list Event) (s : Sim) : Outcome :=
  match first_crash (tasks s) with
  | Some e => Propagated e s
  | None =>
      if all_done (tasks s) then Returned s
      else match schedule with
           | [] => Waiting s
           | ev :: schedule' => gather mean_size max_size schedule' (step mean_size max_size ev s)
           end
  end.

(** [uploaded_files = []] and both generators at the start of their streams. *)
Definition reseed (s : Sim) : Sim :=
  mkSim [] (log_file s) 0 0 (requests s) [].

(** The body of [run_simulation] once the generators are seeded. *)
Definition run_seeded (num_operations : nat) (mean_size max_size : Z)
    (mean_delay : Q) (schedule : list Event) (s : Sim) : Outcome :=
  match create_tasks mean_delay num_operations 0%Q (reseed s) with
  | (Return operations, s') => gather mean_size max_size schedule (set_tasks operations s')
  | (Raise e, s') => Propagated e s'
  end.

End Simulator.

(** [np.random.seed(seed)] accepts the seeds [0 .. 2**32 - 1]. *)
Definition numpy_seed (seed : Z) : bool :=
  ((0 <=? seed) && (seed <=? 2 ^ 32 - 1))%Z.

(** The state in which [np.random.seed] raises: [random.seed(seed)] has
    been called, the numpy generator is untouched, and neither the
    collection nor a task exists yet. *)
Definition seed_rejected (s : Sim) : Sim :=
  mkSim [] (log_file s) 0 (np_pos s) (requests s) [].

(** [run_simulation(seed, num_operations, mean_size, max_size, mean_delay)]:
    [random.seed(seed); np.random.seed(seed)] select the streams
    [seeded seed]; [np.random.seed] raises a [ValueError] for a seed outside
    its range, before anything else is done. *)
Definition run_simulation (seeded : Z -> Randomness) (num_nodes : nat)
    (seed : Z) (num_operations : nat) (mean_size max_size : Z)
    (mean_delay : Q) (schedule : list Event) (s : Sim) : Outcome :=
  if numpy_seed seed then
    run_seeded (seeded seed) num_nodes num_operations mean_size max_size
               mean_delay schedule s
  else
    Propagated (ValueError "Seed must be between 0 and 2**32 - 1") (seed_rejected s).

End Simulator.

(** * Specification vocabulary *)

Import Topology.

(** ** Topology *)

(** [w'] is reached from [w] by attempting exactly the edges [es], in
    order, and writing nothing to the topology log. *)
Definition attempted (w w' : World) (es : list (nat * nat)) : Prop :=
  attempts w' = attempts w ++ es /\ log_file w' = log_file w.

(** [w'] differs from [w] at most by its clock and its console. *)
Definition quiet (w w' : World) : Prop :=
  attempts w' = attempts w /\ log_file w' = log_file w /\ rng_pos w' = rng_pos w.

(** The edges attempted for one cell of the grid. *)
Definition cell_edges (size i j : nat) : list (nat * nat) :=
  (if j <? size - 1 then [(i * size + j, i * size + j + 1)] else [])
  ++ (if i <? size - 1 then [(i * size + j, i * size + j + size)] else []).

(** Number of attempts whose source is [c]. *)
Definition out_degree (c : nat) (es : list (nat * nat)) : nat :=
  length (filter (fun e => e.1 = c) es).

(** The cells of a grid of side [size], in the usual sense of the words:
    a cell is on the boundary when it lies in the first or last row or
    column, a corner when it lies in both a first-or-last row and a
    first-or-last column, an edge cell when it is on the boundary and is no
    corner, and interior otherwise. *)
Definition boundary_cell (size i j : nat) : bool :=
  (i =? 0) || (i =? size - 1) || (j =? 0) || (j =? size - 1).

Definition corner_cell (size i j : nat) : bool :=
  ((i =? 0) || (i =? size - 1)) && ((j =? 0) || (j =? size - 1)).

Definition edge_cell (size i j : nat) : bool :=
  boundary_cell size i j && negb (corner_cell size i j).

Definition interior_cell (size i j : nat) : bool :=
  negb (boundary_cell size i j).

(** [matrix[i][j]], when the indices are in range. *)
Definition entry (matrix : Matrix) (i j : nat) : option Z :=
  matrix !! i ≫= fun row => row !! j.

(** The matrix has [n] rows of [n] entries. *)
Definition square (n : nat) (matrix : Matrix) : Prop :=
  length matrix = n /\ Forall (fun row => length row = n) matrix.

(** Every entry that exists is 0 or 1. *)
Definition binary (matrix : Matrix) : Prop :=
  forall i j v, entry matrix i j = Some v -> v = 0%Z \/ v = 1%Z.

(** [matrix'] has the shape of [matrix] and differs from it at most by
    entries of row [i] that became 1. *)
Definition marks_only (n i : nat) (matrix matrix' : Matrix) : Prop :=
  square n matrix' /\
  forall i' j', entry matrix' i' j' = entry matrix i' j'
                \/ (i' = i /\ entry matrix' i' j' = Some 1%Z).

Section VerifierTerms.

Variable net : Network.
Variable num_nodes : nat.

(** The identities that [get_node_id] returns when asked for the nodes
    [js] one after the other, starting in world [w]. *)
Fixpoint fetch_ids (js : list nat) (w : World) : list (option string) * World :=
  match js with
  | [] => ([], w)
  | j :: js' =>
      match get_node_id net num_nodes j w with
      | (Return id, w') => let '(ids, w'') := fetch_ids js' w' in (id :: ids, w'')
      | (Raise _, w') => ([], w')
      end
  end.

(** The loop over the sessions that survive the protocol filter. *)
Definition mark_peers (i : nat) (kad_peers : list PeerSession)
  : M (World * Matrix) unit :=
  for_each kad_peers (fun peer => mark_peer net num_nodes i (Peer peer) (range num_nodes)).

End VerifierTerms.

(** ** Workload *)

Import Simulator.

(** [s'] differs from [s] only in the positions of the random streams. *)
Definition same_files (s s' : Sim) : Prop :=
  uploaded_files s' = uploaded_files s /\ Simulator.log_file s' = Simulator.log_file s
  /\ tasks s' = tasks s /\ requests s' = requests s.

(** What a task can be after it has started its operation. *)
Definition started (num_nodes : nat) (mean_size : Z) (now : Q) (before after : Sim)
    (r : result Task)
  : Prop :=
  uploaded_files after = uploaded_files before
  /\ Simulator.log_file after = Simulator.log_file before
  /\ tasks after = tasks before
  /\ match r with
     | Return (Uploading n _ st) =>
         st = now /\ n < num_nodes /\ requests after = S (requests before)
     | Return (Downloading n c st) =>
         st = now /\ n < num_nodes /\ c ∈ uploaded_files before
         /\ requests after = S (requests before)
     | Return _ => False
     | Raise _ => requests after = requests before
                  /\ (num_nodes = 0 \/ (mean_size < 0)%Z)
     end.

(** [rows] holds the record of a successful upload of [c]. *)
Definition upload_logged (c : string) (rows : list OperationRecord) : Prop :=
  exists r, r ∈ rows /\ action r = upload /\ success r = true /\ cid r = c.

(** Every download row comes after the row of a successful upload of the
    identifier it targets. *)
Definition downloads_follow_uploads (rows : list OperationRecord) : Prop :=
  forall pre r post, rows = pre ++ r :: post -> action r = download ->
                     upload_logged (cid r) pre.

(** The states of a task. *)
Definition is_done (t : Task) : bool :=
  match t with Done => true | _ => false end.

Definition is_sleeping (t : Task) : bool :=
  match t with Sleeping _ => true | _ => false end.

(** Number of tasks in a given state. *)
Definition count (f : Task -> bool) (ts : list Task) : nat :=
  length (List.filter f ts).

(** The row that the end of an operation appends, and the identifier it
    adds to the shared list. *)
Definition completion_row (now : Q) (task : Task) (reply : Reply)
  : option OperationRecord :=
  match task, reply with
  | Uploading n sz st, Answered c =>
      Some (mkRecord st n upload sz c (now - st) true)
  | Uploading n sz st, AnsweredNull =>
      Some (mkRecord st n upload sz "" (now - st) true)
  | Uploading n sz st, Failed TimeoutError =>
      Some (mkRecord st n upload sz "error" (now - st) false)
  | Downloading n c st, Answered content =>
      Some (mkRecord st n download (Z.of_nat (String.length content)) c (now - st) true)
  | Downloading n c st, Failed TimeoutError =>
      Some (mkRecord st n download 0 c (now - st) false)
  | _, _ => None
  end.

Definition completion_cid (task : Task) (reply : Reply) : option string :=
  match task, reply with
  | Uploading _ _ _, Answered c => Some c
  | _, _ => None
  end.

(** The task is suspended in its HTTP request. *)
Definition awaiting (t : Task) : bool :=
  match t with Uploading _ _ _ | Downloading _ _ _ => true | _ => false end.

(** The state [s] of a run that started in [s0] with the rows [rows] written
    since. *)
Definition run_invariant (s0 s : Sim) (rows : list OperationRecord) : Prop :=
  Simulator.log_file s = Simulator.log_file s0 ++ rows
  /\ (forall c, c ∈ uploaded_files s -> upload_logged c rows)
  /\ downloads_follow_uploads rows
  /\ (forall i n c st, tasks s !! i = Some (Downloading n c st) -> c ∈ uploaded_files s)
  /\ length (tasks s) = length (tasks s0)
  /\ length rows = count is_done (tasks s)
  /\ requests s + count is_sleeping (tasks s) <= requests s0 + length (tasks s0).

(** The state in which the run stands, however it stands. *)
Definition final_state (o : Outcome) : Sim :=
  match o with Returned s | Propagated _ s | Waiting s => s end.

(** The [k]-th inter-arrival sample drawn with mean [mean_delay]. *)
Definition sample (rng : Randomness) (mean_delay : Q) (k : nat) : Q :=
  let '(n, d) := np_standard_exponential rng k in (mean_delay * (Z.of_N n # d))%Q.

(** [offsets] accumulates the samples from position [pos] on, starting
    from [delay]. *)
Fixpoint arrivals (rng : Randomness) (mean_delay : Q) (pos : nat) (delay : Q)
    (offsets : list Q) : Prop :=
  match offsets with
  | [] => True
  | d :: rest =>
      d = (delay + sample rng mean_delay pos)%Q
      /\ arrivals rng mean_delay (S pos) d rest
  end.

(** The schedule in which every task is woken at its offset and its
    request times out before the next task is woken. *)
Fixpoint drain (i : nat) (offsets : list Q) : list Event :=
  match offsets with
  | [] => []
  | d :: rest => Wake i d :: Respond i d (Failed TimeoutError) :: drain (S i) rest
  end.

(** The task an event is addressed to. *)
Definition event_task (ev : Event) : nat :=
  match ev with Wake i _ | Respond i _ _ => i end.

(** What an operation that has started does. *)
Inductive Choice : Type :=
| ChoosesUpload
| ChoosesDownload (cid : string).

Definition choice_of (r : result Task) : option Choice :=
  match r with
  | Return (Uploading _ _ _) => Some ChoosesUpload
  | Return (Downloading _ c _) => Some (ChoosesDownload c)
  | _ => None
  end.

(** The streams of [rng] with the raw draw at position [pos] set to [r]. *)
Definition with_draw (rng : Randomness) (pos r : nat) : Randomness :=
  mkRandomness (fun k => if k =? pos then r else py_random rng k)
               (np_standard_exponential rng).

(** What [run_operation] starts in state [s] for each of the raw draws
    [0 .. len(uploaded_files) + 1] of its first [randint]: one full period
    of the draw, so each of these outcomes is equally likely. *)
Definition outcomes (rng : Randomness) (num_nodes : nat) (mean_size max_size : Z)
    (now : Q) (s : Sim) : list (option Choice) :=
  map (fun r => choice_of (run_operation_begin (with_draw rng (py_pos s) r) num_nodes
                             mean_size max_size now s).1)
      (seq 0 (length (uploaded_files s) + 2)).

Definition chooses_upload (o : option Choice) : bool :=
  match o with Some ChoosesUpload => true | _ => false end.

Definition chooses_download (c : string) (o : option Choice) : bool :=
  match o with Some (ChoosesDownload c') => bool_decide (c' = c) | _ => false end.

(** The probability of [event] when every outcome of the list is equally
    likely. *)
Definition probability {A} (event : A -> bool) (outcomes : list A) : Q :=
  Z.of_nat (length (List.filter event outcomes)) # Pos.of_nat (length outcomes).

(** ** Sample worlds *)

(** The peer identities of three nodes. *)
Definition node_identity (i : nat) : string :=
  match i with 0 => "QmA" | 1 => "QmB" | _ => "QmC" end.

(** A cluster of three nodes in which every call succeeds: node [i] has
    one kad session with its successor on the ring and a bitswap-only
    session with its predecessor. All random draws are 0. *)
Definition healthy : Network :=
  mkNetwork
    (fun _ _ => Return "10.0.0.1")
    (fun _ i => Return (node_identity i))
    (fun _ _ _ => Return (200%Z, "ok"))
    (fun _ i => Return (200%Z, "",
       Return [mkPeer (Some (node_identity ((i + 1) mod 3))) [Some "/ipfs/lan/kad/1.0.0"];
               mkPeer (Some (node_identity ((i + 2) mod 3))) [Some "/ipfs/bitswap/1.2.0"]]))
    (fun _ => 0).

(** Streams in which every raw draw is 0 and every standard exponential
    sample is 1. *)
Definition steady (seed : Z) : Randomness :=
  mkRandomness (fun _ => 0) (fun _ => (1%N, 1%positive)).

(** ** The rows of a pass *)

(** The state of [read_connection_matrix] when the rows of the nodes
    [0 .. k-1] are done: the world and the matrix. *)
Definition pass_state (net : Network) (num_nodes k : nat) (w : World) : World * Matrix :=
  (for_each (range k) (read_row net num_nodes)
     ((print (Banner "Reading connection matrix...") w).2, zero_matrix num_nodes)).2.

(** ** A cluster whose answers do not change *)

(** What [get_node_id] returns for an answer of [/id]. *)
Definition fetched (answer : result string) : option string :=
  match answer with Return id => Some id | Raise _ => None end.

(** During the pass the identity request of node [j] is always answered by
    [ids j] and the peers request of node [i] by [peers i]. *)
Definition stable (net : Network) (ids : nat -> result string)
    (peers : nat -> result (Z * string * result (list PeerSession))) : Prop :=
  (forall t j, post_id net t j = ids j)
  /\ (forall t i, post_swarm_peers net t i = peers i).

(** The sessions of a peers answer that the verifier goes through: those
    of a 200 answer that have a stream of the kad protocol. *)
Definition kad_sessions (answer : result (Z * string * result (list PeerSession)))
  : list PeerSession :=
  match answer with
  | Return (status, _, Return sessions) =>
      if (status =? 200)%Z then filter (fun p => is_kad p = true) sessions else []
  | _ => []
  end.

(** Node [i] reports a kad session whose peer is what the identity request
    of node [j] gives. *)
Definition reports (ids : nat -> result string)
    (peers : nat -> result (Z * string * result (list PeerSession)))
    (i j : nat) : bool :=
  existsb (fun p => bool_decide (fetched (ids j) = Peer p)) (kad_sessions (peers i)).

(** ** The tool *)

(** The node counts a constructor refuses: the grid needs a perfect
    square, preferential attachment (with its default [m = 2]) more than
    two nodes. *)
Definition rejected (num_nodes : nat) (kind : TopologyKind) : Prop :=
  match kind with
  | grid => forall size, size * size <> num_nodes
  | barabasi => num_nodes <= 2
  | ring | full => False
  end.

(** ** Rows of the workload log *)

(** The bounds of a task suspended in its request. *)
Definition in_range (num_nodes : nat) (max_size : Z) (t : Task) : Prop :=
  match t with
  | Uploading n sz _ => n < num_nodes /\ (Z.min 0 max_size <= sz <= max_size)%Z
  | Downloading n _ _ => n < num_nodes
  | _ => True
  end.

(** What every row of a run satisfies. *)
Definition well_formed (num_nodes : nat) (max_size : Z) (r : OperationRecord) : Prop :=
  node r < num_nodes
  /\ match action r with
     | upload => (Z.min 0 max_size <= file_size r <= max_size)%Z
                 /\ (success r = false -> cid r = "error")
     | download => (0 <= file_size r)%Z
                   /\ (success r = false -> file_size r = 0%Z)
     end.

(** The identifier a row adds to the shared collection. *)
Definition uploaded_cid (r : OperationRecord) : option string :=
  match action r with
  | upload => if success r then Some (cid r) else None
  | download => None
  end.

(** A task that has not started, or has crashed on a [ValueError]. *)
Definition never_started (t : Task) : Prop :=
  is_sleeping t = true \/ exists msg, t = Crashed (ValueError msg).

(** ** A cluster in which every connect succeeds *)

(** Every name resolves to a non-empty address, every identity request
    gives a non-empty identity, and every [/swarm/connect] is answered with
    status 200. *)
Definition reachable (net : Network) : Prop :=
  forall t s i arg,
    (exists ip, gethostbyname net t i = Return ip /\ ip <> "")
    /\ (exists id, post_id net t i = Return id /\ id <> "")
    /\ (exists text, post_swarm_connect net t s arg = Return (200%Z, text)).

(** ** Degrees *)

(** Number of attempts of which [c] is an endpoint. *)
Definition degree (c : nat) (es : list (nat * nat)) : nat :=
  length (filter (fun e => e.1 = c \/ e.2 = c) es).

(** Number of neighbours of the cell in row [i] and column [j] of a grid
    of side [size]: above, below, left and right. *)
Definition neighbours (size i j : nat) : nat :=
  (if 0 <? i then 1 else 0) + (if i <? size - 1 then 1 else 0)
  + (if 0 <? j then 1 else 0) + (if j <? size - 1 then 1 else 0).

(** * Properties *)

(** ** connect_nodes *)

Section ManagerFacts.

Variable net : Network.
Variable num_nodes : nat.

Lemma attempted_refl w : attempted w w [].
Proof. split; [by rewrite app_nil_r | done]. Qed.

Lemma attempted_trans w1 w2 w3 es1 es2 :
  attempted w1 w2 es1 -> attempted w2 w3 es2 -> attempted w1 w3 (es1 ++ es2).
Proof.
  intros [Ha1 Hl1] [Ha2 Hl2]. split.
  - by rewrite Ha2, Ha1, app_assoc.
  - by rewrite Hl2.
Qed.

Lemma quiet_refl w : quiet w w.
Proof. by repeat split. Qed.

Lemma quiet_trans w1 w2 w3 : quiet w1 w2 -> quiet w2 w3 -> quiet w1 w3.
Proof. intros (?&?&?) (?&?&?). repeat split; congruence. Qed.

Lemma subscript_in i w :
  i < num_nodes -> subscript num_nodes i w = (Return tt, w).
Proof. intros Hi. unfold subscript. by apply Nat.ltb_lt in Hi as ->. Qed.

Lemma resolve_container_ip_quiet i w :
  i < num_nodes ->
  exists r w', resolve_container_ip net num_nodes i w = (r, w') /\ quiet w w'.
Proof.
  intros Hi. unfold resolve_container_ip, try_except, bind.
  rewrite (subscript_in i w Hi). unfold call.
  destruct (gethostbyname net (tick w) i) as [ip|e]; cbn.
  - eexists _, _. split; [reflexivity | by repeat split].
  - destruct e; cbn; try (eexists _, _; split; [reflexivity | by repeat split]).
    rewrite subscript_in by done. cbn.
    eexists _, _. split; [reflexivity | by repeat split].
Qed.

Lemma get_node_id_returns i w :
  i < num_nodes ->
  exists o w', get_node_id net num_nodes i w = (Return o, w') /\ quiet w w'.
Proof.
  intros Hi. unfold get_node_id, try_except, bind.
  rewrite (subscript_in i w Hi). unfold call.
  destruct (post_id net (tick w) i) as [id|e]; cbn.
  - eexists _, _. split; [reflexivity | by repeat split].
  - rewrite subscript_in by done. cbn.
    eexists _, _. split; [reflexivity | by repeat split].
Qed.

Lemma connect_nodes_returns s t w :
  s < num_nodes -> t < num_nodes ->
  exists b w', connect_nodes net num_nodes s t w = (Return b, w')
               /\ attempted w w' [(s, t)]
               /\ rng_pos w' = rng_pos w.
Proof.
  intros Hs Ht.
  unfold connect_nodes, bind at 1, note_attempt.
  set (w1 := mkWorld _ _ _ _ _).
  assert (Hw1 : attempts w1 = attempts w ++ [(s, t)] /\ Topology.log_file w1 = Topology.log_file w
                /\ rng_pos w1 = rng_pos w) by done.
  clearbody w1.
  assert (Hfin : forall (b : bool) w', quiet w1 w' ->
            exists b0 w'0, (Return b, w') = (Return b0, w'0)
               /\ attempted w w'0 [(s, t)] /\ rng_pos w'0 = rng_pos w).
  { intros b w' (Ha & Hl & Hr). exists b, w'. unfold attempted.
    destruct Hw1 as (? & ? & ?). repeat split; congruence. }
  assert (Hhandler : forall e w', quiet w1 w' ->
            exists b0 w'0,
              (subscript num_nodes s ;;; subscript num_nodes t ;;;
               print (FailedToConnect s t e) ;;; ret false) w' = (Return b0, w'0)
               /\ attempted w w'0 [(s, t)] /\ rng_pos w'0 = rng_pos w).
  { intros e w' Hq. unfold bind. rewrite !subscript_in by done. cbn.
    apply Hfin. eapply quiet_trans; [exact Hq | by repeat split]. }
  unfold try_except, bind at 1.
  destruct (resolve_container_ip_quiet t w1 Ht) as (r & w2 & -> & Hq2).
  destruct r as [target_ip|e]; [|by apply Hhandler].
  destruct (falsy target_ip); [by apply Hfin|].
  unfold bind at 1.
  destruct (get_node_id_returns t w2 Ht) as (target_id & w3 & -> & Hq3).
  assert (Hq13 : quiet w1 w3) by (by eapply quiet_trans).
  destruct (falsy target_id); [by apply Hfin|].
  unfold bind at 1. rewrite subscript_in by done.
  unfold bind at 1, call.
  assert (Hq14 : quiet w1 (advance w3)).
  { eapply quiet_trans; [exact Hq13 | by repeat split]. }
  destruct (post_swarm_connect net (tick w3) s _) as [[status text]|e];
    [|by apply Hhandler].
  cbn [fst snd]. destruct (status =? 200)%Z.
  - unfold bind. rewrite !subscript_in by done. cbn.
    apply Hfin. eapply quiet_trans; [exact Hq14 | by repeat split].
  - unfold bind. cbn.
    apply Hfin. eapply quiet_trans; [exact Hq14 | by repeat split].
Qed.

(** A connect attempt prints at most one line. *)
Lemma connect_nodes_console s t w :
  s < num_nodes -> t < num_nodes ->
  exists lines,
    stdout (connect_nodes net num_nodes s t w).2 = stdout w ++ lines
    /\ length lines <= 1.
Proof.
  intros Hs%Nat.ltb_lt Ht%Nat.ltb_lt.
  assert (Hnone : exists lines, stdout w = stdout w ++ lines /\ length lines <= 1).
  { exists []. split; [by rewrite app_nil_r | cbn; lia]. }
  assert (Hone : forall l, exists lines,
            stdout w ++ [l] = stdout w ++ lines /\ length lines <= 1).
  { intros l. exists [l]. split; [done | cbn; lia]. }
  unfold connect_nodes, resolve_container_ip, get_node_id, note_attempt,
    try_except, bind, subscript, call, print, ret, raise.
  rewrite ?Hs, ?Ht. cbn.
  destruct (gethostbyname net (tick w) t) as [ip|e]; cbn.
  2: { destruct e; cbn; rewrite ?Hs, ?Ht; cbn; apply Hone. }
  destruct (bool_decide (ip = "")); cbn; [apply Hnone|].
  rewrite ?Hs, ?Ht. cbn.
  destruct (post_id net (S (tick w)) t) as [id|e]; cbn; rewrite ?Hs, ?Ht; cbn.
  2: { apply Hone. }
  destruct (bool_decide (id = "")); cbn; [apply Hnone|].
  rewrite ?Hs, ?Ht. cbn.
  destruct (post_swarm_connect net (S (S (tick w))) s _) as [[status text]|e];
    cbn; rewrite ?Hs, ?Ht; cbn.
  2: { apply Hone. }
  destruct (status =? 200)%Z; cbn; rewrite ?Hs, ?Ht; cbn; apply Hone.
Qed.

End ManagerFacts.

Section Constructors.

Variable net : Network.
Variable num_nodes : nat.

Lemma connect_then_continue s t w :
  s < num_nodes -> t < num_nodes ->
  exists w', (connect_nodes net num_nodes s t ;;; ret tt) w = (Return tt, w')
             /\ attempted w w' [(s, t)].
Proof.
  intros Hs Ht. unfold bind.
  destruct (connect_nodes_returns net num_nodes s t w Hs Ht) as (b & w' & -> & Ha & _).
  by exists w'.
Qed.

(** A loop whose body always returns attempts the edges of its iterations
    in order: no iteration is skipped and none stops the loop. *)
Lemma for_each_attempted {A} (xs : list A) (body : A -> M World unit)
    (f : A -> list (nat * nat)) :
  (forall x w, x ∈ xs -> exists w', body x w = (Return tt, w') /\ attempted w w' (f x)) ->
  forall w, exists w', for_each xs body w = (Return tt, w') /\ attempted w w' (xs ≫= f).
Proof.
  induction xs as [|x xs IH]; intros Hbody w.
  - exists w. split; [done | apply attempted_refl].
  - destruct (Hbody x w) as (w1 & Hx & Ha1); [by left|].
    destruct (IH (fun y w Hy => Hbody y w (list_elem_of_further _ _ _ Hy)) w1)
      as (w2 & Hxs & Ha2).
    exists w2. split.
    + cbn. unfold bind. by rewrite Hx.
    + rewrite bind_cons. by eapply attempted_trans.
Qed.

Lemma print_attempted l w :
  exists w', print l w = (Return tt, w') /\ attempted w w' [].
Proof.
  eexists. split; [done|]. split; cbn; [by rewrite app_nil_r | done].
Qed.

Lemma ring_run w :
  exists w', create_ring_topology net num_nodes w = (Return tt, w')
    /\ attempted w w' (range num_nodes ≫= fun i => [(i, (i + 1) mod num_nodes)]).
Proof.
  unfold create_ring_topology, bind at 1.
  destruct (print_attempted (Banner "Creating ring topology...") w) as (w1 & -> & Ha1).
  edestruct (for_each_attempted (range num_nodes)) as (w2 & -> & Ha2).
  2: { exists w2. split; [done|]. apply (attempted_trans _ _ _ _ _ Ha1 Ha2). }
  intros i w0 [_ Hi]%elem_of_seq. cbn in Hi.
  apply connect_then_continue; [done|].
  apply Nat.mod_upper_bound. lia.
Qed.

Lemma grid_run size w :
  size * size = num_nodes ->
  exists w', create_grid_topology net num_nodes w = (Return tt, w')
    /\ attempted w w'
         (range size ≫= fun i => range size ≫= fun j => cell_edges size i j).
Proof.
  intros Hsq. unfold create_grid_topology, bind at 1.
  destruct (print_attempted (Banner "Creating grid topology...") w) as (w1 & -> & Ha1).
  assert (isqrt num_nodes = size) as ->.
  { unfold isqrt. subst num_nodes. apply Nat.sqrt_square. }
  apply Nat.eqb_eq in Hsq as Hsqb. rewrite Hsqb. cbn [negb].
  edestruct (for_each_attempted (range size)) as (w2 & -> & Ha2).
  2: { exists w2. split; [done|]. apply (attempted_trans _ _ _ _ _ Ha1 Ha2). }
  intros i w0 [_ Hi]%elem_of_seq. cbn in Hi.
  apply for_each_attempted.
  intros j w3 [_ Hj]%elem_of_seq. cbn in Hj.
  unfold cell_edges, bind at 1.
  assert (Hcur : i * size + j < num_nodes) by nia.
  destruct (j <? size - 1) eqn:Hjb.
  - apply Nat.ltb_lt in Hjb.
    destruct (connect_then_continue (i * size + j) (i * size + j + 1) w3)
      as (w4 & -> & Ha4); [done | nia |].
    destruct (i <? size - 1) eqn:Hib.
    + apply Nat.ltb_lt in Hib.
      destruct (connect_then_continue (i * size + j) (i * size + j + size) w4)
        as (w5 & -> & Ha5); [done | nia |].
      exists w5. split; [done|]. apply (attempted_trans _ _ _ _ _ Ha4 Ha5).
    + exists w4. split; [done|]. by rewrite app_nil_r.
  - cbn -[Nat.ltb Nat.sub]. destruct (i <? size - 1) eqn:Hib.
    + apply Nat.ltb_lt in Hib.
      apply connect_then_continue; [done | nia].
    + exists w3. split; [done | apply attempted_refl].
Qed.

Lemma grid_rejects w :
  (forall size, size * size <> num_nodes) ->
  exists msg w', create_grid_topology net num_nodes w = (Raise (ValueError msg), w')
    /\ attempted w w' [].
Proof.
  intros Hns. unfold create_grid_topology, bind at 1.
  destruct (print_attempted (Banner "Creating grid topology...") w) as (w1 & -> & Ha1).
  destruct (isqrt num_nodes * isqrt num_nodes =? num_nodes) eqn:Hb.
  - apply Nat.eqb_eq in Hb. by destruct (Hns (isqrt num_nodes)).
  - cbn. eauto.
Qed.

Lemma mesh_run w :
  exists w', create_fully_connected_topology net num_nodes w = (Return tt, w')
    /\ attempted w w'
         (range num_nodes ≫= fun i => range2 (i + 1) num_nodes ≫= fun j => [(i, j)]).
Proof.
  unfold create_fully_connected_topology, bind at 1.
  destruct (print_attempted (Banner "Creating fully connected topology...") w)
    as (w1 & -> & Ha1).
  edestruct (for_each_attempted (range num_nodes)) as (w2 & -> & Ha2).
  2: { exists w2. split; [done|]. apply (attempted_trans _ _ _ _ _ Ha1 Ha2). }
  intros i w0 [_ Hi]%elem_of_seq. cbn in Hi.
  apply for_each_attempted.
  intros j w3 [Hj1 Hj2]%elem_of_seq.
  apply connect_then_continue; lia.
Qed.

End Constructors.

(** ** Shapes of the attempted edge lists *)

Lemma bind_singleton_fmap {A B} (f : A -> B) (l : list A) :
  l ≫= (fun x => [f x]) = f <$> l.
Proof. induction l as [|x l IH]; [done|]. rewrite bind_cons, IH. done. Qed.

Lemma bind_all_nil {A B} (g : A -> list B) (l : list A) :
  (forall x, x ∈ l -> g x = []) -> l ≫= g = [].
Proof.
  induction l as [|x l IH]; intros Hg; [done|].
  rewrite bind_cons, (Hg x), IH; [done| |by left].
  intros y Hy. apply Hg. by right.
Qed.

Lemma bind_only_one {A B} (g : A -> list B) (a : A) (l : list A) :
  NoDup l -> a ∈ l -> (forall x, x ∈ l -> x <> a -> g x = []) -> l ≫= g = g a.
Proof.
  induction 1 as [|x l Hx Hnd IH]; intros Ha Hg; [by apply elem_of_nil in Ha|].
  rewrite bind_cons.
  apply elem_of_cons in Ha as [<-|Ha].
  - rewrite bind_all_nil; [by rewrite app_nil_r|].
    intros y Hy. apply Hg; [by right|]. intros ->. done.
  - rewrite (Hg x), IH; [done|done| |by left|].
    + intros y Hy Hne. apply Hg; [by right|done].
    + intros ->. done.
Qed.

Lemma filter_bind {A B} (P : B -> Prop) `{!forall y, Decision (P y)}
    (g : A -> list B) (l : list A) :
  filter P (l ≫= g) = l ≫= (fun x => filter P (g x)).
Proof.
  induction l as [|x l IH]; [done|].
  by rewrite !bind_cons, filter_app, IH.
Qed.

Lemma cell_edges_source size i j e :
  e ∈ cell_edges size i j -> e.1 = i * size + j.
Proof.
  unfold cell_edges. intros [He|He]%elem_of_app.
  - destruct (j <? size - 1); [|by apply elem_of_nil in He].
    by apply list_elem_of_singleton in He as ->.
  - destruct (i <? size - 1); [|by apply elem_of_nil in He].
    by apply list_elem_of_singleton in He as ->.
Qed.

Lemma cell_index_inj size i j i' j' :
  j < size -> j' < size -> i * size + j = i' * size + j' -> i = i' /\ j = j'.
Proof. intros Hj Hj' Heq. assert (i = i') by nia. subst. lia. Qed.

Lemma filter_all {A} (P : A -> Prop) `{!forall x, Decision (P x)} (l : list A) :
  (forall x, x ∈ l -> P x) -> filter P l = l.
Proof.
  induction l as [|x l IH]; intros HP; [done|].
  rewrite filter_cons_True by (apply HP; by left).
  f_equal. apply IH. intros y Hy. apply HP. by right.
Qed.

Lemma filter_none {A} (P : A -> Prop) `{!forall x, Decision (P x)} (l : list A) :
  (forall x, x ∈ l -> ~ P x) -> filter P l = [].
Proof.
  induction l as [|x l IH]; intros HP; [done|].
  rewrite filter_cons_False by (apply HP; by left).
  apply IH. intros y Hy. apply HP. by right.
Qed.

Lemma grid_out_degree size i j :
  i < size -> j < size ->
  out_degree (i * size + j)
    (range size ≫= fun i' => range size ≫= fun j' => cell_edges size i' j')
  = length (cell_edges size i j).
Proof.
  intros Hi Hj. unfold out_degree. f_equal.
  rewrite filter_bind.
  rewrite (bind_only_one _ i); [|apply NoDup_seq|apply elem_of_seq; lia|].
  - rewrite filter_bind.
    rewrite (bind_only_one _ j); [|apply NoDup_seq|apply elem_of_seq; lia|].
    + apply filter_all. intros e He. by apply cell_edges_source.
    + intros j' [_ Hj']%elem_of_seq Hne. apply filter_none.
      intros e He%cell_edges_source Hsrc. rewrite He in Hsrc.
      apply cell_index_inj in Hsrc as [_ ?]; [done|lia|done].
  - intros i' _ Hne. rewrite filter_bind.
    assert (Hnil : forall l : list nat, (forall x, x ∈ l -> x < size) ->
       l ≫= (fun j' => filter (fun e => e.1 = i * size + j) (cell_edges size i' j')) = []).
    { induction l as [|x l IH]; intros Hl; [done|].
      rewrite bind_cons, IH by (intros; apply Hl; by right).
      rewrite app_nil_r. apply filter_none.
      intros e He%cell_edges_source Hsrc. rewrite He in Hsrc.
      apply cell_index_inj in Hsrc as [? _]; [done| |done].
      apply Hl. by left. }
    apply Hnil. intros x [_ Hx]%elem_of_seq. lia.
Qed.

Lemma grid_elem_of size s t :
  (s, t) ∈ (range size ≫= fun i => range size ≫= fun j => cell_edges size i j)
  <-> exists i j, i < size /\ j < size /\ s = i * size + j
                  /\ (j < size - 1 /\ t = s + 1 \/ i < size - 1 /\ t = s + size).
Proof.
  split.
  - intros (i & (j & He & [_ Hj]%elem_of_seq)%list_elem_of_bind
              & [_ Hi]%elem_of_seq)%list_elem_of_bind.
    exists i, j. cbn in Hi, Hj. split; [done|]. split; [done|].
    unfold cell_edges in He. apply elem_of_app in He as [He|He].
    + destruct (j <? size - 1) eqn:Hb; [|by apply elem_of_nil in He].
      apply Nat.ltb_lt in Hb.
      apply list_elem_of_singleton in He. injection He as -> ->. auto.
    + destruct (i <? size - 1) eqn:Hb; [|by apply elem_of_nil in He].
      apply Nat.ltb_lt in Hb.
      apply list_elem_of_singleton in He. injection He as -> ->. auto.
  - intros (i & j & Hi & Hj & -> & Hcase).
    apply list_elem_of_bind. exists i. split; [|apply elem_of_seq; lia].
    apply list_elem_of_bind. exists j. split; [|apply elem_of_seq; lia].
    unfold cell_edges. apply elem_of_app.
    destruct Hcase as [[Hb ->]|[Hb ->]]; apply Nat.ltb_lt in Hb; rewrite Hb;
      [left|right]; by apply list_elem_of_singleton.
Qed.

Lemma grid_NoDup size :
  NoDup (range size ≫= fun i => range size ≫= fun j => cell_edges size i j).
Proof.
  apply NoDup_bind; [| |apply NoDup_seq].
  - intros i1 i2 e _ _
      (j1 & He1%cell_edges_source & [_ Hj1]%elem_of_seq)%list_elem_of_bind
      (j2 & He2%cell_edges_source & [_ Hj2]%elem_of_seq)%list_elem_of_bind.
    rewrite He1 in He2. by apply cell_index_inj in He2 as [? _].
  - intros i _. apply NoDup_bind; [| |apply NoDup_seq].
    + intros j1 j2 e [_ Hj1]%elem_of_seq [_ Hj2]%elem_of_seq
        He1%cell_edges_source He2%cell_edges_source.
      rewrite He1 in He2. by apply cell_index_inj in He2 as [_ ?].
    + intros j _. unfold cell_edges.
      destruct (j <? size - 1) eqn:Hj, (i <? size - 1) eqn:Hi; cbn;
        repeat constructor; try (by intros ?%elem_of_nil).
      intros Heq%list_elem_of_singleton. apply Nat.ltb_lt in Hi.
      injection Heq as Heq. lia.
Qed.

(** ** Full mesh *)

Lemma mesh_elem_of n s t :
  (s, t) ∈ (range n ≫= fun i => range2 (i + 1) n ≫= fun j => [(i, j)])
  <-> s < t /\ t < n.
Proof.
  split.
  - intros (i & (j & He & [Hj1 Hj2]%elem_of_seq)%list_elem_of_bind
              & [_ Hi]%elem_of_seq)%list_elem_of_bind.
    apply list_elem_of_singleton in He. injection He as -> ->. lia.
  - intros [Hst Htn].
    apply list_elem_of_bind. exists s. split; [|apply elem_of_seq; lia].
    apply list_elem_of_bind. exists t. split; [by apply list_elem_of_singleton|].
    unfold range2. apply elem_of_seq. lia.
Qed.

Lemma mesh_NoDup n :
  NoDup (range n ≫= fun i => range2 (i + 1) n ≫= fun j => [(i, j)]).
Proof.
  apply NoDup_bind; [| |apply NoDup_seq].
  - intros i1 i2 e _ _ (j1 & He1 & _)%list_elem_of_bind (j2 & He2 & _)%list_elem_of_bind.
    apply list_elem_of_singleton in He1, He2. congruence.
  - intros i _. apply NoDup_bind; [| |apply NoDup_seq].
    + intros j1 j2 e _ _ He1 He2.
      apply list_elem_of_singleton in He1, He2. congruence.
    + intros j _. apply NoDup_singleton.
Qed.

Lemma mesh_length_from a k n :
  a + k = n ->
  2 * length (seq a k ≫= fun i => range2 (i + 1) n ≫= fun j => [(i, j)])
  = k * (k - 1).
Proof.
  revert a. induction k as [|k IH]; intros a Hn; [done|].
  cbn [seq]. rewrite bind_cons, length_app.
  rewrite bind_singleton_fmap, length_fmap. unfold range2 at 1.
  rewrite length_seq.
  specialize (IH (S a) ltac:(lia)). nia.
Qed.

Lemma mesh_length n :
  length (range n ≫= fun i => range2 (i + 1) n ≫= fun j => [(i, j)])
  = n * (n - 1) / 2.
Proof.
  pose proof (mesh_length_from 0 n n eq_refl) as H.
  unfold range. apply Nat.div_unique_exact; [lia|]. lia.
Qed.

(** ** Preferential attachment *)

Section Barabasi.

Variable net : Network.
Variable num_nodes : nat.

Lemma out_degree_app c es1 es2 :
  out_degree c (es1 ++ es2) = out_degree c es1 + out_degree c es2.
Proof. unfold out_degree. by rewrite filter_app, length_app. Qed.

Lemma out_degree_same c (ts : list nat) :
  out_degree c ((fun t => (c, t)) <$> ts) = length ts.
Proof.
  unfold out_degree. rewrite filter_all, length_fmap; [done|].
  by intros e (t & -> & _)%list_elem_of_fmap.
Qed.

Lemma out_degree_other c es :
  (forall s t, (s, t) ∈ es -> s <> c) -> out_degree c es = 0.
Proof.
  intros H. unfold out_degree. rewrite filter_none; [done|].
  intros [s t] He Hs. by apply (H s t He).
Qed.

Lemma choices_returns targets k w :
  targets <> [] ->
  exists selected w', choices net targets k w = (Return selected, w')
    /\ attempted w w' []
    /\ length selected = k
    /\ (forall t, t ∈ selected -> t ∈ targets).
Proof.
  intros Hne. revert w. induction k as [|k IH]; intros w.
  - exists [], w. split; [done|]. split; [apply attempted_refl|].
    split; [done|]. by intros t ?%elem_of_nil.
  - cbn [choices]. unfold bind at 1, next_random.
    set (w1 := mkWorld _ _ _ _ _).
    assert (Ha1 : attempted w w1 []).
    { split; cbn; [by rewrite app_nil_r | done]. }
    unfold bind at 1.
    destruct (IH w1) as (sel & w2 & -> & Ha2 & Hlen & Hin).
    eexists _, w2. split; [reflexivity|].
    split; [apply (attempted_trans _ _ _ _ _ Ha1 Ha2)|].
    split; [by cbn; rewrite Hlen|].
    intros t [->|Ht]%elem_of_cons; [|by apply Hin].
    apply list_elem_of_In, nth_In, Nat.mod_upper_bound.
    by destruct targets.
Qed.

Lemma elem_of_set_add x k connected :
  x ∈ set_add k connected <-> x ∈ connected \/ x = k.
Proof.
  unfold set_add. case_bool_decide as Hk.
  - split; [by left|]. intros [Hx|Hx]; [done | by subst].
  - rewrite elem_of_app, list_elem_of_singleton. done.
Qed.

Lemma barabasi_connect_returns k selected connected w :
  k < num_nodes -> (forall t, t ∈ selected -> t < num_nodes) ->
  exists connected' w',
    barabasi_connect net num_nodes k selected connected w = (Return connected', w')
    /\ attempted w w' ((fun t => (k, t)) <$> selected)
    /\ (forall x, x ∈ connected -> x ∈ connected')
    /\ (forall x, x ∈ connected' -> x ∈ connected \/ x = k).
Proof.
  intros Hk. revert connected w.
  induction selected as [|t selected IH]; intros connected w Hsel.
  - exists connected, w. split; [done|]. split; [apply attempted_refl|]. auto.
  - cbn [barabasi_connect]. unfold bind at 1.
    destruct (connect_nodes_returns net num_nodes k t w) as (ok & w1 & -> & Ha1 & _);
      [done | apply Hsel; by left |].
    destruct (IH (if ok then set_add k connected else connected) w1)
      as (c' & w2 & -> & Ha2 & Hsub & Hsup).
    { intros t' Ht'. apply Hsel. by right. }
    exists c', w2. split; [done|].
    split; [apply (attempted_trans _ _ _ _ _ Ha1 Ha2)|]. split.
    + intros x Hx. apply Hsub. destruct ok; [|done].
      apply elem_of_set_add. by left.
    + intros x Hx. destruct (Hsup x Hx) as [Hx'|Hx']; [|by right].
      destruct ok; [|by left]. by apply elem_of_set_add in Hx'.
Qed.

(** One new node: exactly [min(m, len(connected))] attempts, all from the
    new node, each to a member of the connected set. *)
Lemma barabasi_step_returns (m : Z) k connected w :
  (1 <= m)%Z -> k < num_nodes -> connected <> [] ->
  (forall x, x ∈ connected -> x < k) ->
  exists selected connected' w',
    barabasi_step net num_nodes m k connected w = (Return connected', w')
    /\ attempted w w' ((fun t => (k, t)) <$> selected)
    /\ length selected = Nat.min (Z.to_nat m) (length connected)
    /\ (forall t, t ∈ selected -> t ∈ connected)
    /\ (forall x, x ∈ connected -> x ∈ connected')
    /\ (forall x, x ∈ connected' -> x ∈ connected \/ x = k).
Proof.
  intros Hm Hk Hne Hlt. unfold barabasi_step.
  destruct (length connected =? 0) eqn:Hlen.
  { apply Nat.eqb_eq in Hlen. by destruct connected. }
  unfold bind at 1, ret at 1. unfold bind at 1.
  destruct (choices_returns connected
              (Z.to_nat (Z.min m (Z.of_nat (length connected)))) w Hne)
    as (sel & w1 & -> & Ha1 & Hl & Hin).
  destruct (barabasi_connect_returns k sel connected w1 Hk)
    as (c' & w2 & -> & Ha2 & Hsub & Hsup).
  { intros t Ht%Hin%Hlt. lia. }
  exists sel, c', w2. split; [done|].
  split; [apply (attempted_trans _ _ _ _ _ Ha1 Ha2)|].
  split; [lia|]. auto.
Qed.

Lemma barabasi_loop_returns (m : Z) a n connected w :
  (1 <= m)%Z -> a + n <= num_nodes -> connected <> [] ->
  (forall x, x ∈ connected -> x < a) ->
  exists connected' w' es,
    barabasi_loop net num_nodes m (seq a n) connected w = (Return connected', w')
    /\ attempted w w' es
    /\ (forall s t, (s, t) ∈ es -> a <= s < a + n /\ t < s)
    /\ (forall k, out_degree k es <= Z.to_nat m)
    /\ (forall k, a <= k < a + n -> 1 <= out_degree k es).
Proof.
  intros Hm. revert a connected w.
  induction n as [|n IH]; intros a connected w Hn Hne Hlt.
  - exists connected, w, []. split; [done|]. split; [apply attempted_refl|].
    split; [by intros s t ?%elem_of_nil|]. split; [intros; cbn; lia|lia].
  - cbn [seq barabasi_loop]. unfold bind at 1.
    destruct (barabasi_step_returns m a connected w)
      as (sel & c1 & w1 & -> & Ha1 & Hlen & Hin & Hsub & Hsup); [done|lia|done|done|].
    destruct (IH (S a) c1 w1) as (c2 & w2 & es & -> & Ha2 & Hes & Hdeg & Hpos).
    { lia. }
    { intros ->. destruct connected as [|x ?]; [done|].
      specialize (Hsub x ltac:(by left)). by apply elem_of_nil in Hsub. }
    { intros x [Hx%Hlt|Hx]%Hsup; lia. }
    exists c2, w2, (((fun t => (a, t)) <$> sel) ++ es). split; [done|].
    split; [apply (attempted_trans _ _ _ _ _ Ha1 Ha2)|].
    assert (Hsrc : forall s t, (s, t) ∈ es -> s <> a).
    { intros s t Hst%Hes. lia. }
    split; [|split].
    + intros s t [(t' & Heq & Ht')%list_elem_of_fmap|Hst%Hes]%elem_of_app; [|lia].
      injection Heq as -> ->. apply Hin, Hlt in Ht'. lia.
    + intros k. rewrite out_degree_app.
      destruct (decide (k = a)) as [->|Hka].
      * rewrite out_degree_same, (out_degree_other a es Hsrc). lia.
      * rewrite (out_degree_other k (_ <$> sel)); [apply Hdeg|].
        intros s t (t' & Heq & _)%list_elem_of_fmap. injection Heq as -> ->. done.
    + intros k Hk. rewrite out_degree_app.
      destruct (decide (k = a)) as [->|Hka].
      * rewrite out_degree_same, Hlen.
        destruct connected; [done|]. cbn [length]. lia.
      * specialize (Hpos k ltac:(lia)). lia.
Qed.

Lemma barabasi_rejects (m : Z) w :
  (m < 1 \/ Z.of_nat num_nodes <= m)%Z ->
  exists msg w',
    create_barabasi_albert_topology net num_nodes m w = (Raise (ValueError msg), w')
    /\ attempted w w' [].
Proof.
  intros Hm. unfold create_barabasi_albert_topology, bind at 1.
  destruct (print_attempted (Banner "Creating Barabasi-Albert topology...") w)
    as (w1 & -> & Ha1).
  assert ((m <? 1)%Z || (Z.of_nat num_nodes <=? m)%Z = true) as ->.
  { apply orb_true_iff. destruct Hm; [left; by apply Z.ltb_lt | right; by apply Z.leb_le]. }
  eauto.
Qed.

Lemma barabasi_run (m : Z) w :
  (1 <= m < Z.of_nat num_nodes)%Z ->
  exists w' es,
    create_barabasi_albert_topology net num_nodes m w = (Return tt, w')
    /\ attempted w w' es
    /\ (forall s t, (s, t) ∈ es -> 1 <= s < num_nodes /\ t < s)
    /\ (forall k, out_degree k es <= Z.to_nat m)
    /\ (forall k, 1 <= k < num_nodes -> 1 <= out_degree k es).
Proof.
  intros Hm. unfold create_barabasi_albert_topology, bind at 1.
  destruct (print_attempted (Banner "Creating Barabasi-Albert topology...") w)
    as (w1 & -> & Ha1).
  assert ((m <? 1)%Z || (Z.of_nat num_nodes <=? m)%Z = false) as ->.
  { apply orb_false_iff. split; [apply Z.ltb_ge | apply Z.leb_gt]; lia. }
  unfold bind at 1, range2.
  destruct (barabasi_loop_returns m 1 (num_nodes - 1) [0] w1)
    as (c' & w2 & es & -> & Ha2 & Hes & Hdeg & Hpos); [lia|lia|done| |].
  { intros x ->%list_elem_of_singleton. lia. }
  exists w2, es. split; [done|].
  split; [apply (attempted_trans _ _ _ _ _ Ha1 Ha2)|].
  split; [|split; [done|]].
  - intros s t Hst%Hes. lia.
  - intros k Hk. apply Hpos. lia.
Qed.

End Barabasi.

(** ** The verifier *)

Section Verifier.

Variable net : Network.
Variable num_nodes : nat.

Lemma zero_matrix_square : square num_nodes (zero_matrix num_nodes).
Proof.
  split; [apply length_replicate|].
  apply Forall_replicate, length_replicate.
Qed.

Lemma zero_matrix_binary : binary (zero_matrix num_nodes).
Proof.
  intros i j v (row & Hrow & Hv)%bind_Some.
  apply lookup_replicate in Hrow as [-> _].
  apply lookup_replicate in Hv as [-> _]. by left.
Qed.

Lemma set_entry_returns i j v matrix :
  square num_nodes matrix -> i < num_nodes -> j < num_nodes ->
  exists matrix', set_entry i j v matrix = Return matrix'
    /\ square num_nodes matrix'
    /\ forall i' j', entry matrix' i' j'
         = if bool_decide (i' = i /\ j' = j) then Some v else entry matrix i' j'.
Proof.
  intros [Hlen Hrows] Hi Hj. unfold set_entry.
  destruct (matrix !! i) as [row|] eqn:Hrow.
  2: { apply lookup_ge_None in Hrow. lia. }
  assert (Hrl : length row = num_nodes).
  { by eapply (Forall_lookup_1 _ _ _ _ Hrows). }
  rewrite Hrl. apply Nat.ltb_lt in Hj as Hjb. rewrite Hjb.
  eexists. split; [done|]. split.
  - split; [by rewrite length_insert|].
    apply Forall_insert; [done|]. by rewrite length_insert.
  - intros i' j'. unfold entry. case_bool_decide as Hij.
    + destruct Hij as [-> ->].
      rewrite list_lookup_insert_eq by lia. cbn.
      apply list_lookup_insert_eq. lia.
    + destruct (decide (i' = i)) as [->|Hne].
      * rewrite list_lookup_insert_eq, Hrow by lia. cbn.
        apply list_lookup_insert_ne. intros ->. by apply Hij.
      * by rewrite list_lookup_insert_ne.
Qed.

Lemma mark_peer_returns i pid a n w matrix :
  i < num_nodes -> a + n <= num_nodes -> square num_nodes matrix ->
  exists matrix',
    mark_peer net num_nodes i pid (seq a n) (w, matrix)
      = (Return tt, ((fetch_ids net num_nodes (seq a n) w).2, matrix'))
    /\ quiet w (fetch_ids net num_nodes (seq a n) w).2
    /\ square num_nodes matrix'
    /\ forall i' j', entry matrix' i' j'
         = if bool_decide (i' = i /\ a <= j'
                           /\ (fetch_ids net num_nodes (seq a n) w).1 !! (j' - a) = Some pid)
           then Some 1%Z else entry matrix i' j'.
Proof.
  intros Hi. revert a w matrix. induction n as [|n IH]; intros a w matrix Han Hsq.
  - exists matrix. cbn. split; [done|]. split; [apply quiet_refl|]. split; [done|].
    intros i' j'. rewrite bool_decide_eq_false_2; [done|].
    intros (_ & _ & Hl). by rewrite lookup_nil in Hl.
  - cbn [seq mark_peer fetch_ids].
    destruct (get_node_id_returns net num_nodes a w) as (id & w1 & Hid & Hq1); [lia|].
    rewrite Hid.
    assert (Hshape : forall (m1 : Matrix), square num_nodes m1 ->
      (forall i' j', entry m1 i' j'
         = if bool_decide (i' = i /\ j' = a /\ id = pid) then Some 1%Z
           else entry matrix i' j') ->
      exists matrix',
        mark_peer net num_nodes i pid (seq (S a) n) (w1, m1)
          = (Return tt, ((let '(ids, w'') := fetch_ids net num_nodes (seq (S a) n) w1 in
                          (id :: ids, w'')).2, matrix'))
        /\ quiet w (let '(ids, w'') := fetch_ids net num_nodes (seq (S a) n) w1 in
                     (id :: ids, w'')).2
        /\ square num_nodes matrix'
        /\ forall i' j', entry matrix' i' j'
             = if bool_decide (i' = i /\ a <= j'
                   /\ (let '(ids, w'') := fetch_ids net num_nodes (seq (S a) n) w1 in
                        (id :: ids, w'')).1 !! (j' - a) = Some pid)
               then Some 1%Z else entry matrix i' j').
    { intros m1 Hsq1 Hm1.
      destruct (IH (S a) w1 m1 ltac:(lia) Hsq1) as (m' & Hrun & Hq2 & Hsq' & Hm').
      destruct (fetch_ids net num_nodes (seq (S a) n) w1) as [ids w2] eqn:Hf. cbn [fst snd] in *.
      exists m'. split; [done|]. split; [by eapply quiet_trans|]. split; [done|].
      intros i' j'. rewrite Hm', Hm1.
      destruct (decide (j' = a)) as [->|Hne].
      - replace (a - a) with 0 by lia. cbn [lookup list_lookup].
        repeat case_bool_decide; naive_solver lia.
      - destruct (decide (a <= j')) as [Hle|Hgt].
        + replace (j' - a) with (S (j' - S a)) by lia. cbn [lookup list_lookup].
          repeat case_bool_decide; naive_solver lia.
        + repeat case_bool_decide; naive_solver lia. }
    case_bool_decide as Heq.
    + destruct (set_entry_returns i a 1%Z matrix Hsq Hi ltac:(lia))
        as (m1 & -> & Hsq1 & Hm1).
      apply Hshape; [done|]. intros i' j'. rewrite Hm1.
      repeat case_bool_decide; naive_solver.
    + apply Hshape; [done|]. intros i' j'.
      rewrite bool_decide_eq_false_2; [done|]. naive_solver.
Qed.

Lemma marks_only_refl i matrix :
  square num_nodes matrix -> marks_only num_nodes i matrix matrix.
Proof. intros Hsq. split; [done|]. by left. Qed.

Lemma marks_only_trans i m1 m2 m3 :
  marks_only num_nodes i m1 m2 -> marks_only num_nodes i m2 m3 ->
  marks_only num_nodes i m1 m3.
Proof.
  intros [_ H12] [Hsq H23]. split; [done|]. intros i' j'.
  destruct (H23 i' j') as [->|?]; [apply H12 | by right].
Qed.

Lemma marks_only_keeps_ones i m1 m2 i' j' :
  marks_only num_nodes i m1 m2 ->
  entry m1 i' j' = Some 1%Z -> entry m2 i' j' = Some 1%Z.
Proof. intros [_ H] H1. destruct (H i' j') as [->|[_ ?]]; done. Qed.

Lemma marks_only_binary i m1 m2 :
  marks_only num_nodes i m1 m2 -> binary m1 -> binary m2.
Proof.
  intros [_ H] Hb i' j' v Hv. destruct (H i' j') as [Heq|[_ Heq]].
  - apply (Hb i' j'). by rewrite <- Heq.
  - right. congruence.
Qed.

Lemma mark_peer_marks_only i pid w matrix :
  i < num_nodes -> square num_nodes matrix ->
  exists w' matrix',
    mark_peer net num_nodes i pid (range num_nodes) (w, matrix)
      = (Return tt, (w', matrix'))
    /\ quiet w w' /\ marks_only num_nodes i matrix matrix'.
Proof.
  intros Hi Hsq.
  destruct (mark_peer_returns i pid 0 num_nodes w matrix Hi ltac:(lia) Hsq)
    as (m' & Hrun & Hq & Hsq' & Hm').
  eexists _, m'. split; [exact Hrun|]. split; [done|]. split; [done|].
  intros i' j'. rewrite Hm'. case_bool_decide as Hc; [right|by left].
  by destruct Hc as [-> _].
Qed.

Lemma for_each_app {S A} (xs ys : list A) (body : A -> M S unit) s :
  for_each (xs ++ ys) body s
  = match for_each xs body s with
    | (Return _, s') => for_each ys body s'
    | (Raise e, s') => (Raise e, s')
    end.
Proof.
  revert s. induction xs as [|x xs IH]; intros s; [done|].
  cbn. unfold bind. destruct (body x s) as [[[]|e] s']; [apply IH | done].
Qed.

Lemma mark_peers_returns i peers w matrix :
  i < num_nodes -> square num_nodes matrix ->
  exists w' matrix',
    mark_peers net num_nodes i peers (w, matrix) = (Return tt, (w', matrix'))
    /\ quiet w w' /\ marks_only num_nodes i matrix matrix'.
Proof.
  intros Hi. revert w matrix.
  induction peers as [|p peers IH]; intros w matrix Hsq.
  - exists w, matrix. split; [done|]. split; [apply quiet_refl|].
    by apply marks_only_refl.
  - unfold mark_peers. cbn [for_each]. unfold bind at 1.
    destruct (mark_peer_marks_only i (Peer p) w matrix Hi Hsq)
      as (w1 & m1 & -> & Hq1 & Hm1).
    destruct (IH w1 m1 (proj1 Hm1)) as (w2 & m2 & Hrun & Hq2 & Hm2).
    exists w2, m2. split; [exact Hrun|].
    split; [by eapply quiet_trans | by eapply marks_only_trans].
Qed.

(** Whatever a surviving session matches while it is processed is still
    marked when the loop over the sessions ends. *)
Lemma mark_peers_marks i before p after w matrix j :
  i < num_nodes -> square num_nodes matrix ->
  (fetch_ids net num_nodes (range num_nodes) (mark_peers net num_nodes i before (w, matrix)).2.1).1 !! j
    = Some (Peer p) ->
  entry (mark_peers net num_nodes i (before ++ p :: after) (w, matrix)).2.2 i j = Some 1%Z.
Proof.
  intros Hi Hsq.
  destruct (mark_peers_returns i before w matrix Hi Hsq)
    as (w1 & m1 & Hrun1 & _ & Hm1).
  rewrite Hrun1. cbn [fst snd]. intros Hmatch.
  destruct (mark_peer_returns i (Peer p) 0 num_nodes w1 m1 Hi ltac:(lia) (proj1 Hm1))
    as (m2 & Hrun2 & _ & Hsq2 & Hm2).
  destruct (mark_peers_returns i after (fetch_ids net num_nodes (seq 0 num_nodes) w1).2 m2 Hi Hsq2)
    as (w3 & m3 & Hrun3 & _ & Hm3).
  unfold mark_peers, range in *.
  rewrite for_each_app, Hrun1. cbn [for_each]. unfold bind at 1.
  rewrite Hrun2. cbv beta iota. rewrite Hrun3. cbn [fst snd].
  eapply marks_only_keeps_ones; [exact Hm3|].
  rewrite Hm2, bool_decide_eq_true_2; [done|].
  split; [done|]. split; [lia|]. by rewrite Nat.sub_0_r.
Qed.

(** A node that answers 200 with a well-formed body: the row is the loop
    over the sessions that survive the filter. *)
Lemma read_row_answered i w matrix text peers :
  i < num_nodes -> square num_nodes matrix ->
  post_swarm_peers net (tick w) i = Return (200%Z, text, Return peers) ->
  read_row net num_nodes i (w, matrix)
  = mark_peers net num_nodes i (filter (fun p => is_kad p = true) peers) (advance w, matrix).
Proof.
  intros Hi Hsq Hreply.
  destruct (mark_peers_returns i (filter (fun p => is_kad p = true) peers)
              (advance w) matrix Hi Hsq) as (w' & m' & Hrun & _).
  rewrite Hrun.
  unfold read_row, try_except, bind at 1, lift_world at 1.
  rewrite subscript_in by done.
  unfold bind at 1, lift_world at 1, call. rewrite Hreply. cbn -[filter].
  destruct peers as [|p peers]; [by rewrite <- Hrun|].
  fold (mark_peers net num_nodes i (filter (fun p0 => is_kad p0 = true) (p :: peers))).
  by rewrite Hrun.
Qed.

Lemma read_row_returns i w matrix :
  i < num_nodes -> square num_nodes matrix ->
  exists w' matrix',
    read_row net num_nodes i (w, matrix) = (Return tt, (w', matrix'))
    /\ quiet w w' /\ marks_only num_nodes i matrix matrix'.
Proof.
  intros Hi Hsq.
  assert (Hq1 : quiet w (advance w)) by (by repeat split).
  assert (Hprint : forall l, exists w' matrix',
            lift_world (subscript num_nodes i ;;; print l) (advance w, matrix)
              = (Return tt, (w', matrix'))
            /\ quiet w w' /\ marks_only num_nodes i matrix matrix').
  { intros l. unfold lift_world, bind. rewrite subscript_in by done. cbn.
    eexists _, matrix. split; [done|].
    split; [by repeat split | by apply marks_only_refl]. }
  unfold read_row, try_except, bind at 1, lift_world at 1.
  rewrite subscript_in by done.
  unfold bind at 1, lift_world at 1, call.
  destruct (post_swarm_peers net (tick w) i) as [[[status text] json]|e].
  2: { apply Hprint. }
  destruct (status =? 200)%Z.
  2: { destruct (Hprint (FailedToGetPeers i text)) as (w' & m' & -> & H). eauto. }
  destruct json as [peers|e]; cbn -[filter].
  2: { apply Hprint. }
  destruct peers as [|p peers].
  { exists (advance w), matrix. split; [done|]. split; [done|].
    by apply marks_only_refl. }
  destruct (mark_peers_returns i (filter (fun p0 => is_kad p0 = true) (p :: peers))
              (advance w) matrix Hi Hsq) as (w' & m' & Hrun & Hq & Hm).
  unfold mark_peers in Hrun. rewrite Hrun.
  exists w', m'. split; [done|]. split; [by eapply quiet_trans | done].
Qed.

Lemma read_rows_return (rows : list nat) w matrix :
  (forall i, i ∈ rows -> i < num_nodes) ->
  square num_nodes matrix -> binary matrix ->
  exists w' matrix',
    for_each rows (read_row net num_nodes) (w, matrix) = (Return tt, (w', matrix'))
    /\ quiet w w' /\ square num_nodes matrix' /\ binary matrix'.
Proof.
  revert w matrix. induction rows as [|i rows IH]; intros w matrix His Hsq Hbin.
  - exists w, matrix. split; [done|]. split; [apply quiet_refl | done].
  - cbn [for_each]. unfold bind at 1.
    destruct (read_row_returns i w matrix) as (w1 & m1 & -> & Hq1 & Hm1);
      [apply His; by left | done |].
    destruct (IH w1 m1) as (w2 & m2 & -> & Hq2 & Hsq2 & Hbin2).
    + intros i' Hi'. apply His. by right.
    + apply Hm1.
    + by eapply marks_only_binary.
    + exists w2, m2. split; [done|]. split; [by eapply quiet_trans | done].
Qed.

Lemma read_connection_matrix_returns w :
  exists matrix w',
    read_connection_matrix net num_nodes w = (Return matrix, w')
    /\ quiet w w' /\ square num_nodes matrix /\ binary matrix.
Proof.
  unfold read_connection_matrix, bind at 1, lift_world at 1. cbn [print].
  set (w0 := mkWorld _ _ _ _ _).
  destruct (read_rows_return (range num_nodes) w0 (zero_matrix num_nodes))
    as (w' & m' & -> & Hq & Hsq & Hbin).
  - intros i [_ Hi]%elem_of_seq. lia.
  - apply zero_matrix_square.
  - apply zero_matrix_binary.
  - exists m', w'. split; [done|]. split; [|done].
    eapply quiet_trans; [|exact Hq]. by repeat split.
Qed.

End Verifier.

(** ** The top-level action *)

Section Main.

Variable net : Network.
Variable num_nodes : nat.

(** A constructor returns or raises a [ValueError]; either way it leaves
    the topology log as it was. *)
Lemma create_topology_cases kind w :
  exists r w', create_topology net num_nodes kind w = (r, w')
    /\ Topology.log_file w' = Topology.log_file w
    /\ (r = Return tt \/ exists msg, r = Raise (ValueError msg)).
Proof.
  destruct kind; unfold create_topology.
  - destruct (ring_run net num_nodes w) as (w' & -> & [_ Hl]). eauto 10.
  - destruct (decide (isqrt num_nodes * isqrt num_nodes = num_nodes)) as [Hsq|Hns].
    + destruct (grid_run net num_nodes _ w Hsq) as (w' & -> & [_ Hl]). eauto 10.
    + destruct (grid_rejects net num_nodes w) as (msg & w' & -> & [_ Hl]); [|eauto 10].
      intros size Hsq. apply Hns. unfold isqrt. subst num_nodes.
      by rewrite Nat.sqrt_square.
  - destruct (mesh_run net num_nodes w) as (w' & -> & [_ Hl]). eauto 10.
  - destruct (decide (1 <= 2 < Z.of_nat num_nodes)%Z) as [Hm|Hm].
    + destruct (barabasi_run net num_nodes 2 w Hm) as (w' & es & -> & [_ Hl] & _).
      eauto 10.
    + destruct (barabasi_rejects net num_nodes 2 w) as (msg & w' & -> & [_ Hl]);
        [lia | eauto 10].
Qed.

(** One run of the tool appends exactly one row to the topology log,
    however many connects it attempts; a fatal error is logged as [failed]
    and raised again. *)
Lemma main_logs_one_row topology matrix w :
  exists r w' row,
    main net num_nodes topology matrix w = (r, w')
    /\ Topology.log_file w' = (match topology with Some _ => [] | None => Topology.log_file w end) ++ [row]
    /\ row_num_nodes row = num_nodes
    /\ match r with
       | Return _ => row_status row = "completed" \/ row_status row = "error"
       | Raise e => row_status row = "failed" /\ row_details row = exn_details e
       end.
Proof.
  unfold main, bind at 1, init_manager.
  set (w0 := mkWorld _ _ _ _ _).
  assert (Hw0 : Topology.log_file w0 = match topology with Some _ => [] | None => Topology.log_file w end).
  { subst w0. by destruct topology. }
  clearbody w0. rewrite <- Hw0. clear Hw0 w.
  assert (Hread : forall w1, Topology.log_file w1 = Topology.log_file w0 -> forall action,
            exists r w' row,
              try_except
                (read_connection_matrix net num_nodes ;;;
                 log_execution num_nodes action "completed" "")
                (fun e => log_execution num_nodes "error" "failed" (exn_details e) ;;;
                          raise e) w1 = (r, w')
              /\ Topology.log_file w' = Topology.log_file w0 ++ [row]
              /\ row_num_nodes row = num_nodes
              /\ match r with
                 | Return _ => row_status row = "completed" \/ row_status row = "error"
                 | Raise e => row_status row = "failed" /\ row_details row = exn_details e
                 end).
  { intros w1 Hw1 action. unfold try_except, bind at 1.
    destruct (read_connection_matrix_returns net num_nodes w1)
      as (m & w2 & -> & (_ & Hl & _) & _).
    eexists _, _, _. split; [reflexivity|]. cbn.
    rewrite Hl, Hw1. split; [reflexivity|]. split; [reflexivity | by left]. }
  destruct matrix; [by apply Hread|].
  destruct topology as [kind|].
  - unfold try_except, bind at 1.
    destruct (create_topology_cases kind w0) as (r & w1 & -> & Hl & [->|[msg ->]]).
    + apply (Hread w1 Hl).
    + eexists _, _, _. split; [reflexivity|]. cbn.
      rewrite Hl. split; [reflexivity|]. by split.
  - eexists _, _, _. split; [reflexivity|]. cbn.
    split; [reflexivity|]. split; [reflexivity | by right].
Qed.

End Main.

(** ** The workload generator *)


Section Operations.

Variable rng : Randomness.
Variable num_nodes : nat.

Lemma same_files_refl s : same_files s s.
Proof. by repeat split. Qed.

Lemma same_files_trans s1 s2 s3 :
  same_files s1 s2 -> same_files s2 s3 -> same_files s1 s3.
Proof. intros (?&?&?&?) (?&?&?&?). repeat split; congruence. Qed.

Lemma randint_same a b s :
  exists r s', randint rng a b s = (r, s') /\ same_files s s'
    /\ (forall v, r = Return v -> (a <= v <= b)%Z)
    /\ ((a <= b)%Z -> exists v, r = Return v).
Proof.
  unfold randint. destruct (b <? a)%Z eqn:Hab.
  - eexists _, _. split; [done|]. split; [apply same_files_refl|].
    split; [by intros|]. apply Z.ltb_lt in Hab. lia.
  - eexists _, _. split; [done|]. split; [by repeat split|].
    split; [|by eauto].
    intros v [= <-]. apply Z.ltb_ge in Hab.
    pose proof (Z.mod_pos_bound (Z.of_nat (py_random rng (py_pos s))) (b - a + 1)).
    lia.
Qed.

Lemma np_random_exponential_same scale s :
  exists r s', np_random_exponential rng scale s = (r, s') /\ same_files s s'
    /\ (forall x, r = Return x -> (0 <= scale)%Q /\ (0 <= x)%Q)
    /\ ((0 <= scale)%Q -> exists x, r = Return x).
Proof.
  unfold np_random_exponential. destruct (Qle_bool 0 scale) eqn:Hs.
  - destruct (np_standard_exponential rng (np_pos s)) as [n d].
    eexists _, _. split; [done|]. split; [by repeat split|].
    split; [|by eauto].
    intros x [= <-]. apply Qle_bool_iff in Hs. split; [done|].
    apply Qmult_le_0_compat; [done|]. unfold Qle. cbn. lia.
  - eexists _, _. split; [done|]. split; [apply same_files_refl|].
    split; [by intros|]. intros Hle%Qle_bool_iff. congruence.
Qed.

Lemma generate_chunks_same fuel remaining s :
  exists n s', generate_chunks fuel remaining s = (Return n, s') /\ same_files s s'.
Proof.
  revert remaining s. induction fuel as [|fuel IH]; intros remaining s.
  - eexists _, _. split; [done | apply same_files_refl].
  - cbn [generate_chunks]. destruct (0 <? remaining)%Z.
    + unfold bind at 1, randbytes.
      set (s1 := mkSim _ _ _ _ _ _).
      unfold bind at 1.
      destruct (IH (remaining - Z.min chunk_size remaining)%Z s1)
        as (n & s2 & -> & Hs2).
      eexists _, _. split; [done|].
      eapply same_files_trans; [|exact Hs2]. by repeat split.
    + eexists _, _. split; [done | apply same_files_refl].
Qed.

Lemma subscript_node_range node_idx s :
  (0 <= node_idx <= Z.of_nat num_nodes - 1)%Z ->
  subscript_node num_nodes node_idx s = (Return (Z.to_nat node_idx), s)
  /\ Z.to_nat node_idx < num_nodes.
Proof.
  intros H. unfold subscript_node.
  assert ((0 <=? node_idx)%Z && (node_idx <? Z.of_nat num_nodes)%Z = true) as ->.
  { apply andb_true_iff. split; [apply Z.leb_le | apply Z.ltb_lt]; lia. }
  split; [done | lia].
Qed.

Lemma run_operation_begin_started mean_size max_size now s :
  exists r s', run_operation_begin rng num_nodes mean_size max_size now s = (r, s')
               /\ started num_nodes mean_size now s s' r.
Proof.
  unfold run_operation_begin, bind at 1, get_uploaded.
  unfold bind at 1.
  destruct (randint_same 0 (Z.of_nat (length (uploaded_files s)) + 1) s)
    as (rop & s1 & -> & Hs1 & Hop & Hopr).
  destruct Hopr as [op ->]; [lia|].
  specialize (Hop op eq_refl).
  unfold bind at 1.
  destruct (randint_same 0 (Z.of_nat num_nodes - 1) s1)
    as (rn & s2 & -> & Hs2 & Hn & Hnr).
  pose proof (same_files_trans _ _ _ Hs1 Hs2) as Hs12.
  destruct rn as [nd|e].
  2: { destruct Hs12 as (?&?&?&?). eexists _, _. split; [done|].
       repeat split; try done. left.
       destruct num_nodes; [done|]. destruct Hnr as [? [=]]. lia. }
  specialize (Hn nd eq_refl).
  destruct (is_upload_slot (uploaded_files s) op) eqn:Hslot.
  - unfold bind at 1.
    destruct (np_random_exponential_same (inject_Z mean_size) s2)
      as (rx & s3 & -> & Hs3 & _ & Hxr).
    pose proof (same_files_trans _ _ _ Hs12 Hs3) as Hs13.
    destruct rx as [x|e].
    2: { destruct Hs13 as (?&?&?&?). eexists _, _. split; [done|].
         repeat split; try done. right.
         destruct (Z.lt_ge_cases mean_size 0) as [?|Hge]; [done|].
         destruct Hxr as [? [=]]. unfold Qle. cbn. lia. }
    unfold upload_file_begin, bind at 1.
    destruct (subscript_node_range nd s3 Hn) as [-> Hnd].
    unfold bind at 1, generate_random_file.
    destruct (generate_chunks_same
                (Z.to_nat ((Z.min (Qfloor x) max_size + chunk_size - 1) / chunk_size))
                (Z.min (Qfloor x) max_size) s3) as (len & s4 & -> & Hs4).
    destruct (same_files_trans _ _ _ Hs13 Hs4) as (?&?&?&?).
    eexists _, _. split; [done|]. repeat split; cbn; congruence.
  - unfold is_upload_slot in Hslot. apply Z.leb_gt in Hslot.
    destruct (uploaded_files s !! Z.to_nat op) as [c|] eqn:Hc.
    2: { apply lookup_ge_None in Hc. lia. }
    unfold download_file_begin, bind at 1.
    destruct (subscript_node_range nd s2 Hn) as [-> Hnd].
    destruct Hs12 as (?&?&?&?).
    eexists _, _. split; [done|]. repeat split; cbn; try congruence.
    by eapply list_elem_of_lookup_2.
Qed.

End Operations.

(** ** Invariants of a run *)

Lemma run_operation_end_effect now task reply s :
  awaiting task = true ->
  exists r s', run_operation_end now task reply s = (r, s')
    /\ Simulator.log_file s' = Simulator.log_file s ++ option_list (completion_row now task reply)
    /\ uploaded_files s' = uploaded_files s ++ option_list (completion_cid task reply)
    /\ tasks s' = tasks s /\ requests s' = requests s
    /\ (is_Some (completion_row now task reply) <-> r = Return tt).
Proof.
  intros Haw. destruct task as [| n sz st | n c st | |]; try discriminate.
  - destruct reply as [c| |e]; [| |destruct e]; cbn;
      eexists _, _; (split; [reflexivity|]); cbn;
      rewrite ?app_nil_r; split_and!; try done;
      first [ by (split; [intros _ | intros _; eexists])
            | by (split; [intros [? [=]] | intros [=]]) ].
  - destruct reply as [c'| |e]; [| |destruct e]; cbn;
      eexists _, _; (split; [reflexivity|]); cbn;
      rewrite ?app_nil_r; split_and!; try done;
      first [ by (split; [intros _ | intros _; eexists])
            | by (split; [intros [? [=]] | intros [=]]) ].
Qed.

Lemma count_insert (f : Task -> bool) (l : list Task) i old new :
  l !! i = Some old ->
  count f (<[i := new]> l) + Nat.b2n (f old) = count f l + Nat.b2n (f new).
Proof.
  unfold count. revert i. induction l as [|t l IH]; intros i Hi; [done|].
  destruct i as [|i].
  - injection Hi as ->.
    change (<[0 := new]> (old :: l)) with (new :: l).
    cbn [List.filter]. destruct (f old), (f new); cbn; lia.
  - specialize (IH i Hi).
    change (<[S i := new]> (t :: l)) with (t :: <[i := new]> l).
    cbn [List.filter]. destruct (f t); cbn [length]; lia.
Qed.

Lemma downloads_follow_uploads_snoc rows r :
  downloads_follow_uploads rows ->
  (action r = download -> upload_logged (cid r) rows) ->
  downloads_follow_uploads (rows ++ [r]).
Proof.
  intros Hrows Hr pre r' post Heq Hd.
  destruct post as [|p post _] using rev_ind.
  - apply app_inj_tail in Heq as [<- <-]. by apply Hr.
  - rewrite app_comm_cons, app_assoc in Heq.
    apply app_inj_tail in Heq as [Heq _].
    by apply (Hrows pre r' post).
Qed.

Lemma upload_logged_app c rows more :
  upload_logged c rows -> upload_logged c (rows ++ more).
Proof.
  intros (r & Hr & H). exists r. split; [|done]. apply elem_of_app. by left.
Qed.

Section Run.

Variable rng : Randomness.
Variable num_nodes : nat.
Variables mean_size max_size : Z.

#[local] Abbreviation step := (Simulator.step rng num_nodes mean_size max_size).
#[local] Abbreviation gather := (Simulator.gather rng num_nodes mean_size max_size).

Lemma step_wake_invariant s0 s rows i now delay :
  tasks s !! i = Some (Sleeping delay) -> Qle_bool delay now = true ->
  run_invariant s0 s rows ->
  run_invariant s0 (step (Wake i now) s) rows.
Proof.
  intros Hi Hnow (Hlog & Hup & Hdl & Hdown & Hlen & Hrows & Hreq).
  unfold Simulator.step. rewrite Hi, Hnow.
  destruct (run_operation_begin_started rng num_nodes mean_size max_size now s)
    as (r & s' & -> & Hu & Hl & Ht & Hr).
  unfold finish, set_tasks, run_invariant. cbn [uploaded_files Simulator.log_file tasks requests].
  rewrite Hu, Hl, Ht.
  set (t' := match r with Return a => a | Raise e => Crashed e end).
  assert (Ht' : is_done t' = false /\ is_sleeping t' = false
                /\ requests s' <= S (requests s)
                /\ forall n c st, t' = Downloading n c st -> c ∈ uploaded_files s).
  { subst t'. destruct r as [[d|n sz st|n c st| |e]|e]; cbn in Hr |- *; try done.
    - destruct Hr as (_ & _ & ->). split_and!; [done|done|lia|by intros].
    - destruct Hr as (_ & _ & Hc & ->). split_and!; [done|done|lia|].
      by intros ? ? ? [= _ <- _].
    - destruct Hr as [-> _]. split_and!; [done|done|lia|by intros]. }
  destruct Ht' as (Hnd & Hns & Hrq & Hc).
  pose proof (count_insert is_done _ _ _ t' Hi) as Hcd.
  pose proof (count_insert is_sleeping _ _ _ t' Hi) as Hcs.
  rewrite Hnd in Hcd. rewrite Hns in Hcs. cbn in Hcd, Hcs.
  split_and!; try done.
  - intros i' n c st Hi'.
    destruct (decide (i = i')) as [<-|Hne].
    + rewrite list_lookup_insert_eq in Hi' by (by eapply lookup_lt_Some).
      injection Hi' as Hi'. by eapply Hc.
    + rewrite list_lookup_insert_ne in Hi' by done. by eapply Hdown.
  - by rewrite length_insert.
  - lia.
  - lia.
Qed.

(** A reply either does not fit its task, and nothing happens, or ends the
    operation of the task. *)
Lemma step_respond_cases s i now reply task :
  tasks s !! i = Some task -> awaiting task = true ->
  (step (Respond i now reply) s = s
   /\ reply = AnsweredNull /\ (exists n c st, task = Downloading n c st)
   /\ completion_row now task reply = None /\ completion_cid task reply = None)
  \/ (step (Respond i now reply) s
      = finish i (fun _ => Done) (run_operation_end now task reply s)
      /\ ~ (reply = AnsweredNull /\ exists n c st, task = Downloading n c st)).
Proof.
  intros Hi Haw. unfold Simulator.step. rewrite Hi.
  destruct task as [| n sz st | n c st | |]; try done.
  - right. split; [done|]. by intros (_ & ? & ? & ? & [=]).
  - destruct reply; [right | left | right].
    + split; [done|]. by intros [[=] _].
    + split_and!; eauto.
    + split; [done|]. by intros [[=] _].
Qed.

Lemma step_respond_invariant s0 s rows i now reply task :
  tasks s !! i = Some task -> awaiting task = true ->
  run_invariant s0 s rows ->
  run_invariant s0 (step (Respond i now reply) s)
                (rows ++ option_list (completion_row now task reply)).
Proof.
  intros Hi Haw Hinv.
  destruct (step_respond_cases s i now reply task Hi Haw)
    as [(-> & _ & _ & -> & _)|[Hstep _]]; [by rewrite app_nil_r|].
  destruct Hinv as (Hlog & Hup & Hdl & Hdown & Hlen & Hrows & Hreq).
  rewrite Hstep.
  destruct (run_operation_end_effect now task reply s Haw)
    as (r & s' & -> & Hl & Hu & Ht & Hq & Hr).
  unfold finish, set_tasks, run_invariant.
  cbn [uploaded_files Simulator.log_file tasks requests].
  rewrite Hl, Hu, Ht, Hq.
  set (t' := match r with Return _ => Done | Raise e => Crashed e end).
  assert (Ht' : is_sleeping t' = false
                /\ Nat.b2n (is_done t') = length (option_list (completion_row now task reply))).
  { subst t'. split; [by destruct r|].
    destruct (completion_row now task reply) as [row|] eqn:Hrow.
    - destruct Hr as [Hr _]. rewrite Hr; [done | by eexists].
    - destruct r as [[]|e]; [|done]. destruct Hr as [_ Hr].
      by destruct (Hr eq_refl). }
  destruct Ht' as (Hns & Hnd).
  pose proof (count_insert is_done _ _ _ t' Hi) as Hcd.
  pose proof (count_insert is_sleeping _ _ _ t' Hi) as Hcs.
  rewrite Hns in Hcs.
  assert (is_done task = false /\ is_sleeping task = false) as [Hd1 Hd2]
    by (by destruct task).
  rewrite Hd1 in Hcd. rewrite Hd2 in Hcs. cbn in Hcd, Hcs.
  split_and!.
  - by rewrite Hlog, app_assoc.
  - intros c [Hc|Hc]%elem_of_app.
    + by apply upload_logged_app, Hup.
    + destruct task as [| n sz st | n c0 st | |]; try done.
      * destruct reply as [c'| |e]; cbn in Hc; [|by apply elem_of_nil in Hc..].
        apply list_elem_of_singleton in Hc as ->.
        exists (mkRecord st n upload sz c' (now - st) true). split; [|done].
        apply elem_of_app. right. cbn. by left.
      * destruct reply; cbn in Hc; by apply elem_of_nil in Hc.
  - destruct (completion_row now task reply) as [row|] eqn:Hrow;
      [|by rewrite app_nil_r].
    apply downloads_follow_uploads_snoc; [done|].
    intros Hact. destruct task as [| n sz st | n c st | |]; try done.
    + destruct reply as [c'| |e]; [| |destruct e]; cbn in Hrow; by simplify_eq.
    + assert (cid row = c) as ->.
      { destruct reply as [c'| |e]; [| |destruct e]; cbn in Hrow; by simplify_eq. }
      by eapply Hup, Hdown.
  - intros i' n c st Hi'.
    destruct (decide (i = i')) as [<-|Hne].
    + rewrite list_lookup_insert_eq in Hi' by (by eapply lookup_lt_Some).
      subst t'. by destruct r.
    + rewrite list_lookup_insert_ne in Hi' by done.
      apply elem_of_app. left. by eapply Hdown.
  - by rewrite length_insert.
  - rewrite length_app. lia.
  - lia.
Qed.

(** Every step keeps the invariant, and only adds rows. *)
Lemma step_invariant s0 s rows ev :
  run_invariant s0 s rows ->
  exists more, run_invariant s0 (step ev s) (rows ++ more).
Proof.
  intros Hinv.
  assert (Hsame : step ev s = s -> exists more, run_invariant s0 (step ev s) (rows ++ more)).
  { intros ->. exists []. by rewrite app_nil_r. }
  destruct ev as [i now|i now reply].
  - destruct (tasks s !! i) as [[delay| | | |]|] eqn:Hi;
      try (apply Hsame; unfold Simulator.step; by rewrite Hi).
    destruct (Qle_bool delay now) eqn:Hnow.
    + exists []. rewrite app_nil_r. by eapply step_wake_invariant.
    + apply Hsame. unfold Simulator.step. by rewrite Hi, Hnow.
  - destruct (tasks s !! i) as [task|] eqn:Hi.
    2: { apply Hsame. unfold Simulator.step. by rewrite Hi. }
    destruct (awaiting task) eqn:Haw.
    + eexists. by eapply step_respond_invariant.
    + apply Hsame. unfold Simulator.step. rewrite Hi. by destruct task.
Qed.

Lemma gather_invariant schedule s0 s rows :
  run_invariant s0 s rows ->
  exists more, run_invariant s0 (final_state (gather schedule s)) (rows ++ more).
Proof.
  revert s rows. induction schedule as [|ev schedule IH]; intros s rows Hinv.
  - exists []. rewrite app_nil_r. cbn.
    destruct (first_crash (tasks s)); [done|]. by destruct (all_done (tasks s)).
  - cbn [Simulator.gather].
    destruct (first_crash (tasks s)); [exists []; by rewrite app_nil_r|].
    destruct (all_done (tasks s)); [exists []; by rewrite app_nil_r|].
    destruct (step_invariant s0 s rows ev Hinv) as (more1 & Hinv1).
    destruct (IH _ _ Hinv1) as (more2 & Hinv2).
    exists (more1 ++ more2). by rewrite app_assoc.
Qed.

Lemma gather_returned schedule s s' :
  gather schedule s = Returned s' -> all_done (tasks s') = true.
Proof.
  revert s. induction schedule as [|ev schedule IH]; intros s; cbn [Simulator.gather].
  - destruct (first_crash (tasks s)); [done|].
    destruct (all_done (tasks s)) eqn:Hd; [|done]. by intros [= <-].
  - destruct (first_crash (tasks s)); [done|].
    destruct (all_done (tasks s)) eqn:Hd; [by intros [= <-]|]. apply IH.
Qed.

End Run.

(** ** The schedule *)

Section Schedule.

Variable rng : Randomness.
Variable num_nodes : nat.

Lemma sample_nonneg mean_delay k :
  (0 <= mean_delay)%Q -> (0 <= sample rng mean_delay k)%Q.
Proof.
  intros H. unfold sample. destruct (np_standard_exponential rng k) as [n d].
  apply Qmult_le_0_compat; [done|]. unfold Qle. cbn. lia.
Qed.

Lemma create_tasks_returns mean_delay n delay s :
  (0 <= mean_delay)%Q ->
  exists offsets s',
    create_tasks rng mean_delay n delay s = (Return (Sleeping <$> offsets), s')
    /\ same_files s s' /\ length offsets = n
    /\ arrivals rng mean_delay (np_pos s) delay offsets.
Proof.
  intros Hm. revert delay s. induction n as [|n IH]; intros delay s.
  - exists [], s. split; [done|]. split; [apply same_files_refl | done].
  - cbn [create_tasks]. unfold bind at 1, np_random_exponential.
    apply Qle_bool_iff in Hm as Hmb. rewrite Hmb.
    destruct (np_standard_exponential rng (np_pos s)) as [k d] eqn:Hk.
    set (s1 := mkSim _ _ _ _ _ _).
    unfold bind at 1.
    destruct (IH (delay + mean_delay * (Z.of_N k # d))%Q s1)
      as (offsets & s2 & -> & Hs2 & Hlen & Harr).
    exists ((delay + mean_delay * (Z.of_N k # d))%Q :: offsets), s2.
    split; [done|]. split; [|split].
    + eapply same_files_trans; [|exact Hs2]. by repeat split.
    + cbn. by rewrite Hlen.
    + cbn. unfold sample at 1. rewrite Hk. done.
Qed.

Lemma create_tasks_negative mean_delay n delay s :
  ~ (0 <= mean_delay)%Q ->
  create_tasks rng mean_delay (S n) delay s = (Raise (ValueError "scale < 0"), s).
Proof.
  intros Hm. cbn [create_tasks]. unfold bind at 1, np_random_exponential.
  destruct (Qle_bool 0 mean_delay) eqn:Hb; [|done].
  by apply Qle_bool_iff in Hb.
Qed.

Lemma arrivals_ge mean_delay pos delay offsets d :
  (0 <= mean_delay)%Q -> arrivals rng mean_delay pos delay offsets ->
  d ∈ offsets -> (delay <= d)%Q.
Proof.
  intros Hm. revert pos delay. induction offsets as [|d0 rest IH]; intros pos delay Harr Hd.
  - by apply elem_of_nil in Hd.
  - destruct Harr as [Hd0 Harr].
    assert (delay <= d0)%Q.
    { rewrite Hd0. pose proof (sample_nonneg mean_delay pos Hm).
      rewrite <- (Qplus_0_r delay) at 1. by apply Qplus_le_r. }
    apply elem_of_cons in Hd as [->|Hd]; [done|].
    eapply Qle_trans; [done|]. by eapply IH.
Qed.

(** The start offsets never decrease. *)
Lemma arrivals_sorted mean_delay pos delay offsets i j d1 d2 :
  (0 <= mean_delay)%Q -> arrivals rng mean_delay pos delay offsets ->
  i <= j -> offsets !! i = Some d1 -> offsets !! j = Some d2 -> (d1 <= d2)%Q.
Proof.
  intros Hm. revert pos delay i j.
  induction offsets as [|d0 rest IH]; intros pos delay i j Harr Hij Hi Hj; [done|].
  destruct Harr as [Hd0 Harr].
  destruct i as [|i], j as [|j]; cbn in Hi, Hj; try lia.
  - injection Hi as ->. injection Hj as ->. apply Qle_refl.
  - injection Hi as ->. eapply arrivals_ge; [done|exact Harr|].
    by eapply list_elem_of_lookup_2.
  - eapply (IH _ _ i j); [done|lia|done|done].
Qed.

End Schedule.

(** ** A run that completes *)

Section Completion.

Variable rng : Randomness.
Variable num_nodes : nat.
Variables mean_size max_size : Z.

#[local] Abbreviation gather' := (Simulator.gather rng num_nodes mean_size max_size).

Lemma all_done_count ts : all_done ts = true -> count is_done ts = length ts.
Proof.
  unfold all_done, count. induction ts as [|t ts IH]; [done|].
  cbn. intros [Ht Hts]%andb_true_iff.
  destruct t; try done. cbn. by rewrite IH.
Qed.

Lemma first_crash_none ts :
  Forall (fun t => forall e, t <> Crashed e) ts -> first_crash ts = None.
Proof.
  unfold first_crash. induction 1 as [|t ts Ht _ IH]; [done|].
  cbn. destruct t; try done. by destruct (Ht e).
Qed.

Lemma all_done_false ts t :
  t ∈ ts -> is_done t = false -> all_done ts = false.
Proof.
  unfold all_done. intros Ht Hd. apply not_true_is_false.
  intros Hall. rewrite forallb_forall in Hall.
  apply list_elem_of_In in Ht. specialize (Hall t Ht).
  destruct t; done.
Qed.

Lemma queue_not_crashed k t rest :
  (forall e, t <> Crashed e) ->
  Forall (fun t => forall e, t <> Crashed e) (replicate k Done ++ t :: (Sleeping <$> rest)).
Proof.
  intros Ht. apply Forall_app. split; [by apply Forall_replicate|].
  constructor; [done|]. apply Forall_fmap, Forall_true. done.
Qed.

Lemma gather_cons ev schedule s :
  gather' (ev :: schedule) s
  = match first_crash (tasks s) with
    | Some e => Propagated e s
    | None =>
        if all_done (tasks s) then Returned s
        else gather' schedule (Simulator.step rng num_nodes mean_size max_size ev s)
    end.
Proof. done. Qed.

(** With at least one node and a non-negative mean size, the schedule
    [drain] brings every task to its end, and gather returns. *)
Lemma gather_drain rest k s :
  1 <= num_nodes -> (0 <= mean_size)%Z ->
  tasks s = replicate k Done ++ (Sleeping <$> rest) ->
  exists s', gather' (drain k rest) s = Returned s'.
Proof.
  intros HN Hms. revert k s. induction rest as [|d rest IH]; intros k s Hts.
  - exists s. cbn. rewrite Hts, app_nil_r.
    rewrite first_crash_none by (by apply Forall_replicate).
    assert (all_done (replicate k Done) = true) as ->; [|done].
    unfold all_done. apply forallb_forall.
    intros t Ht%list_elem_of_In%elem_of_replicate_inv. by subst.
  - cbn [drain]. rewrite fmap_cons in Hts.
    rewrite gather_cons, Hts.
    rewrite first_crash_none by (by apply queue_not_crashed).
    rewrite (all_done_false _ (Sleeping d)); [|apply elem_of_app; right; by left|done].
    assert (Hk : tasks s !! k = Some (Sleeping d)).
    { rewrite Hts. apply list_lookup_middle. by rewrite length_replicate. }
    unfold Simulator.step at 1. rewrite Hk.
    assert (Qle_bool d d = true) as -> by (apply Qle_bool_iff, Qle_refl).
    destruct (run_operation_begin_started rng num_nodes mean_size max_size d s)
      as (r & s1 & -> & Hu & Hl & Ht & Hr).
    destruct r as [t|e]; [|destruct Hr as [_ [?|?]]; lia].
    assert (Haw : awaiting t = true) by (by destruct t).
    unfold finish at 1.
    set (s2 := set_tasks _ s1).
    assert (Hts2 : tasks s2 = replicate k Done ++ t :: (Sleeping <$> rest)).
    { subst s2. cbn. rewrite Ht, Hts.
      replace k with (length (replicate k Done) + 0) at 1
        by (rewrite length_replicate; lia).
      by rewrite insert_app_r. }
    rewrite gather_cons, Hts2.
    rewrite first_crash_none by (apply queue_not_crashed; by destruct t).
    rewrite (all_done_false _ t); [|apply elem_of_app; right; by left|by destruct t].
    assert (Hk2 : tasks s2 !! k = Some t).
    { rewrite Hts2. apply list_lookup_middle. by rewrite length_replicate. }
    assert (Hstep : Simulator.step rng num_nodes mean_size max_size
                      (Respond k d (Failed TimeoutError)) s2
                    = finish k (fun _ => Done)
                        (run_operation_end d t (Failed TimeoutError) s2)).
    { unfold Simulator.step. rewrite Hk2. by destruct t. }
    rewrite Hstep.
    destruct (run_operation_end_effect d t (Failed TimeoutError) s2 Haw)
      as (r & s3 & -> & _ & _ & Ht3 & _ & Hr3).
    assert (r = Return tt) as ->.
    { apply Hr3. by destruct t. }
    apply (IH (S k)). unfold finish, set_tasks. cbn [tasks].
    rewrite replicate_S_end, <- app_assoc, Ht3, Hts2.
    rewrite insert_app_r_alt by (by rewrite length_replicate).
    by rewrite length_replicate, Nat.sub_diag.
Qed.

End Completion.

(** ** The sample worlds at work *)

Example healthy_ring :
  attempts (create_ring_topology healthy 3 initial_world).2 = [(0, 1); (1, 2); (2, 0)].
Proof. vm_compute. reflexivity. Qed.

Example healthy_matrix :
  (read_connection_matrix healthy 3 initial_world).1
  = Return [[0; 1; 0]; [0; 0; 1]; [1; 0; 0]]%Z.
Proof. vm_compute. reflexivity. Qed.

Example steady_run :
  Simulator.log_file
    (final_state (run_simulation steady 16 42 2 100 1000 (1 # 2)
       [Wake 0 1; Respond 0 3 (Answered "QmX"); Wake 1 4; Respond 1 5 (Answered "data")]
       new_simulator))
  = [mkRecord 1 0 upload 100 "QmX" (3 - 1) true;
     mkRecord 4 0 download 4 "QmX" (5 - 4) true].
Proof. vm_compute. reflexivity. Qed.

(** ** The verifier on a cluster whose answers do not change *)

Section StableCluster.

Variable net : Network.
Variable num_nodes : nat.
Variable ids : nat -> result string.
Variable peers : nat -> result (Z * string * result (list PeerSession)).
Hypothesis Hstable : stable net ids peers.

Lemma get_node_id_stable j w :
  j < num_nodes ->
  exists w', get_node_id net num_nodes j w = (Return (fetched (ids j)), w')
             /\ tick w' = S (tick w).
Proof.
  intros Hj%Nat.ltb_lt.
  unfold get_node_id, try_except, bind, subscript, call, print, ret, raise.
  rewrite ?Hj. cbn. rewrite (proj1 Hstable).
  destruct (ids j); cbn; rewrite ?Hj; cbn; eauto.
Qed.

Lemma fetch_ids_stable a n w :
  a + n <= num_nodes ->
  (fetch_ids net num_nodes (seq a n) w).1 = (fun j => fetched (ids j)) <$> seq a n
  /\ tick (fetch_ids net num_nodes (seq a n) w).2 = tick w + n.
Proof.
  revert a w. induction n as [|n IH]; intros a w Han; [cbn; split; [done|lia]|].
  cbn [seq fetch_ids].
  destruct (get_node_id_stable a w) as (w1 & -> & Ht1); [lia|].
  destruct (IH (S a) w1) as [Hids Ht]; [lia|].
  destruct (fetch_ids net num_nodes (seq (S a) n) w1) as [l w2]. cbn in *.
  split; [by rewrite Hids | lia].
Qed.

Lemma mark_peer_stable i pid w matrix :
  i < num_nodes -> square num_nodes matrix ->
  exists w' matrix',
    mark_peer net num_nodes i pid (range num_nodes) (w, matrix)
      = (Return tt, (w', matrix'))
    /\ tick w' = tick w + num_nodes
    /\ square num_nodes matrix'
    /\ forall i' j', entry matrix' i' j'
         = if bool_decide (i' = i /\ j' < num_nodes /\ fetched (ids j') = pid)
           then Some 1%Z else entry matrix i' j'.
Proof.
  intros Hi Hsq.
  destruct (mark_peer_returns net num_nodes i pid 0 num_nodes w matrix Hi ltac:(lia) Hsq)
    as (m' & Hrun & _ & Hsq' & Hm').
  destruct (fetch_ids_stable 0 num_nodes w ltac:(lia)) as [Hids Ht].
  eexists _, m'. split; [exact Hrun|]. split; [exact Ht|]. split; [done|].
  intros i' j'. rewrite Hm', Hids, Nat.sub_0_r, list_lookup_fmap.
  destruct (decide (j' < num_nodes)) as [Hj|Hj].
  - rewrite lookup_seq_lt by done. cbn.
    repeat case_bool_decide; naive_solver lia.
  - rewrite lookup_seq_ge by lia. cbn.
    repeat case_bool_decide; naive_solver lia.
Qed.

Lemma mark_peers_stable i sessions w matrix :
  i < num_nodes -> square num_nodes matrix ->
  exists w' matrix',
    mark_peers net num_nodes i sessions (w, matrix) = (Return tt, (w', matrix'))
    /\ tick w' = tick w + num_nodes * length sessions
    /\ square num_nodes matrix'
    /\ forall i' j', entry matrix' i' j'
         = if bool_decide (i' = i /\ j' < num_nodes)
              && existsb (fun p => bool_decide (fetched (ids j') = Peer p)) sessions
           then Some 1%Z else entry matrix i' j'.
Proof.
  intros Hi. revert w matrix.
  induction sessions as [|p sessions IH]; intros w matrix Hsq.
  - exists w, matrix. split; [done|]. split; [cbn; lia|]. split; [done|].
    intros i' j'. by rewrite andb_false_r.
  - unfold mark_peers. cbn [for_each]. unfold bind at 1.
    destruct (mark_peer_stable i (Peer p) w matrix Hi Hsq)
      as (w1 & m1 & -> & Ht1 & Hsq1 & Hm1).
    destruct (IH w1 m1 Hsq1) as (w2 & m2 & Hrun & Ht2 & Hsq2 & Hm2).
    exists w2, m2. split; [exact Hrun|]. split; [cbn [length]; lia|]. split; [done|].
    intros i' j'. rewrite Hm2, Hm1. cbn [existsb].
    destruct (existsb _ sessions); repeat case_bool_decide; cbn; naive_solver.
Qed.

Lemma read_row_stable i w matrix :
  i < num_nodes -> square num_nodes matrix ->
  exists w' matrix',
    read_row net num_nodes i (w, matrix) = (Return tt, (w', matrix'))
    /\ tick w' = tick w + 1 + num_nodes * length (kad_sessions (peers i))
    /\ square num_nodes matrix'
    /\ forall i' j', entry matrix' i' j'
         = if bool_decide (i' = i /\ j' < num_nodes) && reports ids peers i j'
           then Some 1%Z else entry matrix i' j'.
Proof.
  intros Hi Hsq.
  assert (Hnone : kad_sessions (peers i) = [] ->
            forall w', tick w' = S (tick w) ->
            exists w'' matrix',
              (Return tt, (w', matrix)) = (Return tt, (w'', matrix'))
              /\ tick w'' = tick w + 1 + num_nodes * length (kad_sessions (peers i))
              /\ square num_nodes matrix'
              /\ forall i' j', entry matrix' i' j'
                   = if bool_decide (i' = i /\ j' < num_nodes) && reports ids peers i j'
                     then Some 1%Z else entry matrix i' j').
  { intros Hk w' Hw'. exists w', matrix. split; [done|].
    unfold reports. rewrite Hk. cbn. split; [lia|]. split; [done|].
    intros i' j'. by rewrite andb_false_r. }
  destruct (peers i) as [[[status text] json]|e] eqn:Hp.
  2: { revert Hnone.
       unfold read_row, try_except, bind at 1, lift_world at 1.
       rewrite subscript_in by done.
       unfold bind at 1, lift_world at 1, call. rewrite (proj2 Hstable), Hp.
       unfold lift_world, bind. rewrite subscript_in by done. cbn.
       intros Hnone. by apply Hnone. }
  destruct (status =? 200)%Z eqn:Hst.
  2: { revert Hnone.
       unfold read_row, try_except, bind at 1, lift_world at 1.
       rewrite subscript_in by done.
       unfold bind at 1, lift_world at 1, call. rewrite (proj2 Hstable), Hp, Hst.
       unfold lift_world, bind. rewrite subscript_in by done. cbn. rewrite Hst.
       intros Hnone. apply Hnone; [by destruct json | done]. }
  destruct json as [sessions|e].
  2: { revert Hnone.
       unfold read_row, try_except, bind at 1, lift_world at 1.
       rewrite subscript_in by done.
       unfold bind at 1, lift_world at 1, call. rewrite (proj2 Hstable), Hp, Hst.
       unfold bind at 1, raise. cbv beta iota.
       unfold lift_world, bind. rewrite subscript_in by done. cbn.
       intros Hnone. by apply Hnone. }
  apply Z.eqb_eq in Hst as ->.
  rewrite (read_row_answered net num_nodes i w matrix text sessions Hi Hsq)
    by (by rewrite (proj2 Hstable)).
  destruct (mark_peers_stable i (filter (fun p => is_kad p = true) sessions)
              (advance w) matrix Hi Hsq) as (w' & m' & Hrun & Ht & Hsq' & Hm').
  exists w', m'. split; [exact Hrun|]. cbn [kad_sessions].
  rewrite Z.eqb_refl. split; [cbn in Ht; lia|]. split; [done|].
  intros i' j'. unfold reports. rewrite Hp. cbn [kad_sessions].
  rewrite Z.eqb_refl. apply Hm'.
Qed.

Lemma read_rows_stable a n w matrix :
  a + n <= num_nodes -> square num_nodes matrix ->
  exists w' matrix',
    for_each (seq a n) (read_row net num_nodes) (w, matrix) = (Return tt, (w', matrix'))
    /\ tick w' = tick w + n
                 + num_nodes * sum_list_with (fun i => length (kad_sessions (peers i))) (seq a n)
    /\ square num_nodes matrix'
    /\ forall i' j', entry matrix' i' j'
         = if bool_decide (a <= i' < a + n /\ j' < num_nodes) && reports ids peers i' j'
           then Some 1%Z else entry matrix i' j'.
Proof.
  revert a w matrix. induction n as [|n IH]; intros a w matrix Han Hsq.
  - exists w, matrix. split; [done|]. split; [cbn; lia|]. split; [done|].
    intros i' j'. rewrite bool_decide_eq_false_2; [done | lia].
  - cbn [seq for_each]. unfold bind at 1.
    destruct (read_row_stable a w matrix) as (w1 & m1 & -> & Ht1 & Hsq1 & Hm1); [lia|done|].
    destruct (IH (S a) w1 m1) as (w2 & m2 & -> & Ht2 & Hsq2 & Hm2); [lia|done|].
    exists w2, m2. split; [done|]. split; [cbn [sum_list_with]; lia|].
    split; [done|]. intros i' j'. rewrite Hm2, Hm1.
    destruct (reports ids peers i' j') eqn:Hr.
    + destruct (decide (i' = a)) as [->|Hne].
      * rewrite Hr. repeat case_bool_decide; cbn; naive_solver lia.
      * repeat case_bool_decide; cbn; naive_solver lia.
    + rewrite !andb_false_r. destruct (decide (i' = a)) as [->|Hne].
      * by rewrite Hr, andb_false_r.
      * rewrite bool_decide_eq_false_2; [done | naive_solver].
Qed.

Lemma read_connection_matrix_stable w :
  exists matrix w',
    read_connection_matrix net num_nodes w = (Return matrix, w')
    /\ tick w' = tick w + num_nodes
                 + num_nodes * sum_list_with (fun i => length (kad_sessions (peers i)))
                                               (range num_nodes)
    /\ square num_nodes matrix
    /\ forall i j, i < num_nodes -> j < num_nodes ->
         entry matrix i j = Some (if reports ids peers i j then 1 else 0)%Z.
Proof.
  unfold read_connection_matrix, bind at 1, lift_world at 1. cbn [print].
  set (w0 := mkWorld _ _ _ _ _).
  destruct (read_rows_stable 0 num_nodes w0 (zero_matrix num_nodes))
    as (w' & m' & Hrun & Ht & Hsq & Hm); [lia | apply zero_matrix_square |].
  unfold range. rewrite Hrun.
  exists m', w'. split; [done|]. split; [exact Ht|]. split; [done|].
  intros i j Hi Hj. rewrite Hm.
  rewrite bool_decide_eq_true_2 by lia. cbn [andb].
  destruct (reports ids peers i j); [done|].
  unfold entry, zero_matrix. rewrite lookup_replicate_2 by done. cbn.
  by rewrite lookup_replicate_2.
Qed.

End StableCluster.

Lemma square_ext n (m1 m2 : Matrix) :
  square n m1 -> square n m2 ->
  (forall i j, i < n -> j < n -> entry m1 i j = entry m2 i j) -> m1 = m2.
Proof.
  intros [Hl1 Hr1] [Hl2 Hr2] Heq. apply list_eq. intros i.
  destruct (decide (i < n)) as [Hi|Hi].
  2: { rewrite !lookup_ge_None_2; [done | lia | lia]. }
  destruct (lookup_lt_is_Some_2 m1 i ltac:(lia)) as [r1 Hi1].
  destruct (lookup_lt_is_Some_2 m2 i ltac:(lia)) as [r2 Hi2].
  rewrite Hi1, Hi2. f_equal. apply list_eq. intros j.
  pose proof (Forall_lookup_1 _ _ _ _ Hr1 Hi1) as Hlen1.
  pose proof (Forall_lookup_1 _ _ _ _ Hr2 Hi2) as Hlen2. cbn in Hlen1, Hlen2.
  destruct (decide (j < n)) as [Hj|Hj].
  2: { rewrite !lookup_ge_None_2; [done | lia | lia]. }
  specialize (Heq i j Hi Hj). unfold entry in Heq. by rewrite Hi1, Hi2 in Heq.
Qed.

(** ** The rows of a pass *)

Section Pass.

Variable net : Network.
Variable num_nodes : nat.

(** The rows of other nodes leave the row of node [i] as it is. *)
Lemma read_rows_keep (rows : list nat) i w matrix j :
  (forall i', i' ∈ rows -> i' < num_nodes /\ i' <> i) -> square num_nodes matrix ->
  entry (for_each rows (read_row net num_nodes) (w, matrix)).2.2 i j = entry matrix i j.
Proof.
  revert w matrix. induction rows as [|a rows IH]; intros w matrix Hrows Hsq; [done|].
  cbn [for_each]. unfold bind at 1.
  destruct (read_row_returns net num_nodes a w matrix) as (w1 & m1 & -> & _ & Hm1);
    [apply Hrows; by left | done |].
  rewrite IH.
  - destruct (proj2 Hm1 i j) as [->|[-> _]]; [done|].
    by destruct (proj2 (Hrows a ltac:(by left))).
  - intros i' Hi'. apply Hrows. by right.
  - apply Hm1.
Qed.

(** The pass returns the state reached after the rows of all nodes, and
    the row of node [i] in it is the one that [read_row] left when it was
    run after the rows of the nodes before [i]. *)
Lemma read_connection_matrix_rows w :
  exists matrix w',
    read_connection_matrix net num_nodes w = (Return matrix, w')
    /\ pass_state net num_nodes num_nodes w = (w', matrix)
    /\ forall i j, i < num_nodes ->
         entry matrix i j
         = entry (read_row net num_nodes i (pass_state net num_nodes i w)).2.2 i j.
Proof.
  unfold pass_state, read_connection_matrix, bind at 1, lift_world at 1, print.
  set (w0 := mkWorld _ _ _ _ _).
  destruct (read_rows_return net num_nodes (range num_nodes) w0 (zero_matrix num_nodes))
    as (w' & m' & Hrun & _ & _ & _).
  { intros i [_ Hi]%elem_of_seq. lia. }
  { apply zero_matrix_square. }
  { apply zero_matrix_binary. }
  rewrite Hrun. exists m', w'. split; [done|]. cbn [snd].
  split; [by rewrite Hrun|].
  intros i j Hi.
  assert (Hsplit : range num_nodes = range i ++ i :: seq (S i) (num_nodes - S i)).
  { unfold range. replace num_nodes with (i + S (num_nodes - S i)) at 1 by lia.
    by rewrite seq_app. }
  rewrite Hsplit, for_each_app in Hrun.
  destruct (read_rows_return net num_nodes (range i) w0 (zero_matrix num_nodes))
    as (wi & mi & Hi1 & _ & Hsqi & _).
  { intros i' [_ Hi']%elem_of_seq. lia. }
  { apply zero_matrix_square. }
  { apply zero_matrix_binary. }
  rewrite Hi1 in Hrun |- *. cbn [snd].
  cbn [for_each] in Hrun. unfold bind at 1 in Hrun.
  destruct (read_row_returns net num_nodes i wi mi Hi Hsqi) as (w1 & m1 & Hrow & _ & Hm1).
  rewrite Hrow in Hrun |- *. cbn [snd].
  pose proof (read_rows_keep (seq (S i) (num_nodes - S i)) i w1 m1 j) as Hkeep.
  rewrite Hrun in Hkeep. cbn [snd] in Hkeep. apply Hkeep; [|apply Hm1].
  intros i' [Hi' Hi'']%elem_of_seq. lia.
Qed.

End Pass.

(** * The claims *)

(** ** Ring *)

(** C4 (as amended). For every node count [N] the ring constructor returns
    after exactly [N] connect attempts, the [i]-th being
    [connect(i, (i+1) mod N)], whatever the cluster answers; when [N >= 2]
    no attempted edge is a self-loop. *)
Theorem ring_attempts (net : Network) (num_nodes : nat) (w : World) :
  exists w' es,
    create_ring_topology net num_nodes w = (Return tt, w')
    /\ attempted w w' es
    /\ length es = num_nodes
    /\ (forall i, i < num_nodes -> es !! i = Some (i, (i + 1) mod num_nodes))
    /\ (2 <= num_nodes -> forall s t, (s, t) ∈ es -> s <> t).
Proof.
  destruct (ring_run net num_nodes w) as (w' & Hrun & Hes).
  rewrite bind_singleton_fmap in Hes.
  exists w', ((fun i => (i, (i + 1) mod num_nodes)) <$> range num_nodes).
  split; [done|]. split; [done|].
  split; [unfold range; by rewrite length_fmap, length_seq|]. split.
  - intros i Hi. rewrite list_lookup_fmap. unfold range.
    by rewrite lookup_seq_lt.
  - intros HN s t (i & Heq & [_ Hi]%elem_of_seq)%list_elem_of_fmap.
    injection Heq as -> ->. cbn in Hi.
    destruct (decide (i + 1 = num_nodes)) as [Hlast|Hmid].
    + rewrite Hlast, Nat.Div0.mod_same. lia.
    + rewrite Nat.mod_small by lia. lia.
Qed.

(** The ring over the three healthy nodes. *)
Lemma ring_attempts_witness :
  exists w' es,
    create_ring_topology healthy 3 initial_world = (Return tt, w')
    /\ attempted initial_world w' es
    /\ length es = 3
    /\ forall s t, (s, t) ∈ es -> s <> t.
Proof.
  destruct (ring_attempts healthy 3 initial_world) as (w' & es & H1 & H2 & H3 & _ & H5).
  exists w', es. split; [exact H1|]. split; [exact H2|]. split; [exact H3|].
  apply H5. lia.
Defined.

(** C4 as stated fails for a single node: the only attempt of the ring
    over one node is [connect(0, 0)]. *)
Lemma ring_single_node_self_loop :
  1 <= 1 /\ attempts (create_ring_topology healthy 1 initial_world).2 = [(0, 0)].
Proof. split; [lia|]. vm_compute. reflexivity. Qed.

(** ** Grid *)

(** C6 (as amended). The grid constructor raises a [ValueError] without
    attempting any edge when the node count is not a perfect square. When it
    is [S * S], the constructor returns after attempting, once each, exactly
    the edges [(c, c+1)] for the cells [c = i*S + j] with [j < S-1] and
    [(c, c+S)] for those with [i < S-1]. So every cell outside the last row
    and the last column (the interior cells, and the cells of the top and
    left edges) attempts 2 edges, every other cell of the last row or of the
    last column attempts 1, and the bottom-right corner attempts none. *)
Theorem grid_attempts (net : Network) (num_nodes : nat) (w : World) :
  ((forall size, size * size <> num_nodes) ->
   exists msg w', create_grid_topology net num_nodes w = (Raise (ValueError msg), w')
                  /\ attempted w w' [])
  /\ (forall size, size * size = num_nodes ->
      exists w' es,
        create_grid_topology net num_nodes w = (Return tt, w')
        /\ attempted w w' es
        /\ NoDup es
        /\ (forall s t, (s, t) ∈ es <->
              exists i j, i < size /\ j < size /\ s = i * size + j
                          /\ (j < size - 1 /\ t = s + 1 \/ i < size - 1 /\ t = s + size))
        /\ (forall i j, i < size -> j < size ->
              out_degree (i * size + j) es
              = (if j <? size - 1 then 1 else 0) + (if i <? size - 1 then 1 else 0))
        /\ (forall i j, i < size - 1 -> j < size - 1 -> out_degree (i * size + j) es = 2)
        /\ (forall i j, i < size -> j < size -> interior_cell size i j = true ->
              out_degree (i * size + j) es = 2)
        /\ (forall j, j < size - 1 -> out_degree ((size - 1) * size + j) es = 1)
        /\ (forall i, i < size - 1 -> out_degree (i * size + (size - 1)) es = 1)
        /\ out_degree ((size - 1) * size + (size - 1)) es = 0).
Proof.
  split; [apply grid_rejects|].
  intros size Hsq.
  destruct (grid_run net num_nodes size w Hsq) as (w' & Hrun & Hes).
  eexists w', _. split; [exact Hrun|]. split; [exact Hes|].
  split; [apply grid_NoDup|]. split; [apply grid_elem_of|].
  assert (Hdeg : forall i j, i < size -> j < size ->
    out_degree (i * size + j)
      (range size ≫= fun i' => range size ≫= fun j' => cell_edges size i' j')
    = (if j <? size - 1 then 1 else 0) + (if i <? size - 1 then 1 else 0)).
  { intros i j Hi Hj. rewrite grid_out_degree by done.
    unfold cell_edges. rewrite length_app.
    by destruct (j <? size - 1), (i <? size - 1). }
  split; [exact Hdeg|]. split; [|split; [|split; [|split]]].
  - intros i j Hi Hj. rewrite Hdeg by lia.
    apply Nat.ltb_lt in Hi, Hj. by rewrite Hi, Hj.
  - intros i j Hi Hj Hint. rewrite Hdeg by lia.
    unfold interior_cell, boundary_cell in Hint.
    apply negb_true_iff in Hint.
    apply orb_false_iff in Hint as [Hint Hjl].
    apply orb_false_iff in Hint as [Hint _].
    apply orb_false_iff in Hint as [_ Hil].
    apply Nat.eqb_neq in Hjl, Hil.
    assert ((i <? size - 1) = true) as -> by (apply Nat.ltb_lt; lia).
    assert ((j <? size - 1) = true) as -> by (apply Nat.ltb_lt; lia).
    done.
  - intros j Hj. rewrite Hdeg by lia.
    rewrite Nat.ltb_irrefl. apply Nat.ltb_lt in Hj. by rewrite Hj.
  - intros i Hi. rewrite Hdeg by lia.
    rewrite Nat.ltb_irrefl. apply Nat.ltb_lt in Hi. by rewrite Hi.
  - destruct size as [|size]; [done|].
    rewrite Hdeg by lia. by rewrite Nat.ltb_irrefl.
Qed.

(** The grid over nine nodes, and the refusal of eight. *)
Lemma grid_attempts_witness :
  (exists msg w', create_grid_topology healthy 8 initial_world
                  = (Raise (ValueError msg), w'))
  /\ (exists w' es,
        create_grid_topology healthy 9 initial_world = (Return tt, w')
        /\ attempted initial_world w' es
        /\ out_degree 4 es = 2 /\ out_degree 7 es = 1 /\ out_degree 5 es = 1
        /\ out_degree 8 es = 0).
Proof.
  split.
  - destruct (grid_attempts healthy 8 initial_world) as [Hrej _].
    destruct Hrej as (msg & w' & Hrun & _).
    + intros size Hsq. assert (size < 3) by nia.
      destruct size as [|[|[|size]]]; cbn in Hsq; lia.
    + by exists msg, w'.
  - destruct (grid_attempts healthy 9 initial_world) as [_ Hacc].
    destruct (Hacc 3 eq_refl)
      as (w' & es & Hrun & Hes & _ & _ & _ & H2 & _ & Hrow & Hcol & Hc).
    exists w', es. split; [exact Hrun|]. split; [exact Hes|].
    split; [apply (H2 1 1); lia|]. split; [apply (Hrow 1); lia|].
    split; [apply (Hcol 1); lia | exact Hc].
Defined.

(** C6 as stated fails on the top and left edges: in the 3 x 3 grid the
    cell in row 0, column 1 is an edge cell, and node 1 attempts two
    connects, to node 2 and to node 4. *)
Lemma grid_top_edge_attempts_two :
  edge_cell 3 0 1 = true
  /\ filter (fun e => e.1 = 0 * 3 + 1)
       (attempts (create_grid_topology healthy 9 initial_world).2)
     = [(1, 2); (1, 4)]
  /\ out_degree (0 * 3 + 1) (attempts (create_grid_topology healthy 9 initial_world).2) = 2.
Proof.
  split; [reflexivity|]. split; vm_compute; reflexivity.
Qed.

(** ** Full mesh *)

(** C7. For every [N] the full-mesh constructor returns after exactly
    [N*(N-1)/2] connect attempts: [connect(i, j)] exactly once for every
    pair with [i < j < N], hence no self-loop and no pair attempted in both
    orders. *)
Theorem mesh_attempts (net : Network) (num_nodes : nat) (w : World) :
  exists w' es,
    create_fully_connected_topology net num_nodes w = (Return tt, w')
    /\ attempted w w' es
    /\ length es = num_nodes * (num_nodes - 1) / 2
    /\ NoDup es
    /\ (forall i j, (i, j) ∈ es <-> i < j /\ j < num_nodes)
    /\ (forall i, (i, i) ∉ es)
    /\ (forall i j, (i, j) ∈ es -> (j, i) ∉ es).
Proof.
  destruct (mesh_run net num_nodes w) as (w' & Hrun & Hes).
  eexists w', _. split; [exact Hrun|]. split; [exact Hes|].
  split; [apply mesh_length|]. split; [apply mesh_NoDup|].
  split; [apply mesh_elem_of|]. split.
  - intros i Hi%mesh_elem_of. lia.
  - intros i j Hij%mesh_elem_of Hji%mesh_elem_of. lia.
Qed.

(** The mesh over three nodes attempts (0,1), (0,2), (1,2). *)
Lemma mesh_attempts_witness :
  exists w' es,
    create_fully_connected_topology healthy 3 initial_world = (Return tt, w')
    /\ attempted initial_world w' es
    /\ length es = 3
    /\ (0, 2) ∈ es /\ (2, 0) ∉ es.
Proof.
  destruct (mesh_attempts healthy 3 initial_world)
    as (w' & es & Hrun & Hes & Hlen & _ & Hin & _ & Hsym).
  exists w', es. split; [exact Hrun|]. split; [exact Hes|].
  split; [exact Hlen|].
  assert (H02 : (0, 2) ∈ es) by (apply Hin; lia).
  split; [exact H02 | exact (Hsym 0 2 H02)].
Defined.

(** ** Preferential attachment *)

(** C2 (as amended). With [m < 1] or [m >= N] the constructor raises a
    [ValueError] and attempts nothing. With [1 <= m < N] it returns; every
    attempt goes from a new node [k] in [1..N-1] to a node of smaller index;
    node [k] attempts at least one and at most [m] connects. For each new
    node the targets are [min(m, len(connected))] independent draws from the
    connected set: all of them are members of that set, and they may
    repeat. *)
Theorem barabasi_attempts (net : Network) (num_nodes : nat) (m : Z) (w : World) :
  ((m < 1 \/ Z.of_nat num_nodes <= m)%Z ->
   exists msg w',
     create_barabasi_albert_topology net num_nodes m w = (Raise (ValueError msg), w')
     /\ attempted w w' [])
  /\ ((1 <= m < Z.of_nat num_nodes)%Z ->
      exists w' es,
        create_barabasi_albert_topology net num_nodes m w = (Return tt, w')
        /\ attempted w w' es
        /\ (forall s t, (s, t) ∈ es -> 1 <= s < num_nodes /\ t < s)
        /\ (forall k, out_degree k es <= Z.to_nat m)
        /\ (forall k, 1 <= k < num_nodes -> 1 <= out_degree k es))
  /\ (forall k connected,
        (1 <= m)%Z -> k < num_nodes -> connected <> [] ->
        (forall x, x ∈ connected -> x < k) ->
        exists selected connected' w',
          barabasi_step net num_nodes m k connected w = (Return connected', w')
          /\ attempted w w' ((fun t => (k, t)) <$> selected)
          /\ length selected = Nat.min (Z.to_nat m) (length connected)
          /\ (forall t, t ∈ selected -> t ∈ connected)).
Proof.
  split; [apply barabasi_rejects|]. split; [apply barabasi_run|].
  intros k connected Hm Hk Hne Hlt.
  destruct (barabasi_step_returns net num_nodes m k connected w Hm Hk Hne Hlt)
    as (sel & c' & w' & Hrun & Ha & Hlen & Hin & _).
  by exists sel, c', w'.
Qed.

(** Three healthy nodes with [m = 2], and the refusal of [m = 3]. *)
Lemma barabasi_attempts_witness :
  (exists msg w',
     create_barabasi_albert_topology healthy 3 3 initial_world
     = (Raise (ValueError msg), w'))
  /\ (exists w' es,
        create_barabasi_albert_topology healthy 3 2 initial_world = (Return tt, w')
        /\ attempted initial_world w' es
        /\ out_degree 2 es <= 2 /\ 1 <= out_degree 2 es)
  /\ (exists selected connected' w',
        barabasi_step healthy 3 2 2 [0; 1] initial_world = (Return connected', w')
        /\ length selected = 2
        /\ forall t, t ∈ selected -> t ∈ [0; 1]).
Proof.
  split; [|split].
  - destruct (barabasi_attempts healthy 3 3 initial_world) as (Hrej & _ & _).
    destruct Hrej as (msg & w' & Hrun & _); [lia|]. by exists msg, w'.
  - destruct (barabasi_attempts healthy 3 2 initial_world) as (_ & Hacc & _).
    destruct Hacc as (w' & es & Hrun & Hes & _ & Hdeg & Hpos); [lia|].
    exists w', es. split; [exact Hrun|]. split; [exact Hes|].
    split; [apply (Hdeg 2) | apply Hpos; lia].
  - destruct (barabasi_attempts healthy 3 2 initial_world) as (_ & _ & Hstep).
    destruct (Hstep 2 [0; 1]) as (sel & c' & w' & Hrun & _ & Hlen & Hin);
      [lia|lia|done| |].
    + intros x Hx. apply elem_of_cons in Hx as [->|Hx]; [lia|].
      apply list_elem_of_singleton in Hx as ->. lia.
    + exists sel, c', w'. split; [exact Hrun|]. split; [exact Hlen | exact Hin].
Defined.

(** C2 as stated fails: with three healthy nodes and [m = 2], node 2 draws
    its two targets from the connected set [{0, 1}] and attempts node 0
    twice, so its targets are not pairwise distinct. *)
Lemma barabasi_repeats_a_target :
  attempts (create_barabasi_albert_topology healthy 3 2 initial_world).2
  = [(1, 0); (2, 0); (2, 0)]
  /\ ~ NoDup (filter (fun e => e.1 = 2)
                (attempts (create_barabasi_albert_topology healthy 3 2 initial_world).2)).
Proof.
  assert (Hrun : attempts (create_barabasi_albert_topology healthy 3 2 initial_world).2
                 = [(1, 0); (2, 0); (2, 0)]) by (vm_compute; reflexivity).
  split; [exact Hrun|]. rewrite Hrun.
  intros Hnd. apply NoDup_cons in Hnd as [Hnotin _].
  apply Hnotin. by left.
Qed.

(** ** Verifier *)

(** C10. A verification pass never raises and returns an [N x N] matrix
    whose entries are 0 or 1, whatever the nodes answer. Processing one
    surviving session of node [i] fetches the identity of every node
    [0..N-1] and sets [matrix[i][j] = 1] for every [j] whose fetched
    identity equals the session's peer identity (all of them, not only the
    first), leaving every other entry as it was; in particular a session
    that matches no node changes nothing. What a session marks is still
    marked when the row of node [i] is finished, and the row of node [i]
    changes no other row. The pass runs the row of every node [0..N-1] in
    turn on one matrix that starts as zeros, and row [i] of the matrix it
    returns is row [i] as the row of node [i] left it; so on a cluster
    whose answers do not change, the returned [matrix[i][j]] is 1 exactly
    when node [i] reports a surviving session whose peer identity is the
    fetched identity of node [j], and 0 otherwise. *)
Theorem verifier_marks_all_matches (net : Network) (num_nodes : nat) :
  (forall w, exists matrix w',
      read_connection_matrix net num_nodes w = (Return matrix, w')
      /\ square num_nodes matrix /\ binary matrix
      /\ pass_state net num_nodes num_nodes w = (w', matrix)
      /\ (forall i j, i < num_nodes ->
            entry matrix i j
            = entry (read_row net num_nodes i (pass_state net num_nodes i w)).2.2 i j))
  /\ (forall ids peers w,
        stable net ids peers ->
        exists matrix w',
          read_connection_matrix net num_nodes w = (Return matrix, w')
          /\ forall i j, i < num_nodes -> j < num_nodes ->
               entry matrix i j = Some (if reports ids peers i j then 1 else 0)%Z)
  /\ (forall i pid w matrix,
        i < num_nodes -> square num_nodes matrix ->
        exists matrix',
          mark_peer net num_nodes i pid (range num_nodes) (w, matrix)
          = (Return tt, ((fetch_ids net num_nodes (range num_nodes) w).2, matrix'))
          /\ square num_nodes matrix'
          /\ (forall i' j', entry matrix' i' j'
                = if bool_decide
                       (i' = i /\ (fetch_ids net num_nodes (range num_nodes) w).1 !! j'
                                  = Some pid)
                  then Some 1%Z else entry matrix i' j')
          /\ ((forall j', (fetch_ids net num_nodes (range num_nodes) w).1 !! j' <> Some pid) ->
              forall i' j', entry matrix' i' j' = entry matrix i' j'))
  /\ (forall i w matrix text peers before p after j,
        i < num_nodes -> square num_nodes matrix ->
        post_swarm_peers net (tick w) i = Return (200%Z, text, Return peers) ->
        filter (fun q => is_kad q = true) peers = before ++ p :: after ->
        (fetch_ids net num_nodes (range num_nodes)
           (mark_peers net num_nodes i before (advance w, matrix)).2.1).1 !! j
          = Some (Peer p) ->
        entry (read_row net num_nodes i (w, matrix)).2.2 i j = Some 1%Z)
  /\ (forall i w matrix,
        i < num_nodes -> square num_nodes matrix ->
        marks_only num_nodes i matrix (read_row net num_nodes i (w, matrix)).2.2).
Proof.
  split; [|split; [|split; [|split]]].
  - intros w.
    destruct (read_connection_matrix_returns net num_nodes w)
      as (matrix & w' & Hrun & _ & Hsq & Hbin).
    destruct (read_connection_matrix_rows net num_nodes w)
      as (matrix2 & w2 & Hrun2 & Hpass & Hrows).
    rewrite Hrun in Hrun2. injection Hrun2 as <- <-.
    by exists matrix, w'.
  - intros ids peers w Hstable.
    destruct (read_connection_matrix_stable net num_nodes ids peers Hstable w)
      as (matrix & w' & Hrun & _ & _ & Hm).
    by exists matrix, w'.
  - intros i pid w matrix Hi Hsq.
    destruct (mark_peer_returns net num_nodes i pid 0 num_nodes w matrix Hi
                ltac:(lia) Hsq) as (m' & Hrun & _ & Hsq' & Hm').
    exists m'. split; [exact Hrun|]. split; [done|].
    assert (Hform : forall i' j', entry m' i' j'
              = if bool_decide
                     (i' = i /\ (fetch_ids net num_nodes (range num_nodes) w).1 !! j'
                                = Some pid)
                then Some 1%Z else entry matrix i' j').
    { intros i' j'. rewrite Hm', Nat.sub_0_r. unfold range.
      repeat case_bool_decide; naive_solver lia. }
    split; [exact Hform|].
    intros Hnone i' j'. rewrite Hform, bool_decide_eq_false_2; [done|].
    intros [_ Hj]. by apply (Hnone j').
  - intros i w matrix text peers before p after j Hi Hsq Hreply Hkad Hmatch.
    rewrite (read_row_answered net num_nodes i w matrix text peers Hi Hsq Hreply), Hkad.
    by apply mark_peers_marks.
  - intros i w matrix Hi Hsq.
    destruct (read_row_returns net num_nodes i w matrix Hi Hsq)
      as (w' & m' & -> & _ & Hm).
    exact Hm.
Qed.

(** The pass over the three healthy nodes, and the session of node 0 with
    its successor. *)
Lemma verifier_marks_all_matches_witness :
  (exists matrix w',
      read_connection_matrix healthy 3 initial_world = (Return matrix, w')
      /\ square 3 matrix /\ binary matrix
      /\ entry matrix 0 1 = Some 1%Z /\ entry matrix 1 2 = Some 1%Z
      /\ entry matrix 2 0 = Some 1%Z /\ entry matrix 0 2 = Some 0%Z)
  /\ (exists matrix',
        (mark_peer healthy 3 0 (Some "QmB") (range 3) (initial_world, zero_matrix 3)).1
        = Return tt
        /\ (mark_peer healthy 3 0 (Some "QmB") (range 3) (initial_world, zero_matrix 3)).2.2
           = matrix'
        /\ entry matrix' 0 1 = Some 1%Z /\ entry matrix' 0 2 = Some 0%Z)
  /\ entry (read_row healthy 3 0 (initial_world, zero_matrix 3)).2.2 0 1 = Some 1%Z.
Proof.
  split; [|split].
  - destruct (proj1 (verifier_marks_all_matches healthy 3) initial_world)
      as (matrix & w' & Hrun & Hsq & Hbin & _).
    destruct (proj1 (proj2 (verifier_marks_all_matches healthy 3))
                (post_id healthy 0) (post_swarm_peers healthy 0) initial_world)
      as (matrix2 & w2 & Hrun2 & Hm); [split; reflexivity|].
    rewrite Hrun in Hrun2. injection Hrun2 as <- <-.
    exists matrix, w'. split; [exact Hrun|]. split; [exact Hsq|]. split; [exact Hbin|].
    split; [|split; [|split]]; rewrite Hm by lia; reflexivity.
  - destruct (proj1 (proj2 (proj2 (verifier_marks_all_matches healthy 3)))
                0 (Some "QmB") initial_world (zero_matrix 3) ltac:(lia)
                (zero_matrix_square 3)) as (m' & Hrun & _ & Hm' & _).
    exists m'. rewrite Hrun. split; [reflexivity|]. split; [reflexivity|].
    split; rewrite Hm'; reflexivity.
  - apply (proj1 (proj2 (proj2 (proj2 (verifier_marks_all_matches healthy 3))))
             0 initial_world (zero_matrix 3) ""
             [mkPeer (Some "QmB") [Some "/ipfs/lan/kad/1.0.0"];
              mkPeer (Some "QmC") [Some "/ipfs/bitswap/1.2.0"]]
             [] (mkPeer (Some "QmB") [Some "/ipfs/lan/kad/1.0.0"]) [] 1);
      [lia | apply zero_matrix_square | reflexivity | reflexivity | reflexivity].
Defined.

(** ** Runs of the workload generator *)

Section RunShape.

Variable rng : Randomness.
Variable num_nodes : nat.
Variables mean_size max_size : Z.

Lemma count_le f ts : count f ts <= length ts.
Proof. unfold count. apply List.filter_length_le. Qed.

Lemma count_sleeping_none offsets : count is_done (Sleeping <$> offsets) = 0.
Proof. unfold count. by induction offsets. Qed.

Lemma run_start_invariant offsets s1 :
  uploaded_files s1 = [] ->
  run_invariant (set_tasks (Sleeping <$> offsets) s1)
                (set_tasks (Sleeping <$> offsets) s1) [].
Proof.
  intros Hup. unfold run_invariant, set_tasks.
  cbn [Simulator.log_file uploaded_files tasks requests]. split_and!.
  - by rewrite app_nil_r.
  - rewrite Hup. by intros c ?%elem_of_nil.
  - intros pre r post Heq. by destruct pre.
  - intros i n c st Hi. rewrite list_lookup_fmap in Hi.
    by destruct (offsets !! i).
  - done.
  - by rewrite count_sleeping_none.
  - pose proof (count_le is_sleeping (Sleeping <$> offsets)). lia.
Qed.

Lemma create_tasks_cases mean_delay n s :
  (exists offsets s1,
      create_tasks rng mean_delay n 0 s = (Return (Sleeping <$> offsets), s1)
      /\ same_files s s1 /\ length offsets = n)
  \/ (exists e, create_tasks rng mean_delay n 0 s = (Raise e, s)
                /\ ~ (0 <= mean_delay)%Q).
Proof.
  destruct (Qlt_le_dec mean_delay 0) as [Hneg|Hpos].
  - destruct n as [|n].
    + left. exists [], s. split; [done|]. split; [apply same_files_refl | done].
    + right. eexists. split; [apply create_tasks_negative|]; by apply Qlt_not_le.
  - left. destruct (create_tasks_returns rng mean_delay n 0 s Hpos)
      as (offsets & s1 & Hrun & Hs & Hlen & _).
    by exists offsets, s1.
Qed.

(** What every run leaves behind, however it ends. *)
Lemma run_seeded_shape num_operations mean_delay schedule s :
  exists rows,
    let s' := final_state (run_seeded rng num_nodes num_operations mean_size
                                      max_size mean_delay schedule s) in
    Simulator.log_file s' = Simulator.log_file s ++ rows
    /\ (forall c, c ∈ uploaded_files s' -> upload_logged c rows)
    /\ downloads_follow_uploads rows
    /\ (forall i n c st, tasks s' !! i = Some (Downloading n c st) -> c ∈ uploaded_files s')
    /\ length rows = count is_done (tasks s')
    /\ length (tasks s') <= num_operations
    /\ requests s' <= requests s + num_operations
    /\ ((0 <= mean_delay)%Q -> length (tasks s') = num_operations).
Proof.
  unfold run_seeded.
  destruct (create_tasks_cases mean_delay num_operations (reseed s))
    as [(offsets & s1 & -> & (Hu & Hl & Ht & Hq) & Hlen)|(e & -> & Hneg)].
  - destruct (gather_invariant rng num_nodes mean_size max_size schedule _ _ _
                (run_start_invariant offsets s1 Hu))
      as (rows & Hlog & Hup & Hdl & Hdown & Hlen' & Hrows & Hreq).
    exists rows. cbn zeta. cbn [set_tasks Simulator.log_file tasks requests] in *.
    rewrite length_fmap, Hlen in *. rewrite Hl, Hq in *. cbn in Hlog, Hreq.
    split_and!; try done; lia.
  - exists []. cbn. rewrite app_nil_r. split_and!; try done; try lia.
    + by intros c ?%elem_of_nil.
    + intros pre r post Heq. by destruct pre.
Qed.

End RunShape.

(** *** Seeds *)

Lemma numpy_seed_range seed : numpy_seed seed = true <-> (0 <= seed < 2 ^ 32)%Z.
Proof.
  unfold numpy_seed. rewrite andb_true_iff, !Z.leb_le.
  change (2 ^ 32)%Z with 4294967296%Z. lia.
Qed.

Lemma run_simulation_seeded (seeded : Z -> Randomness) num_nodes seed num_operations
    mean_size max_size mean_delay schedule s :
  (0 <= seed < 2 ^ 32)%Z ->
  run_simulation seeded num_nodes seed num_operations mean_size max_size
                 mean_delay schedule s
  = run_seeded (seeded seed) num_nodes num_operations mean_size max_size
               mean_delay schedule s.
Proof. intros Hs%numpy_seed_range. unfold run_simulation. by rewrite Hs. Qed.

Lemma run_simulation_rejected (seeded : Z -> Randomness) num_nodes seed num_operations
    mean_size max_size mean_delay schedule s :
  ~ (0 <= seed < 2 ^ 32)%Z ->
  run_simulation seeded num_nodes seed num_operations mean_size max_size
                 mean_delay schedule s
  = Propagated (ValueError "Seed must be between 0 and 2**32 - 1") (seed_rejected s).
Proof.
  intros Hs. unfold run_simulation.
  destruct (numpy_seed seed) eqn:Hb; [|done]. by apply numpy_seed_range in Hb.
Qed.

(** A run is the seeded run, or the refusal of its seed. *)
Lemma run_simulation_cases (seeded : Z -> Randomness) num_nodes seed num_operations
    mean_size max_size mean_delay schedule s :
  ((0 <= seed < 2 ^ 32)%Z
   /\ run_simulation seeded num_nodes seed num_operations mean_size max_size
                     mean_delay schedule s
      = run_seeded (seeded seed) num_nodes num_operations mean_size max_size
                   mean_delay schedule s)
  \/ (~ (0 <= seed < 2 ^ 32)%Z
      /\ run_simulation seeded num_nodes seed num_operations mean_size max_size
                        mean_delay schedule s
         = Propagated (ValueError "Seed must be between 0 and 2**32 - 1")
                      (seed_rejected s)).
Proof.
  destruct (decide (0 <= seed < 2 ^ 32)%Z) as [Hs|Hs].
  - left. split; [done | by apply run_simulation_seeded].
  - right. split; [done | by apply run_simulation_rejected].
Qed.

(** What every run leaves behind, whatever its seed and however it ends. *)
Lemma run_simulation_shape (seeded : Z -> Randomness) num_nodes seed num_operations
    mean_size max_size mean_delay schedule s :
  exists rows,
    let s' := final_state (run_simulation seeded num_nodes seed num_operations
                             mean_size max_size mean_delay schedule s) in
    Simulator.log_file s' = Simulator.log_file s ++ rows
    /\ (forall c, c ∈ uploaded_files s' -> upload_logged c rows)
    /\ downloads_follow_uploads rows
    /\ (forall i n c st, tasks s' !! i = Some (Downloading n c st) -> c ∈ uploaded_files s')
    /\ length rows = count is_done (tasks s')
    /\ length (tasks s') <= num_operations
    /\ requests s' <= requests s + num_operations.
Proof.
  destruct (run_simulation_cases seeded num_nodes seed num_operations mean_size
              max_size mean_delay schedule s) as [[_ ->]|[_ ->]].
  - destruct (run_seeded_shape (seeded seed) num_nodes mean_size max_size
                num_operations mean_delay schedule s)
      as (rows & Hlog & Hup & Hdl & Hdown & Hrows & Hlen & Hreq & _).
    by exists rows.
  - exists []. cbn. rewrite app_nil_r. split_and!; try done; try lia.
    + by intros c ?%elem_of_nil.
    + intros pre r post Heq. by destruct pre.
Qed.

(** *** Leaving on an exception *)

Lemma first_crash_insert ts i t e :
  first_crash ts = None -> ts !! i = Some t ->
  first_crash (<[i := Crashed e]> ts) = Some e.
Proof.
  unfold first_crash. revert i. induction ts as [|x ts IH]; intros i Hnone Hi; [done|].
  destruct i as [|i].
  - done.
  - change (<[S i := Crashed e]> (x :: ts)) with (x :: <[i := Crashed e]> ts).
    cbn in Hnone |- *. destruct x; try done; by apply IH.
Qed.

Lemma gather_crashed (rng : Randomness) num_nodes mean_size max_size schedule s e :
  first_crash (tasks s) = Some e ->
  gather rng num_nodes mean_size max_size schedule s = Propagated e s.
Proof. intros He. destruct schedule; cbn; by rewrite He. Qed.

(** A request that fails otherwise than by timeout ends its task with the
    exception, and the run with it, whatever else is scheduled. *)
Lemma gather_leaves_on_failure (rng : Randomness) num_nodes mean_size max_size
    rest st i now task e :
  first_crash (tasks st) = None -> tasks st !! i = Some task ->
  awaiting task = true -> e <> TimeoutError ->
  gather rng num_nodes mean_size max_size (Respond i now (Failed e) :: rest) st
  = Propagated e (set_tasks (<[i := Crashed e]> (tasks st)) st).
Proof.
  intros Hnone Hi Haw Hne.
  rewrite gather_cons, Hnone.
  rewrite (all_done_false (tasks st) task);
    [|by eapply list_elem_of_lookup_2 | by destruct task].
  assert (Hstep : Simulator.step rng num_nodes mean_size max_size
                    (Respond i now (Failed e)) st
                  = set_tasks (<[i := Crashed e]> (tasks st)) st).
  { unfold Simulator.step. rewrite Hi.
    destruct task as [| n sz t0 | n c t0 | |]; try done; destruct e; done. }
  rewrite Hstep. apply gather_crashed. cbn. by eapply first_crash_insert.
Qed.

(** C5 (as amended). For a seed that numpy accepts: for [K = 0] the run
    returns at once and writes no row; with a non-negative mean delay the
    scheduler draws [K] non-negative samples, accumulates them into [K]
    start offsets that never decrease, and creates exactly one sleeping task
    per offset. A timer that fires before the offset of its task leaves the
    task asleep. Every task runs at most one operation: at most [K]
    requests are sent and at most [K] rows written. The run returns
    normally only when all [K] tasks are done, with exactly [K] new rows;
    and (with at least one node and a non-negative mean size) the schedule
    in which each request times out does make it return. Control can leave
    earlier, on an exception: a request that fails otherwise than by
    timeout ends the run at once, whatever tasks are still asleep or in
    flight, and a seed outside [0 .. 2**32 - 1] raises a [ValueError]
    before any task is created. *)
Theorem run_simulation_schedule (seeded : Z -> Randomness) (num_nodes : nat)
    (seed : Z) (num_operations : nat) (mean_size max_size : Z) (mean_delay : Q)
    (s : Sim) :
  ((0 <= seed < 2 ^ 32)%Z -> num_operations = 0 ->
   forall schedule,
     run_simulation seeded num_nodes seed num_operations mean_size max_size
                    mean_delay schedule s = Returned (reseed s)
     /\ Simulator.log_file (reseed s) = Simulator.log_file s
     /\ requests (reseed s) = requests s)
  /\ ((0 <= seed < 2 ^ 32)%Z -> (0 <= mean_delay)%Q ->
      exists offsets s0,
        create_tasks (seeded seed) mean_delay num_operations 0 (reseed s)
        = (Return (Sleeping <$> offsets), s0)
        /\ length offsets = num_operations
        /\ arrivals (seeded seed) mean_delay 0 0 offsets
        /\ (forall k, 0 <= sample (seeded seed) mean_delay k)%Q
        /\ (forall i j d1 d2, i <= j -> offsets !! i = Some d1 ->
                              offsets !! j = Some d2 -> (d1 <= d2)%Q)
        /\ (forall schedule s',
              run_simulation seeded num_nodes seed num_operations mean_size max_size
                             mean_delay schedule s = Returned s' ->
              length (tasks s') = num_operations
              /\ all_done (tasks s') = true
              /\ exists rows, Simulator.log_file s' = Simulator.log_file s ++ rows
                              /\ length rows = num_operations)
        /\ (forall schedule,
              exists rows,
                Simulator.log_file
                  (final_state (run_simulation seeded num_nodes seed num_operations
                                  mean_size max_size mean_delay schedule s))
                = Simulator.log_file s ++ rows
                /\ length rows <= num_operations
                /\ requests
                     (final_state (run_simulation seeded num_nodes seed num_operations
                                     mean_size max_size mean_delay schedule s))
                   <= requests s + num_operations)
        /\ (1 <= num_nodes -> (0 <= mean_size)%Z ->
            exists s',
              run_simulation seeded num_nodes seed num_operations mean_size max_size
                             mean_delay (drain 0 offsets) s = Returned s'))
  /\ (forall st i d now,
        tasks st !! i = Some (Sleeping d) -> ~ (d <= now)%Q ->
        Simulator.step (seeded seed) num_nodes mean_size max_size (Wake i now) st = st)
  /\ (forall rest st i now task e,
        first_crash (tasks st) = None -> tasks st !! i = Some task ->
        awaiting task = true -> e <> TimeoutError ->
        gather (seeded seed) num_nodes mean_size max_size
               (Respond i now (Failed e) :: rest) st
        = Propagated e (set_tasks (<[i := Crashed e]> (tasks st)) st))
  /\ (~ (0 <= seed < 2 ^ 32)%Z ->
      forall schedule,
        run_simulation seeded num_nodes seed num_operations mean_size max_size
                       mean_delay schedule s
        = Propagated (ValueError "Seed must be between 0 and 2**32 - 1")
                     (seed_rejected s)
        /\ tasks (seed_rejected s) = []
        /\ Simulator.log_file (seed_rejected s) = Simulator.log_file s).
Proof.
  split; [|split; [|split; [|split]]].
  - intros Hseed -> schedule. rewrite run_simulation_seeded by done.
    split; [|done]. by destruct schedule.
  - intros Hseed Hm.
    destruct (create_tasks_returns (seeded seed) mean_delay num_operations 0
                (reseed s) Hm) as (offsets & s0 & Hrun & Hs0 & Hlen & Harr).
    exists offsets, s0. split; [exact Hrun|]. split; [exact Hlen|].
    split; [exact Harr|]. split; [intros k; by apply sample_nonneg|].
    split; [intros i j d1 d2; by eapply arrivals_sorted|].
    split; [|split].
    + intros schedule s' Hret. rewrite run_simulation_seeded in Hret by done.
      destruct (run_seeded_shape (seeded seed) num_nodes mean_size max_size
                  num_operations mean_delay schedule s)
        as (rows & Hshape).
      rewrite Hret in Hshape. cbn in Hshape.
      destruct Hshape as (Hlog & _ & _ & _ & Hrows & _ & _ & Hk).
      assert (Hdone : all_done (tasks s') = true).
      { unfold run_seeded in Hret. rewrite Hrun in Hret.
        by eapply gather_returned. }
      split; [by apply Hk|]. split; [done|].
      exists rows. split; [done|].
      by rewrite Hrows, all_done_count, Hk.
    + intros schedule. rewrite run_simulation_seeded by done.
      destruct (run_seeded_shape (seeded seed) num_nodes mean_size max_size
                  num_operations mean_delay schedule s)
        as (rows & Hlog & _ & _ & _ & Hrows & Hlen' & Hreq & _).
      exists rows. split; [exact Hlog|]. split; [|exact Hreq].
      rewrite Hrows. etrans; [apply count_le | exact Hlen'].
    + intros HN Hms. rewrite run_simulation_seeded by done.
      unfold run_seeded. rewrite Hrun.
      apply (gather_drain (seeded seed) num_nodes mean_size max_size offsets 0);
        [done|done|]. done.
  - intros st i d now Hi Hlate. unfold Simulator.step. rewrite Hi.
    destruct (Qle_bool d now) eqn:Hb; [|done].
    by apply Qle_bool_iff in Hb.
  - intros rest st i now task e. apply gather_leaves_on_failure.
  - intros Hseed schedule. by rewrite run_simulation_rejected.
Qed.

(** Two operations against sixteen nodes with mean delay 1/2: the offsets
    are 1/2 and 1, and the run returns with two rows. *)
Lemma run_simulation_schedule_witness :
  (forall schedule,
     run_simulation steady 16 42 0 100 1000 (1 # 2) schedule new_simulator
     = Returned (reseed new_simulator))
  /\ (exists offsets s',
        length offsets = 2
        /\ (forall d1 d2, offsets !! 0 = Some d1 -> offsets !! 1 = Some d2 -> (d1 <= d2)%Q)
        /\ run_simulation steady 16 42 2 100 1000 (1 # 2) (drain 0 offsets) new_simulator
           = Returned s'
        /\ all_done (tasks s') = true
        /\ exists rows, Simulator.log_file s' = Simulator.log_file new_simulator ++ rows
                        /\ length rows = 2)
  /\ Simulator.step (steady 42) 16 100 1000 (Wake 0 (1 # 4))
       (set_tasks [Sleeping (1 # 2)] new_simulator)
     = set_tasks [Sleeping (1 # 2)] new_simulator
  /\ run_simulation steady 16 (-1) 2 100 1000 (1 # 2) [] new_simulator
     = Propagated (ValueError "Seed must be between 0 and 2**32 - 1")
                  (seed_rejected new_simulator).
Proof.
  assert (Hseed : (0 <= 42 < 2 ^ 32)%Z) by (change (2 ^ 32)%Z with 4294967296%Z; lia).
  split; [|split; [|split]].
  - intros schedule.
    exact (proj1 (proj1 (run_simulation_schedule steady 16 42 0 100 1000 (1 # 2)
                           new_simulator) Hseed eq_refl schedule)).
  - destruct (proj1 (proj2 (run_simulation_schedule steady 16 42 2 100 1000 (1 # 2)
                              new_simulator)) Hseed)
      as (offsets & s0 & _ & Hlen & _ & _ & Hsorted & Hjoin & _ & Hlive).
    { unfold Qle. cbn. lia. }
    destruct Hlive as (s' & Hret); [lia|lia|].
    destruct (Hjoin _ _ Hret) as (_ & Hdone & rows & Hlog & Hrows).
    exists offsets, s'. split; [exact Hlen|].
    split; [intros d1 d2; apply (Hsorted 0 1); lia|].
    split; [exact Hret|]. split; [exact Hdone|].
    exists rows. split; [exact Hlog | exact Hrows].
  - apply (proj1 (proj2 (proj2 (run_simulation_schedule steady 16 42 2 100 1000 (1 # 2)
                           new_simulator))) _ 0 (1 # 2)%Q (1 # 4)%Q).
    + reflexivity.
    + unfold Qle. cbn. lia.
  - apply (proj2 (proj2 (proj2 (proj2
             (run_simulation_schedule steady 16 (-1) 2 100 1000 (1 # 2) new_simulator))))).
    change (2 ^ 32)%Z with 4294967296%Z. lia.
Defined.

(** C5 as stated fails: control does not only return after all [K] tasks
    have completed. With three operations, the request of the first one is
    answered with an error status: the exception leaves the run while the
    two other tasks are still asleep and before any row is written. *)
Lemma run_leaves_with_tasks_asleep :
  exists s',
    run_simulation steady 16 42 3 100 1000 (1 # 2)
      [Wake 0 1; Respond 0 2 (Failed (OtherException "ClientResponseError"))]
      new_simulator
    = Propagated (OtherException "ClientResponseError") s'
    /\ length (tasks s') = 3
    /\ count is_sleeping (tasks s') = 2
    /\ count is_done (tasks s') = 0
    /\ Simulator.log_file s' = [].
Proof. eexists. split; [vm_compute; reflexivity|]. by vm_compute. Qed.

(** ** Timeouts *)

(** C8. When the request of a task times out, exactly one failed row is
    appended: for an upload the row has [success = false] and
    [cid = "error"], for a download [success = false] and [file_size = 0].
    Nothing is appended to the shared collection, no further request is
    sent, and the task is done: no later event addressed to it has any
    effect, so the operation is never retried. *)
Theorem timeout_recorded_once (rng : Randomness) (num_nodes : nat)
    (mean_size max_size : Z) (s : Sim) (i : nat) (now : Q) (task : Task) :
  tasks s !! i = Some task -> awaiting task = true ->
  let s' := Simulator.step rng num_nodes mean_size max_size
              (Respond i now (Failed TimeoutError)) s in
  tasks s' = <[i := Done]> (tasks s)
  /\ requests s' = requests s
  /\ uploaded_files s' = uploaded_files s
  /\ (forall n sz st, task = Uploading n sz st ->
        Simulator.log_file s'
        = Simulator.log_file s ++ [mkRecord st n upload sz "error" (now - st) false])
  /\ (forall n c st, task = Downloading n c st ->
        Simulator.log_file s'
        = Simulator.log_file s ++ [mkRecord st n download 0 c (now - st) false])
  /\ (forall ev, event_task ev = i ->
        Simulator.step rng num_nodes mean_size max_size ev s' = s').
Proof.
  intros Hi Haw s'.
  assert (Hs' : tasks s' = <[i := Done]> (tasks s)
                /\ requests s' = requests s
                /\ uploaded_files s' = uploaded_files s
                /\ Simulator.log_file s'
                   = Simulator.log_file s
                     ++ option_list (completion_row now task (Failed TimeoutError))).
  { subst s'. unfold Simulator.step. rewrite Hi.
    destruct task as [| n sz st | n c st | |]; try discriminate; cbn; done. }
  destruct Hs' as (Ht & Hq & Hu & Hl).
  split; [exact Ht|]. split; [exact Hq|]. split; [exact Hu|].
  split; [|split].
  - intros n sz st ->. exact Hl.
  - intros n c st ->. exact Hl.
  - intros ev Hev.
    assert (Hdone : tasks s' !! i = Some Done).
    { rewrite Ht. apply list_lookup_insert_eq. by eapply lookup_lt_Some. }
    destruct ev as [j t|j t r]; cbn in Hev; subst j;
      unfold Simulator.step; by rewrite Hdone.
Qed.

(** An upload of 7 bytes to node 3 that started at time 1 and times out
    at time 31. *)
Lemma timeout_recorded_once_witness :
  let s := set_tasks [Uploading 3 7 1] new_simulator in
  let s' := Simulator.step (steady 42) 16 100 1000 (Respond 0 31 (Failed TimeoutError)) s in
  tasks s' = [Done]
  /\ uploaded_files s' = []
  /\ Simulator.log_file s' = [mkRecord 1 3 upload 7 "error" (31 - 1) false]
  /\ Simulator.step (steady 42) 16 100 1000 (Respond 0 40 (Answered "QmX")) s' = s'.
Proof.
  destruct (timeout_recorded_once (steady 42) 16 100 1000
              (set_tasks [Uploading 3 7 1] new_simulator) 0 31 (Uploading 3 7 1)
              eq_refl eq_refl) as (Ht & _ & Hu & Hup & _ & Hno).
  split; [exact Ht|]. split; [exact Hu|].
  split; [exact (Hup 3 7%Z 1%Q eq_refl)|].
  exact (Hno (Respond 0 40 (Answered "QmX")) eq_refl).
Defined.

(** ** The shared collection *)

Section Collection.

Variable rng : Randomness.
Variable num_nodes : nat.
Variables mean_size max_size : Z.

(** A step leaves the collection alone, or it is the successful end of an
    upload, which logs the identifier and appends it. *)
Lemma step_uploaded ev st :
  uploaded_files (Simulator.step rng num_nodes mean_size max_size ev st)
    = uploaded_files st
  \/ exists i now c n sz st0,
       ev = Respond i now (Answered c)
       /\ tasks st !! i = Some (Uploading n sz st0)
       /\ uploaded_files (Simulator.step rng num_nodes mean_size max_size ev st)
          = uploaded_files st ++ [c]
       /\ Simulator.log_file (Simulator.step rng num_nodes mean_size max_size ev st)
          = Simulator.log_file st ++ [mkRecord st0 n upload sz c (now - st0) true].
Proof.
  destruct ev as [i now|i now reply]; unfold Simulator.step.
  - left. destruct (tasks st !! i) as [[d| | | |]|]; try done.
    destruct (Qle_bool d now); [|done].
    destruct (run_operation_begin_started rng num_nodes mean_size max_size now st)
      as (r & s' & -> & Hu & _). done.
  - destruct (tasks st !! i) as [[d|n sz st0|n c st0| |]|] eqn:Hi; try by left.
    + destruct reply as [c| |e]; [|by left|left; by destruct e].
      right. exists i, now, c, n, sz, st0. done.
    + left. destruct reply as [c'| |e]; [done | done | by destruct e].
Qed.

Lemma run_operation_begin_empty now st t st' :
  uploaded_files st = [] ->
  run_operation_begin rng num_nodes mean_size max_size now st = (Return t, st') ->
  exists n sz, t = Uploading n sz now.
Proof.
  intros Hempty Hrun.
  destruct (run_operation_begin_started rng num_nodes mean_size max_size now st)
    as (r & s1 & Hrun' & _ & _ & _ & Hr).
  rewrite Hrun in Hrun'. injection Hrun' as <- <-.
  destruct t as [|n sz st0|n c st0| |]; try done.
  - destruct Hr as (-> & _). by exists n, sz.
  - destruct Hr as (_ & _ & Hc & _). rewrite Hempty in Hc.
    by apply elem_of_nil in Hc.
Qed.

End Collection.

(** C9. The shared collection only grows, and only by the identifier that
    a successful upload has just logged. At every point of every run, every
    identifier in the collection has the row of a successful upload, every
    download in flight targets an identifier of the collection, and every
    download row comes after the row of a successful upload of its
    identifier; so the first row of a run is an upload. An operation
    selected while the collection is empty is an upload. *)
Theorem collection_append_only (seeded : Z -> Randomness) (num_nodes : nat)
    (seed : Z) (num_operations : nat) (mean_size max_size : Z) (mean_delay : Q)
    (schedule : list Event) (s : Sim) :
  (forall ev st,
      uploaded_files st
        `prefix_of` uploaded_files
                      (Simulator.step (seeded seed) num_nodes mean_size max_size ev st))
  /\ (forall ev st,
        uploaded_files (Simulator.step (seeded seed) num_nodes mean_size max_size ev st)
          = uploaded_files st
        \/ exists i now c n sz st0,
             ev = Respond i now (Answered c)
             /\ tasks st !! i = Some (Uploading n sz st0)
             /\ uploaded_files
                  (Simulator.step (seeded seed) num_nodes mean_size max_size ev st)
                = uploaded_files st ++ [c]
             /\ Simulator.log_file
                  (Simulator.step (seeded seed) num_nodes mean_size max_size ev st)
                = Simulator.log_file st ++ [mkRecord st0 n upload sz c (now - st0) true])
  /\ (exists rows,
        let s' := final_state (run_simulation seeded num_nodes seed num_operations
                                 mean_size max_size mean_delay schedule s) in
        Simulator.log_file s' = Simulator.log_file s ++ rows
        /\ (forall c, c ∈ uploaded_files s' -> upload_logged c rows)
        /\ (forall i n c st, tasks s' !! i = Some (Downloading n c st) ->
                             c ∈ uploaded_files s')
        /\ downloads_follow_uploads rows
        /\ (forall r rest, rows = r :: rest -> action r = upload))
  /\ (forall now st t st',
        uploaded_files st = [] ->
        run_operation_begin (seeded seed) num_nodes mean_size max_size now st
          = (Return t, st') ->
        exists n sz, t = Uploading n sz now).
Proof.
  split; [|split; [|split]].
  - intros ev st.
    destruct (step_uploaded (seeded seed) num_nodes mean_size max_size ev st)
      as [->|(i & now & c & n & sz & st0 & _ & _ & -> & _)]; [done|].
    by apply prefix_app_r.
  - apply step_uploaded.
  - destruct (run_simulation_shape seeded num_nodes seed num_operations mean_size
                max_size mean_delay schedule s)
      as (rows & Hlog & Hup & Hdl & Hdown & _).
    exists rows. cbn zeta.
    split; [exact Hlog|]. split; [exact Hup|]. split; [exact Hdown|].
    split; [exact Hdl|].
    intros r rest ->. destruct (action r) eqn:Hact; [done|].
    destruct (Hdl [] r rest eq_refl Hact) as (u & Hu & _).
    by apply elem_of_nil in Hu.
  - intros now st t st'. apply run_operation_begin_empty.
Qed.

(** A run of two operations: an upload that succeeds, then a download of
    the identifier it returned. *)
Lemma collection_append_only_witness :
  let schedule := [Wake 0 1; Respond 0 3 (Answered "QmX"); Wake 1 4;
                   Respond 1 5 (Answered "data")] in
  let s' := final_state (run_simulation steady 16 42 2 100 1000 (1 # 2) schedule
                           new_simulator) in
  uploaded_files s' = ["QmX"]
  /\ exists rows,
       Simulator.log_file s' = rows
       /\ upload_logged "QmX" rows
       /\ (forall r rest, rows = r :: rest -> action r = upload).
Proof.
  destruct (collection_append_only steady 16 42 2 100 1000 (1 # 2)
              [Wake 0 1; Respond 0 3 (Answered "QmX"); Wake 1 4;
               Respond 1 5 (Answered "data")] new_simulator)
    as (_ & _ & (rows & Hlog & Hup & _ & _ & Hfirst) & _).
  split; [reflexivity|].
  exists rows. split; [exact Hlog|]. split; [|exact Hfirst].
  apply Hup. left.
Defined.

(** ** Operation selection *)

Lemma bfilter_all {A} (f : A -> bool) (l : list A) :
  (forall x, In x l -> f x = true) -> List.filter f l = l.
Proof.
  induction l as [|x l IH]; intros H; [done|]. cbn.
  rewrite (H x (or_introl eq_refl)), IH; [done|].
  intros y Hy. apply H. by right.
Qed.

Lemma bfilter_none {A} (f : A -> bool) (l : list A) :
  (forall x, In x l -> f x = false) -> List.filter f l = [].
Proof.
  induction l as [|x l IH]; intros H; [done|]. cbn.
  rewrite (H x (or_introl eq_refl)). apply IH.
  intros y Hy. apply H. by right.
Qed.

Section Selection.

Variable rng : Randomness.
Variable num_nodes : nat.
Variables mean_size max_size : Z.

(** The operation started is the entry of the table (one download per
    position of the collection, then two uploads) that the raw draw
    selects. *)
Lemma run_operation_begin_choice now s :
  1 <= num_nodes -> (0 <= mean_size)%Z ->
  choice_of (run_operation_begin rng num_nodes mean_size max_size now s).1
  = ((ChoosesDownload <$> uploaded_files s) ++ [ChoosesUpload; ChoosesUpload])
      !! (py_random rng (py_pos s) mod (length (uploaded_files s) + 2)).
Proof.
  intros HN Hmean.
  set (r := py_random rng (py_pos s)).
  set (len := length (uploaded_files s)).
  assert (Hop : (0 + Z.of_nat r mod (Z.of_nat len + 1 - 0 + 1))%Z
                = Z.of_nat (r mod (len + 2))).
  { rewrite Nat2Z.inj_mod.
    replace (Z.of_nat (len + 2)) with (Z.of_nat len + 1 - 0 + 1)%Z by lia. lia. }
  pose proof (Nat.mod_upper_bound r (len + 2) ltac:(lia)) as Hlt.
  unfold run_operation_begin, bind at 1, get_uploaded.
  unfold bind at 1, randint at 1.
  assert ((Z.of_nat (length (uploaded_files s)) + 1 <? 0)%Z = false) as ->
    by (apply Z.ltb_ge; lia).
  fold r len. rewrite Hop.
  set (s1 := mkSim _ _ _ _ _ _).
  unfold bind at 1.
  destruct (randint_same rng 0 (Z.of_nat num_nodes - 1) s1)
    as (rn & s2 & -> & Hs2 & Hn & Hnr).
  destruct Hnr as [nd ->]; [lia|]. specialize (Hn nd eq_refl).
  unfold is_upload_slot. fold len.
  destruct (Z.of_nat len <=? Z.of_nat (r mod (len + 2)))%Z eqn:Hslot.
  - apply Z.leb_le in Hslot.
    unfold bind at 1.
    destruct (np_random_exponential_same rng (inject_Z mean_size) s2)
      as (rx & s3 & -> & Hs3 & _ & Hxr).
    destruct Hxr as [x ->]; [unfold Qle; cbn; lia|].
    unfold upload_file_begin, bind at 1.
    destruct (subscript_node_range num_nodes nd s3 Hn) as [-> Hnd].
    unfold bind at 1, generate_random_file.
    destruct (generate_chunks_same
                (Z.to_nat ((Z.min (Qfloor x) max_size + chunk_size - 1) / chunk_size))
                (Z.min (Qfloor x) max_size) s3) as (n & s4 & -> & Hs4).
    cbn. rewrite lookup_app_r by (rewrite length_fmap; fold len; lia).
    rewrite length_fmap. fold len.
    destruct (r mod (len + 2) - len) as [|[|k]] eqn:Hk; [done | done | lia].
  - apply Z.leb_gt in Hslot. rewrite Nat2Z.id.
    rewrite lookup_app_l by (rewrite length_fmap; fold len; lia).
    rewrite list_lookup_fmap.
    destruct (uploaded_files s !! (r mod (len + 2))) as [c|] eqn:Hc.
    2: { apply lookup_ge_None in Hc. fold len in Hc. lia. }
    unfold download_file_begin, bind at 1.
    destruct (subscript_node_range num_nodes nd s2 Hn) as [-> Hnd].
    done.
Qed.

End Selection.

Lemma outcomes_table (rng : Randomness) num_nodes mean_size max_size now s :
  1 <= num_nodes -> (0 <= mean_size)%Z ->
  outcomes rng num_nodes mean_size max_size now s
  = Some <$> ((ChoosesDownload <$> uploaded_files s) ++ [ChoosesUpload; ChoosesUpload]).
Proof.
  intros HN Hmean. unfold outcomes.
  set (table := (ChoosesDownload <$> uploaded_files s) ++ [ChoosesUpload; ChoosesUpload]).
  assert (Hlen : length table = length (uploaded_files s) + 2).
  { subst table. rewrite length_app, length_fmap. done. }
  assert (Hf : forall r, r < length table ->
            choice_of (run_operation_begin (with_draw rng (py_pos s) r) num_nodes
                         mean_size max_size now s).1 = table !! r).
  { intros r Hr. rewrite run_operation_begin_choice by done.
    cbn [with_draw py_random]. by rewrite Nat.eqb_refl, Nat.mod_small by lia. }
  rewrite <- Hlen. apply list_eq. intros i.
  change (map ?f ?l) with (f <$> l). rewrite !list_lookup_fmap.
  destruct (decide (i < length table)) as [Hi|Hi].
  - rewrite lookup_seq_lt by done. rewrite Nat.add_0_l.
    cbn [fmap option_fmap option_map]. rewrite Hf by done.
    destruct (lookup_lt_is_Some_2 table i Hi) as [x Hx]. by rewrite Hx.
  - rewrite lookup_seq_ge by lia. by rewrite lookup_ge_None_2 by lia.
Qed.

Lemma count_uploads {A} (l : list A) (f : A -> Choice) :
  (forall x, f x <> ChoosesUpload) ->
  length (List.filter chooses_upload (Some <$> ((f <$> l) ++ [ChoosesUpload; ChoosesUpload])))
  = 2.
Proof.
  intros Hf. induction l as [|x l IH]; [done|].
  cbn. specialize (Hf x). by destruct (f x).
Qed.

Lemma count_downloads c (l : list string) :
  length (List.filter (chooses_download c)
            (Some <$> ((ChoosesDownload <$> l) ++ [ChoosesUpload; ChoosesUpload])))
  = length (List.filter (fun c' => bool_decide (c' = c)) l).
Proof.
  induction l as [|x l IH]; [done|].
  cbn. destruct (bool_decide (x = c)); cbn; by rewrite IH.
Qed.

Lemma count_once c (l : list string) :
  NoDup l -> c ∈ l -> length (List.filter (fun c' => bool_decide (c' = c)) l) = 1.
Proof.
  induction l as [|x l IH]; intros Hnd Hin; [by apply elem_of_nil in Hin|].
  apply NoDup_cons in Hnd as [Hx Hnd]. cbn. case_bool_decide as Heq.
  - subst x. cbn. f_equal. rewrite bfilter_none; [done|].
    intros y Hy%list_elem_of_In. apply bool_decide_eq_false_2. by intros ->.
  - apply IH; [done|]. apply elem_of_cons in Hin as [->|Hin]; done.
Qed.

(** C1 (as amended). [run_operation] draws a raw value and starts the
    operation in position [raw mod (len + 2)] of a table of
    [len(uploaded_files) + 2] entries: the download of [uploaded_files[i]]
    in position [i < len], and an upload in each of the two positions [len]
    and [len + 1] (the values of [randint(0, len + 1)], both ends
    included). So over one period of the raw draw there are [len + 2]
    equally likely outcomes: an upload is chosen with probability
    [2 / (len + 2)] and each position of the collection with probability
    [1 / (len + 2)]. *)
Theorem operation_slots (rng : Randomness) (num_nodes : nat) (mean_size max_size : Z)
    (now : Q) (s : Sim) :
  1 <= num_nodes -> (0 <= mean_size)%Z ->
  let uploaded := uploaded_files s in
  let drawn := outcomes rng num_nodes mean_size max_size now s in
  choice_of (run_operation_begin rng num_nodes mean_size max_size now s).1
    = ((ChoosesDownload <$> uploaded) ++ [ChoosesUpload; ChoosesUpload])
        !! (py_random rng (py_pos s) mod (length uploaded + 2))
  /\ length drawn = length uploaded + 2
  /\ (forall i c, uploaded !! i = Some c -> drawn !! i = Some (Some (ChoosesDownload c)))
  /\ drawn !! length uploaded = Some (Some ChoosesUpload)
  /\ drawn !! (length uploaded + 1) = Some (Some ChoosesUpload)
  /\ length (List.filter chooses_upload drawn) = 2
  /\ (probability chooses_upload drawn == 2 # Pos.of_nat (length uploaded + 2))%Q
  /\ (forall c, length (List.filter (chooses_download c) drawn)
                = length (List.filter (fun c' => bool_decide (c' = c)) uploaded))
  /\ (forall c, NoDup uploaded -> c ∈ uploaded ->
        (probability (chooses_download c) drawn
         == 1 # Pos.of_nat (length uploaded + 2))%Q).
Proof.
  intros HN Hmean uploaded drawn.
  assert (Hdrawn : drawn = Some <$> ((ChoosesDownload <$> uploaded)
                                       ++ [ChoosesUpload; ChoosesUpload]))
    by (by apply outcomes_table).
  assert (Hlen : length drawn = length uploaded + 2).
  { rewrite Hdrawn, length_fmap, length_app, length_fmap. done. }
  assert (Hup : length (List.filter chooses_upload drawn) = 2).
  { rewrite Hdrawn. by apply count_uploads. }
  split; [by apply run_operation_begin_choice|]. split; [exact Hlen|].
  split; [|split; [|split; [|split; [exact Hup|split; [|split]]]]].
  - intros i c Hi. rewrite Hdrawn, list_lookup_fmap.
    rewrite lookup_app_l by (rewrite length_fmap; by eapply lookup_lt_Some).
    by rewrite list_lookup_fmap, Hi.
  - rewrite Hdrawn, list_lookup_fmap.
    rewrite lookup_app_r by (by rewrite length_fmap).
    by rewrite length_fmap, Nat.sub_diag.
  - rewrite Hdrawn, list_lookup_fmap.
    rewrite lookup_app_r by (rewrite length_fmap; lia).
    rewrite length_fmap. by replace (length uploaded + 1 - length uploaded) with 1 by lia.
  - unfold probability. by rewrite Hup, Hlen.
  - intros c. rewrite Hdrawn. apply count_downloads.
  - intros c Hnd Hc. unfold probability.
    by rewrite Hdrawn, count_downloads, count_once, <- Hdrawn, Hlen.
Qed.

(** Sixteen nodes and two known identifiers: four outcomes, two of them
    uploads. *)
Lemma operation_slots_witness :
  let s := mkSim ["QmA"; "QmB"] [] 0 0 0 [] in
  outcomes (steady 42) 16 100 1000 0 s
  = [Some (ChoosesDownload "QmA"); Some (ChoosesDownload "QmB");
     Some ChoosesUpload; Some ChoosesUpload]
  /\ (probability chooses_upload (outcomes (steady 42) 16 100 1000 0 s) == 2 # 4)%Q
  /\ (probability (chooses_download "QmB") (outcomes (steady 42) 16 100 1000 0 s)
      == 1 # 4)%Q.
Proof.
  cbn zeta.
  destruct (operation_slots (steady 42) 16 100 1000 0 (mkSim ["QmA"; "QmB"] [] 0 0 0 []))
    as (_ & _ & _ & _ & _ & _ & Hup & _ & Hdown); [lia | lia |].
  split; [vm_compute; reflexivity|]. split; [exact Hup|].
  apply Hdown.
  - apply NoDup_cons. split; [by intros [=]%list_elem_of_singleton | apply NoDup_singleton].
  - right. left.
Defined.

(** C1 as stated fails: with one known identifier the three raw draws of a
    period start a download and two uploads, so there are three equally
    likely outcomes, not two, and an upload is chosen with probability 2/3,
    not 1/2. *)
Lemma one_identifier_three_slots :
  let s := mkSim ["QmA"] [] 0 0 0 [] in
  outcomes (steady 42) 16 100 1000 0 s
  = [Some (ChoosesDownload "QmA"); Some ChoosesUpload; Some ChoosesUpload]
  /\ (probability chooses_upload (outcomes (steady 42) 16 100 1000 0 s) == 2 # 3)%Q
  /\ ~ (probability chooses_upload (outcomes (steady 42) 16 100 1000 0 s) == 1 # 2)%Q.
Proof.
  cbn zeta. split; [vm_compute; reflexivity|]. split; [vm_compute; reflexivity|].
  intros H. vm_compute in H. discriminate H.
Qed.

(** ** Attempts and log rows *)

(** C3 (as amended). A connect attempt between two nodes of the cluster
    always returns its success flag: no failure of its three sub-steps
    propagates. It writes no row to the topology log (the outcome is only
    printed). A loop of connects goes on to the next edge whatever the
    outcomes, so all its edges are attempted; each attempt prints at most
    one line. The topology log receives
    exactly one row per run of the tool, [failed] when a fatal error is
    raised. A workload operation whose request is answered with a success
    status and a well-formed body, or times out, appends exactly one row to
    the workload log, with [success] true or false accordingly, and its
    task is done. *)
Theorem attempts_and_rows :
  (forall net num_nodes s t w,
      s < num_nodes -> t < num_nodes ->
      exists b w',
        connect_nodes net num_nodes s t w = (Return b, w')
        /\ attempts w' = attempts w ++ [(s, t)]
        /\ Topology.log_file w' = Topology.log_file w
        /\ exists lines, stdout w' = stdout w ++ lines /\ length lines <= 1)
  /\ (forall net num_nodes (edges : list (nat * nat)) w,
        (forall s t, (s, t) ∈ edges -> s < num_nodes /\ t < num_nodes) ->
        exists w',
          for_each edges (fun e => connect_nodes net num_nodes e.1 e.2 ;;; ret tt) w
          = (Return tt, w')
          /\ attempts w' = attempts w ++ edges
          /\ Topology.log_file w' = Topology.log_file w)
  /\ (forall net num_nodes topology matrix w,
        exists r w' row,
          main net num_nodes topology matrix w = (r, w')
          /\ Topology.log_file w'
             = (match topology with Some _ => [] | None => Topology.log_file w end)
               ++ [row]
          /\ match r with
             | Return _ => row_status row = "completed" \/ row_status row = "error"
             | Raise e => row_status row = "failed" /\ row_details row = exn_details e
             end)
  /\ (forall rng num_nodes mean_size max_size s i now reply task,
        tasks s !! i = Some task -> awaiting task = true ->
        (reply = Failed TimeoutError \/ exists body, reply = Answered body) ->
        exists row,
          Simulator.log_file
            (Simulator.step rng num_nodes mean_size max_size (Respond i now reply) s)
          = Simulator.log_file s ++ [row]
          /\ success row = match reply with
                           | Answered _ | AnsweredNull => true
                           | Failed _ => false
                           end
          /\ tasks (Simulator.step rng num_nodes mean_size max_size (Respond i now reply) s)
             = <[i := Done]> (tasks s)).
Proof.
  split; [|split; [|split]].
  - intros net num_nodes s t w Hs Ht.
    destruct (connect_nodes_returns net num_nodes s t w Hs Ht)
      as (b & w' & Hrun & [Ha Hl] & _).
    pose proof (connect_nodes_console net num_nodes s t w Hs Ht) as Hout.
    rewrite Hrun in Hout.
    by exists b, w'.
  - intros net num_nodes edges w Hedges.
    destruct (for_each_attempted edges
                (fun e => connect_nodes net num_nodes e.1 e.2 ;;; ret tt)
                (fun e => [e])) with (w := w) as (w' & Hrun & Ha & Hl).
    + intros [s t] w0 Hst. destruct (Hedges s t Hst).
      by apply connect_then_continue.
    + exists w'. split; [exact Hrun|]. split; [|exact Hl].
      by rewrite Ha, bind_singleton_fmap, list_fmap_id.
  - intros net num_nodes topology matrix w.
    destruct (main_logs_one_row net num_nodes topology matrix w)
      as (r & w' & row & Hrun & Hl & _ & Hr).
    by exists r, w', row.
  - intros rng num_nodes mean_size max_size s i now reply task Hi Haw Hreply.
    unfold Simulator.step. rewrite Hi.
    destruct task as [| n sz st | n c st | |]; try discriminate;
      destruct Hreply as [->|[body ->]]; cbn; eexists; done.
Qed.

(** A connect that fails at its request, and an upload that succeeds. *)
Lemma attempts_and_rows_witness :
  (exists b w',
      connect_nodes healthy 3 0 1 initial_world = (Return b, w')
      /\ attempts w' = [(0, 1)] /\ Topology.log_file w' = []
      /\ exists lines, stdout w' = lines /\ length lines <= 1)
  /\ (exists w' row,
        main healthy 3 (Some ring) false initial_world = (Return tt, w')
        /\ attempts w' = [(0, 1); (1, 2); (2, 0)]
        /\ Topology.log_file w' = [row])
  /\ (exists row,
        Simulator.log_file
          (Simulator.step (steady 42) 16 100 1000 (Respond 0 3 (Answered "QmX"))
             (set_tasks [Uploading 3 7 1] new_simulator))
        = [row]
        /\ success row = true).
Proof.
  destruct attempts_and_rows as (Hconnect & _ & Hmain & Hrow).
  split; [|split].
  - exact (Hconnect healthy 3 0 1 initial_world ltac:(lia) ltac:(lia)).
  - destruct (Hmain healthy 3 (Some ring) false initial_world)
      as (r & w' & row & Hrun & Hlog & _).
    exists w', row.
    assert (Hw' : w' = (main healthy 3 (Some ring) false initial_world).2)
      by (by rewrite Hrun).
    assert (Hr : r = (main healthy 3 (Some ring) false initial_world).1)
      by (by rewrite Hrun).
    split; [rewrite Hrun, Hr; reflexivity|].
    split; [rewrite Hw'; reflexivity | exact Hlog].
  - destruct (Hrow (steady 42) 16 100%Z 1000%Z (set_tasks [Uploading 3 7 1] new_simulator)
                0 3%Q (Answered "QmX") (Uploading 3 7 1) eq_refl eq_refl)
      as (row & Hlog & Hsucc & _).
    + right. by exists "QmX".
    + exists row. split; [exact Hlog | exact Hsucc].
Defined.

(** C3 as stated fails twice. A connect attempt, even a successful one,
    adds no row to the topology log; and an upload whose request fails with
    an HTTP error is not caught: the exception leaves [run_simulation] and no
    row is written for the operation. *)
Lemma attempt_without_row :
  (connect_nodes healthy 3 0 1 initial_world).1 = Return true
  /\ Topology.log_file (connect_nodes healthy 3 0 1 initial_world).2 = []
  /\ exists s',
       run_simulation steady 16 42 1 100 1000 (1 # 2)
         [Wake 0 1; Respond 0 2 (Failed (OtherException "ClientResponseError"))]
         new_simulator
       = Propagated (OtherException "ClientResponseError") s'
       /\ requests s' = 1
       /\ Simulator.log_file s' = [].
Proof.
  split; [vm_compute; reflexivity|]. split; [vm_compute; reflexivity|].
  eexists. split; [vm_compute; reflexivity|]. split; reflexivity.
Qed.

(** * Further properties of the code *)

(** ** connect_nodes, step by step *)

Section ConnectOutcome.

Variable net : Network.
Variable num_nodes : nat.

(** The calls of one connect, in order, and what it prints. *)
Lemma connect_nodes_outcome (s t : nat) (w : World) :
  s < num_nodes -> t < num_nodes ->
  exists b w' lines,
    connect_nodes net num_nodes s t w = (Return b, w')
    /\ stdout w' = stdout w ++ lines
    /\ (b = true <->
        exists ip id text,
          gethostbyname net (tick w) t = Return ip /\ ip <> ""
          /\ post_id net (S (tick w)) t = Return id /\ id <> ""
          /\ post_swarm_connect net (S (S (tick w))) s
               ("/ip4/" +:+ ip +:+ "/tcp/4001/p2p/" +:+ id) = Return (200%Z, text))
    /\ (b = true <-> Connected s t ∈ lines)
    /\ tick w <= tick w' <= tick w + 3
    /\ (b = true -> tick w' = tick w + 3).
Proof.
  intros Hs%Nat.ltb_lt Ht%Nat.ltb_lt.
  unfold connect_nodes, resolve_container_ip, get_node_id, note_attempt,
    try_except, bind, subscript, call, print, ret, raise.
  rewrite ?Hs, ?Ht. cbn.
  destruct (gethostbyname net (tick w) t) as [ip|e] eqn:Hip; cbn.
  2: { destruct e; cbn; rewrite ?Hs, ?Ht; cbn;
       (eexists false, _, [_]; split; [reflexivity|]; split; [reflexivity|];
        split; [split; [done | intros (? & ? & ? & [=] & _)]|];
        split; [split; [done | by intros [=]%list_elem_of_singleton]|];
        split; [cbn; lia | done]). }
  case_bool_decide as Hipe; cbn.
  { eexists false, _, []. split; [reflexivity|]. split; [by rewrite app_nil_r|].
    split; [split; [done | intros (? & ? & ? & [= <-] & ? & _); done]|].
    split; [split; [done | by intros ?%elem_of_nil]|].
    split; [cbn; lia | done]. }
  rewrite ?Hs, ?Ht. cbn.
  destruct (post_id net (S (tick w)) t) as [id|e] eqn:Hid; cbn; rewrite ?Hs, ?Ht; cbn.
  2: { eexists false, _, [_]. split; [reflexivity|]. split; [reflexivity|].
       split; [split; [done | intros (? & ? & ? & _ & _ & [=] & _)]|].
       split; [split; [done | by intros [=]%list_elem_of_singleton]|].
       split; [cbn; lia | done]. }
  case_bool_decide as Hide; cbn.
  { eexists false, _, []. split; [reflexivity|]. split; [by rewrite app_nil_r|].
    split; [split; [done | intros (? & ? & ? & _ & _ & [= <-] & ? & _); done]|].
    split; [split; [done | by intros ?%elem_of_nil]|].
    split; [cbn; lia | done]. }
  rewrite ?Hs, ?Ht. cbn.
  destruct (post_swarm_connect net (S (S (tick w))) s _) as [[status text]|e] eqn:Hpost;
    cbn; rewrite ?Hs, ?Ht; cbn.
  2: { eexists false, _, [_]. split; [reflexivity|]. split; [reflexivity|].
       split; [split; [done|]|].
       { intros (ip' & id' & tx & [= <-] & _ & [= <-] & _ & Hp).
         unfold multiaddr in Hpost. cbn in Hpost. congruence. }
       split; [split; [done | by intros [=]%list_elem_of_singleton]|].
       split; [cbn; lia | done]. }
  destruct (status =? 200)%Z eqn:Hst; cbn; rewrite ?Hs, ?Ht; cbn.
  - apply Z.eqb_eq in Hst as ->.
    eexists true, _, [_]. split; [reflexivity|]. split; [reflexivity|].
    split; [split; [intros _ | done]|].
    { exists ip, id, text. unfold multiaddr in Hpost. cbn in Hpost. done. }
    split; [split; [intros _; by apply list_elem_of_singleton | done]|].
    split; [cbn; lia | intros _; cbn; lia].
  - apply Z.eqb_neq in Hst.
    eexists false, _, [_]. split; [reflexivity|]. split; [reflexivity|].
    split; [split; [done|]|].
    { intros (ip' & id' & tx & [= <-] & _ & [= <-] & _ & Hp).
      unfold multiaddr in Hpost. cbn in Hpost. congruence. }
    split; [split; [done | by intros [=]%list_elem_of_singleton]|].
    split; [cbn; lia | done].
Qed.

(** X1. A connect between two nodes of the cluster succeeds exactly when
    the name of the target resolves to a non-empty address, its identity is
    fetched and non-empty, and the one request to [/swarm/connect] of the
    source, naming [/ip4/<address>/tcp/4001/p2p/<identity>], is answered
    with status 200. The three calls are made in this order and none is
    repeated; a success, and only a success, prints the line "Connected". *)
Theorem connect_nodes_succeeds_iff (s t : nat) (w : World) :
  s < num_nodes -> t < num_nodes ->
  exists b w' lines,
    connect_nodes net num_nodes s t w = (Return b, w')
    /\ stdout w' = stdout w ++ lines
    /\ (b = true <->
        exists ip id text,
          gethostbyname net (tick w) t = Return ip /\ ip <> ""
          /\ post_id net (S (tick w)) t = Return id /\ id <> ""
          /\ post_swarm_connect net (S (S (tick w))) s
               ("/ip4/" +:+ ip +:+ "/tcp/4001/p2p/" +:+ id) = Return (200%Z, text))
    /\ (b = true <-> Connected s t ∈ lines)
    /\ tick w <= tick w' <= tick w + 3
    /\ (b = true -> tick w' = tick w + 3).
Proof. apply connect_nodes_outcome. Qed.

(** A connect with the line it prints. *)
Lemma connect_nodes_line (s t : nat) (w : World) :
  s < num_nodes -> t < num_nodes ->
  exists b w' lines,
    connect_nodes net num_nodes s t w = (Return b, w')
    /\ attempted w w' [(s, t)]
    /\ stdout w' = stdout w ++ lines
    /\ (b = true -> Connected s t ∈ lines).
Proof.
  intros Hs Ht.
  destruct (connect_nodes_outcome s t w Hs Ht) as (b & w' & lines & Hrun & Hout & _ & Hl & _).
  destruct (connect_nodes_returns net num_nodes s t w Hs Ht) as (b' & w'' & Hrun' & Ha & _).
  exists b, w', lines. split; [done|]. split; [congruence|]. split; [done | apply Hl].
Qed.

End ConnectOutcome.

(** A connect between the healthy nodes 0 and 1 takes its three calls. *)
Lemma connect_nodes_succeeds_iff_witness :
  exists w' lines,
    connect_nodes healthy 3 0 1 initial_world = (Return true, w')
    /\ stdout w' = lines /\ Connected 0 1 ∈ lines /\ tick w' = 3.
Proof.
  destruct (connect_nodes_succeeds_iff healthy 3 0 1 initial_world)
    as (b & w' & lines & Hrun & Hout & Hiff & Hline & _ & Hticks); [lia|lia|].
  assert (Hb : b = true).
  { apply Hiff. by exists "10.0.0.1", "QmB", "ok". }
  subst b. exists w', lines. split; [exact Hrun|]. split; [exact Hout|].
  split; [by apply Hline | by apply Hticks].
Defined.

Section ConnectRaises.

Variable net : Network.
Variable num_nodes : nat.

(** X2. [connect_nodes] is not exception-free: its handlers build their
    messages from [self.names[...]], so a target index outside the cluster
    raises [IndexError] out of the method, before any call to the network
    and without a console line. Conversely the method raises nothing but
    [IndexError], and only when one of its two indices is out of range. *)
Theorem connect_nodes_raises_only_index_error (s t : nat) (w : World) :
  (num_nodes <= t ->
   exists w',
     connect_nodes net num_nodes s t w = (Raise IndexError, w')
     /\ tick w' = tick w /\ stdout w' = stdout w
     /\ Topology.log_file w' = Topology.log_file w)
  /\ (forall e w',
        connect_nodes net num_nodes s t w = (Raise e, w') ->
        e = IndexError /\ (num_nodes <= s \/ num_nodes <= t)).
Proof.
  split.
  - intros Ht%Nat.ltb_ge.
    unfold connect_nodes, resolve_container_ip, note_attempt,
      try_except, bind, subscript, ret, raise.
    destruct (s <? num_nodes) eqn:Hs; rewrite ?Ht, ?Hs; cbn -[Nat.ltb];
      rewrite ?Ht, ?Hs; cbn -[Nat.ltb];
      (eexists; split; [reflexivity | done]).
  - intros e w' Hrun. split.
    + revert Hrun. unfold connect_nodes, bind at 1, note_attempt, try_except.
      match goal with
      | |- (let (_, _) := ?body in _) = _ -> _ => destruct body as [[b|e0] w2]
      | |- match ?body with _ => _ end = _ -> _ => destruct body as [[b|e0] w2]
      end; [congruence|].
      unfold bind, subscript, raise, ret, print.
      destruct (s <? num_nodes), (t <? num_nodes); congruence.
    + destruct (decide (s < num_nodes)) as [Hs|Hs]; [|lia].
      destruct (decide (t < num_nodes)) as [Ht|Ht]; [|lia].
      destruct (connect_nodes_returns net num_nodes s t w Hs Ht) as (b & w1 & Hret & _).
      congruence.
Qed.

End ConnectRaises.

(** Node 5 is no node of the three healthy ones. *)
Lemma connect_nodes_raises_only_index_error_witness :
  exists w',
    connect_nodes healthy 3 0 5 initial_world = (Raise IndexError, w')
    /\ tick w' = 0 /\ stdout w' = [].
Proof.
  destruct (proj1 (connect_nodes_raises_only_index_error healthy 3 0 5 initial_world))
    as (w' & Hrun & Htick & Hout & _); [lia|].
  exists w'. split; [exact Hrun|]. split; [exact Htick | exact Hout].
Defined.

(** ** The size of the grid *)

Lemma length_bind_const {A B} (f : A -> list B) (l : list A) (c : nat) :
  (forall x, x ∈ l -> length (f x) = c) -> length (l ≫= f) = length l * c.
Proof.
  induction l as [|x l IH]; intros Hf; [done|].
  rewrite bind_cons, length_app, IH, (Hf x); [cbn; lia|by left|].
  intros y Hy. apply Hf. by right.
Qed.

Lemma grid_row_length size i :
  i < size ->
  length (range size ≫= fun j => cell_edges size i j)
  = (size - 1) * (1 + (if i <? size - 1 then 1 else 0))
    + (if i <? size - 1 then 1 else 0).
Proof.
  intros Hi. destruct size as [|n]; [lia|].
  unfold range. rewrite seq_S.
  rewrite (bind_app (fun j => cell_edges (S n) i j) (seq 0 n) [0 + n]).
  rewrite length_app, bind_singleton.
  rewrite (length_bind_const _ _ (1 + (if i <? S n - 1 then 1 else 0))).
  - rewrite length_seq. replace (S n - 1) with n by lia. f_equal.
    unfold cell_edges. replace (S n - 1) with n by lia.
    rewrite Nat.ltb_irrefl. by destruct (i <? n).
  - intros j [_ Hj]%elem_of_seq. unfold cell_edges.
    assert ((j <? S n - 1) = true) as -> by (apply Nat.ltb_lt; lia).
    rewrite length_app. by destruct (i <? S n - 1).
Qed.

Lemma grid_length size :
  length (range size ≫= fun i => range size ≫= fun j => cell_edges size i j)
  = 2 * size * (size - 1).
Proof.
  destruct size as [|n]; [done|].
  set (row := fun i => range (S n) ≫= fun j => cell_edges (S n) i j).
  unfold range. rewrite seq_S, bind_app, length_app, bind_singleton.
  rewrite (length_bind_const _ _ (2 * n + 1)); subst row; cbv beta.
  - rewrite grid_row_length by lia. rewrite length_seq.
    replace (S n - 1) with n by lia. rewrite Nat.ltb_irrefl. cbn [Nat.add]. lia.
  - intros i [_ Hi]%elem_of_seq. rewrite grid_row_length by lia.
    assert ((i <? S n - 1) = true) as -> by (apply Nat.ltb_lt; lia). lia.
Qed.

(** The attempts of one direction: in a cell, then in the whole grid. *)
Lemma cell_edges_right size i j :
  size <> 1 ->
  filter (fun e : nat * nat => e.2 = e.1 + 1) (cell_edges size i j)
  = if j <? size - 1 then [(i * size + j, i * size + j + 1)] else [].
Proof.
  intros Hsize. unfold cell_edges.
  destruct (j <? size - 1), (i <? size - 1); cbn [app];
    rewrite ?filter_cons, ?filter_nil; repeat case_decide; cbn in *; try done; lia.
Qed.

Lemma cell_edges_down size i j :
  size <> 1 ->
  filter (fun e : nat * nat => e.2 = e.1 + size) (cell_edges size i j)
  = if i <? size - 1 then [(i * size + j, i * size + j + size)] else [].
Proof.
  intros Hsize. unfold cell_edges.
  destruct (j <? size - 1), (i <? size - 1); cbn [app];
    rewrite ?filter_cons, ?filter_nil; repeat case_decide; cbn in *; try done; lia.
Qed.

Lemma length_bind_but_last {B} n (g : nat -> list B) (c : nat) :
  (forall k, k < n - 1 -> length (g k) = c) -> g (n - 1) = [] ->
  length (range n ≫= g) = (n - 1) * c.
Proof.
  intros Hg Hlast. destruct n as [|n]; [done|].
  unfold range. rewrite seq_S, bind_app, length_app, bind_singleton.
  replace (S n - 1) with n in * by lia. cbn [Nat.add]. rewrite Hlast.
  rewrite (length_bind_const _ _ c).
  - rewrite length_seq. cbn. lia.
  - intros k [_ Hk]%elem_of_seq. apply Hg. lia.
Qed.

Lemma grid_right_length size :
  length (filter (fun e : nat * nat => e.2 = e.1 + 1)
            (range size ≫= fun i => range size ≫= fun j => cell_edges size i j))
  = size * (size - 1).
Proof.
  destruct (decide (size = 1)) as [->|Hsize]; [done|].
  rewrite filter_bind.
  rewrite (length_bind_const _ _ (size - 1)).
  - unfold range. by rewrite length_seq.
  - intros i _. rewrite filter_bind.
    rewrite (length_bind_but_last size _ 1); [lia| |].
    + intros j Hj. rewrite cell_edges_right by done.
      by assert ((j <? size - 1) = true) as -> by (apply Nat.ltb_lt; lia).
    + rewrite cell_edges_right by done. by rewrite Nat.ltb_irrefl.
Qed.

Lemma grid_down_length size :
  length (filter (fun e : nat * nat => e.2 = e.1 + size)
            (range size ≫= fun i => range size ≫= fun j => cell_edges size i j))
  = size * (size - 1).
Proof.
  destruct (decide (size = 1)) as [->|Hsize]; [done|].
  rewrite filter_bind.
  rewrite (length_bind_but_last size _ size); [lia| |].
  - intros i Hi. rewrite filter_bind.
    rewrite (length_bind_const _ _ 1).
    + unfold range. rewrite length_seq. lia.
    + intros j _. rewrite cell_edges_down by done.
      by assert ((i <? size - 1) = true) as -> by (apply Nat.ltb_lt; lia).
  - rewrite filter_bind. apply bind_all_nil. intros j _.
    rewrite cell_edges_down by done. by rewrite Nat.ltb_irrefl.
Qed.

(** X3. On [S * S] nodes the grid constructor makes exactly
    [2 * S * (S - 1)] connect attempts, whatever the nodes answer:
    [S * (S - 1)] of them go from a cell to its right neighbour (the next
    index) and [S * (S - 1)] from a cell to the neighbour below it (the
    index [S] further). *)
Theorem grid_attempts_count (net : Network) (size : nat) (w : World) :
  exists w' es,
    create_grid_topology net (size * size) w = (Return tt, w')
    /\ attempts w' = attempts w ++ es
    /\ length es = 2 * size * (size - 1)
    /\ length (filter (fun e : nat * nat => e.2 = e.1 + 1) es) = size * (size - 1)
    /\ length (filter (fun e : nat * nat => e.2 = e.1 + size) es) = size * (size - 1)
    /\ (forall s t, (s, t) ∈ es -> t = s + 1 \/ t = s + size).
Proof.
  destruct (grid_run net (size * size) size w eq_refl) as (w' & Hrun & Ha & _).
  eexists w', _. split; [exact Hrun|]. split; [exact Ha|].
  split; [apply grid_length|]. split; [apply grid_right_length|].
  split; [apply grid_down_length|].
  intros s t (i & j & _ & _ & _ & [[_ ->]|[_ ->]])%grid_elem_of; auto.
Qed.

(** ** Preferential attachment: who can be a target *)

Section BarabasiTargets.

Variable net : Network.
Variable num_nodes : nat.

Lemma choices_stdout targets k w :
  stdout (choices net targets k w).2 = stdout w.
Proof.
  revert w. induction k as [|k IH]; intros w; [done|].
  cbn [choices]. unfold bind at 1, next_random.
  set (w1 := mkWorld _ _ _ _ _). unfold bind at 1.
  specialize (IH w1). destruct (choices net targets k w1) as [[sel|e] w2]; done.
Qed.

(** The new node joins the connected set only through a connect of its
    own that printed "Connected". *)
Lemma barabasi_connect_lines k selected connected w :
  k < num_nodes -> (forall t, t ∈ selected -> t < num_nodes) ->
  exists connected' w' lines,
    barabasi_connect net num_nodes k selected connected w = (Return connected', w')
    /\ attempted w w' ((fun t => (k, t)) <$> selected)
    /\ stdout w' = stdout w ++ lines
    /\ (forall x, x ∈ connected' ->
          x ∈ connected \/ (x = k /\ exists u, Connected k u ∈ lines))
    /\ ((forall u, Connected k u ∉ lines) -> connected' = connected).
Proof.
  intros Hk. revert connected w.
  induction selected as [|t selected IH]; intros connected w Hsel.
  - exists connected, w, []. split; [done|]. split; [apply attempted_refl|].
    split; [by rewrite app_nil_r | auto].
  - cbn [barabasi_connect]. unfold bind at 1.
    destruct (connect_nodes_line net num_nodes k t w)
      as (ok & w1 & l1 & -> & Ha1 & Ho1 & Hl1); [done | apply Hsel; by left |].
    destruct (IH (if ok then set_add k connected else connected) w1)
      as (c' & w2 & l2 & -> & Ha2 & Ho2 & Hsup & Hsame).
    { intros t' Ht'. apply Hsel. by right. }
    exists c', w2, (l1 ++ l2). split; [done|].
    split; [apply (attempted_trans _ _ _ _ _ Ha1 Ha2)|].
    split; [by rewrite Ho2, Ho1, app_assoc|]. split.
    + intros x Hx. destruct (Hsup x Hx) as [Hx'|(-> & u & Hu)].
      * destruct ok; [|by left]. apply elem_of_set_add in Hx' as [Hx' | ->]; [by left|].
        right. split; [done|]. exists t. apply elem_of_app. left. by apply Hl1.
      * right. split; [done|]. exists u. apply elem_of_app. by right.
    + intros Hnone. rewrite Hsame.
      * destruct ok; [|done]. destruct (Hnone t). apply elem_of_app. left. by apply Hl1.
      * intros u Hu. apply (Hnone u), elem_of_app. by right.
Qed.

Lemma barabasi_step_lines (m : Z) k connected w :
  (1 <= m)%Z -> k < num_nodes -> connected <> [] ->
  (forall x, x ∈ connected -> x < k) ->
  exists selected connected' w' lines,
    barabasi_step net num_nodes m k connected w = (Return connected', w')
    /\ attempted w w' ((fun t => (k, t)) <$> selected)
    /\ stdout w' = stdout w ++ lines
    /\ length selected = Nat.min (Z.to_nat m) (length connected)
    /\ (forall t, t ∈ selected -> t ∈ connected)
    /\ connected' <> []
    /\ (forall x, x ∈ connected' ->
          x ∈ connected \/ (x = k /\ exists u, Connected k u ∈ lines))
    /\ ((forall u, Connected k u ∉ lines) -> connected' = connected).
Proof.
  intros Hm Hk Hne Hlt.
  pose proof (choices_stdout connected
                (Z.to_nat (Z.min m (Z.of_nat (length connected)))) w) as Hout1.
  destruct (choices_returns net connected
              (Z.to_nat (Z.min m (Z.of_nat (length connected)))) w Hne)
    as (sel & w1 & Hch & Ha1 & Hl & Hin).
  rewrite Hch in Hout1. cbn in Hout1.
  destruct (barabasi_connect_lines k sel connected w1 Hk)
    as (c' & w2 & lines & Hbc & Ha2 & Ho2 & Hsup & Hsame).
  { intros t Ht%Hin%Hlt. lia. }
  destruct (barabasi_connect_returns net num_nodes k sel connected w1 Hk)
    as (c0 & w0 & Hbc0 & _ & Hsub & _).
  { intros t Ht%Hin%Hlt. lia. }
  assert (c0 = c') as -> by congruence.
  exists sel, c', w2, lines. split.
  { unfold barabasi_step.
    destruct (length connected =? 0) eqn:Hlen.
    { apply Nat.eqb_eq in Hlen. by destruct connected. }
    unfold bind, ret. by rewrite Hch, Hbc. }
  split; [apply (attempted_trans _ _ _ _ _ Ha1 Ha2)|].
  split; [by rewrite Ho2, Hout1|]. split; [lia|]. split; [done|].
  split; [|done].
  intros ->. destruct connected as [|x ?]; [done|].
  specialize (Hsub x ltac:(by left)). by apply elem_of_nil in Hsub.
Qed.

Lemma barabasi_loop_lines (m : Z) a n connected w (before : list ConsoleLine) :
  (1 <= m)%Z -> a + n <= num_nodes -> connected <> [] ->
  (forall x, x ∈ connected -> x < a) ->
  (forall x, x ∈ connected -> x = 0 \/ exists u, Connected x u ∈ before) ->
  exists connected' w' es lines,
    barabasi_loop net num_nodes m (seq a n) connected w = (Return connected', w')
    /\ attempted w w' es
    /\ stdout w' = stdout w ++ lines
    /\ (forall s t, (s, t) ∈ es ->
          t = 0 \/ exists u, Connected t u ∈ before ++ lines)
    /\ (connected = [0] -> (forall s t, Connected s t ∉ lines) ->
        es = (fun k => (k, 0)) <$> seq a n).
Proof.
  intros Hm. revert a connected w before.
  induction n as [|n IH]; intros a connected w before Hn Hne Hlt Hinv.
  - exists connected, w, [], []. split; [done|]. split; [apply attempted_refl|].
    split; [by rewrite app_nil_r|]. split; [by intros s t ?%elem_of_nil | done].
  - cbn [seq barabasi_loop]. unfold bind at 1.
    destruct (barabasi_step_lines m a connected w)
      as (sel & c1 & w1 & l1 & -> & Ha1 & Ho1 & Hlen & Hin & Hne1 & Hsup & Hsame);
      [done|lia|done|done|].
    destruct (IH (S a) c1 w1 (before ++ l1))
      as (c2 & w2 & es & l2 & -> & Ha2 & Ho2 & Hes & Hzero).
    { lia. }
    { done. }
    { intros x [Hx%Hlt|[-> _]]%Hsup; lia. }
    { intros x [Hx%Hinv|[-> (u & Hu)]]%Hsup.
      - destruct Hx as [->|(u & Hu)]; [by left|].
        right. exists u. apply elem_of_app. by left.
      - right. exists u. apply elem_of_app. by right. }
    exists c2, w2, (((fun t => (a, t)) <$> sel) ++ es), (l1 ++ l2). split; [done|].
    split; [apply (attempted_trans _ _ _ _ _ Ha1 Ha2)|].
    split; [by rewrite Ho2, Ho1, app_assoc|]. split.
    + intros s t [(t' & Heq & Ht')%list_elem_of_fmap|Hst%Hes]%elem_of_app.
      * injection Heq as -> ->. apply Hin, Hinv in Ht' as [->|(u & Hu)]; [by left|].
        right. exists u. apply elem_of_app. by left.
      * destruct Hst as [->|(u & Hu)]; [by left|].
        right. exists u. by rewrite app_assoc.
    + intros -> Hnone. cbn [fmap list_fmap]. rewrite Hzero.
      * assert (sel = [0]) as ->; [|done].
        cbn [length] in Hlen. replace (Nat.min (Z.to_nat m) 1) with 1 in Hlen by lia.
        destruct sel as [|t [|? ?]]; try done.
        by specialize (Hin t ltac:(by left)) as ->%list_elem_of_singleton.
      * apply Hsame. intros u Hu. apply (Hnone a u), elem_of_app. by left.
      * intros s t Hst. apply (Hnone s t), elem_of_app. by right.
Qed.

(** X4. Preferential attachment only ever targets node 0 or a node one of
    whose own connects succeeded (printed "Connected") in this run: a node
    all of whose connects failed is never selected by another node. So when
    no connect succeeds, every node [1..N-1] makes one attempt, to node 0,
    whatever [m] is. *)
Theorem barabasi_targets_were_connected (m : Z) (w : World) :
  (1 <= m < Z.of_nat num_nodes)%Z ->
  exists w' es lines,
    create_barabasi_albert_topology net num_nodes m w = (Return tt, w')
    /\ attempts w' = attempts w ++ es
    /\ stdout w' = stdout w ++ Banner "Creating Barabasi-Albert topology..." :: lines
    /\ (forall s t, (s, t) ∈ es -> t = 0 \/ exists u, Connected t u ∈ lines)
    /\ ((forall s t, Connected s t ∉ lines) ->
        es = (fun k => (k, 0)) <$> range2 1 num_nodes).
Proof.
  intros Hm. unfold create_barabasi_albert_topology, bind at 1, print at 1.
  assert ((m <? 1)%Z || (Z.of_nat num_nodes <=? m)%Z = false) as ->.
  { apply orb_false_iff. split; [apply Z.ltb_ge | apply Z.leb_gt]; lia. }
  unfold bind at 1, range2.
  set (w1 := mkWorld _ _ _ _ _).
  destruct (barabasi_loop_lines m 1 (num_nodes - 1) [0] w1 [])
    as (c' & w2 & es & lines & -> & [Ha2 _] & Ho2 & Hes & Hzero); [lia|lia|done| | |].
  { intros x ->%list_elem_of_singleton. lia. }
  { intros x ->%list_elem_of_singleton. by left. }
  exists w2, es, lines. split; [done|]. split; [exact Ha2|].
  split; [by rewrite Ho2; cbn; rewrite <- app_assoc|].
  split; [exact Hes | by apply Hzero].
Qed.

End BarabasiTargets.

(** Three healthy nodes, [m = 2]. *)
Lemma barabasi_targets_were_connected_witness :
  exists w' es (lines : list ConsoleLine),
    create_barabasi_albert_topology healthy 3 2 initial_world = (Return tt, w')
    /\ attempts w' = es
    /\ (forall s t, (s, t) ∈ es -> t = 0 \/ exists u, Connected t u ∈ lines).
Proof.
  destruct (barabasi_targets_were_connected healthy 3 2 initial_world)
    as (w' & es & lines & Hrun & Ha & _ & Hes & _); [lia|].
  exists w', es, lines. split; [exact Hrun|]. split; [exact Ha | exact Hes].
Defined.

(** ** The verifier on a cluster whose answers do not change: the matrix *)

(** X5. On a cluster whose answers do not change during the pass, the
    verifier returns the matrix with [matrix[i][j] = 1] exactly when node
    [i] answers 200 with a session that has a kad stream and whose ["Peer"]
    equals what [get_node_id(j)] gives, and 0 otherwise. The comparison is
    Python's [==]: a node whose identity cannot be fetched ([None]) matches
    a session without a ["Peer"] field. The matrix does not depend on the
    state in which the pass starts: two passes return the same matrix. *)
Theorem verifier_on_stable_cluster (net : Network) (num_nodes : nat)
    (ids : nat -> result string)
    (peers : nat -> result (Z * string * result (list PeerSession))) :
  stable net ids peers ->
  forall w, exists matrix w',
    read_connection_matrix net num_nodes w = (Return matrix, w')
    /\ (forall i j, i < num_nodes -> j < num_nodes ->
          entry matrix i j = Some (if reports ids peers i j then 1 else 0)%Z)
    /\ (forall w2, (read_connection_matrix net num_nodes w2).1 = Return matrix).
Proof.
  intros Hst w.
  destruct (read_connection_matrix_stable net num_nodes ids peers Hst w)
    as (m & w' & Hrun & _ & Hsq & Hm).
  exists m, w'. split; [exact Hrun|]. split; [exact Hm|].
  intros w2.
  destruct (read_connection_matrix_stable net num_nodes ids peers Hst w2)
    as (m2 & w2' & -> & _ & Hsq2 & Hm2).
  cbn. f_equal. apply (square_ext num_nodes); [done|done|].
  intros i j Hi Hj. by rewrite Hm, Hm2.
Qed.

(** On the three healthy nodes the matrix is that of the ring. *)
Lemma verifier_on_stable_cluster_witness :
  exists matrix w',
    read_connection_matrix healthy 3 initial_world = (Return matrix, w')
    /\ entry matrix 0 1 = Some 1%Z /\ entry matrix 0 2 = Some 0%Z
    /\ entry matrix 0 0 = Some 0%Z.
Proof.
  destruct (verifier_on_stable_cluster healthy 3 (post_id healthy 0) (post_swarm_peers healthy 0))
    with (w := initial_world) as (m & w' & Hrun & Hm & _).
  { split; reflexivity. }
  exists m, w'. split; [exact Hrun|].
  split; [|split]; rewrite Hm by lia; reflexivity.
Defined.

(** X6. A verification pass only reads: whatever the nodes answer, it
    attempts no connect, writes no row to the topology log and draws no
    random number. On a cluster whose answers do not change it sends one
    peers request per node and, for every session with a kad stream, one
    identity request to each of the [N] nodes: the identities are fetched
    again for every session. *)
Theorem verifier_only_reads (net : Network) (num_nodes : nat) (w : World) :
  exists matrix w',
    read_connection_matrix net num_nodes w = (Return matrix, w')
    /\ attempts w' = attempts w
    /\ Topology.log_file w' = Topology.log_file w
    /\ rng_pos w' = rng_pos w
    /\ (forall ids peers, stable net ids peers ->
          tick w' = tick w + num_nodes
                    + num_nodes * sum_list_with (fun i => length (kad_sessions (peers i)))
                                                  (range num_nodes)).
Proof.
  destruct (read_connection_matrix_returns net num_nodes w)
    as (m & w' & Hrun & (Ha & Hl & Hr) & _).
  exists m, w'. split; [exact Hrun|]. split; [exact Ha|]. split; [exact Hl|].
  split; [exact Hr|]. intros ids peers Hst.
  destruct (read_connection_matrix_stable net num_nodes ids peers Hst w)
    as (m2 & w2 & Hrun2 & Ht & _).
  congruence.
Qed.

(** On the three healthy nodes: three peers requests, and three identity
    requests for the one kad session of each node. *)
Lemma verifier_only_reads_witness :
  exists matrix w',
    read_connection_matrix healthy 3 initial_world = (Return matrix, w')
    /\ attempts w' = [] /\ tick w' = 12.
Proof.
  destruct (verifier_only_reads healthy 3 initial_world)
    as (m & w' & Hrun & Ha & _ & _ & Ht).
  exists m, w'. split; [exact Hrun|]. split; [exact Ha|].
  rewrite (Ht (post_id healthy 0) (post_swarm_peers healthy 0)); [reflexivity|].
  split; reflexivity.
Defined.

(** ** What a run of the tool does *)

Section MainOutcome.

Variable net : Network.
Variable num_nodes : nat.

Lemma create_topology_outcome kind w :
  exists r w', create_topology net num_nodes kind w = (r, w')
    /\ Topology.log_file w' = Topology.log_file w
    /\ ((~ rejected num_nodes kind /\ r = Return tt)
        \/ (rejected num_nodes kind /\ attempts w' = attempts w
            /\ exists msg, r = Raise (ValueError msg))).
Proof.
  destruct kind; unfold create_topology, rejected.
  - destruct (ring_run net num_nodes w) as (w' & -> & [_ Hl]).
    eexists _, _. split; [done|]. split; [done|]. left. by split; [intros []|].
  - destruct (decide (isqrt num_nodes * isqrt num_nodes = num_nodes)) as [Hsq|Hns].
    + destruct (grid_run net num_nodes _ w Hsq) as (w' & -> & [_ Hl]).
      eexists _, _. split; [done|]. split; [done|]. left.
      split; [|done]. intros Hrej. by apply (Hrej (isqrt num_nodes)).
    + assert (Hrej : forall size, size * size <> num_nodes).
      { intros size Hsq. apply Hns. unfold isqrt. subst num_nodes.
        by rewrite Nat.sqrt_square. }
      destruct (grid_rejects net num_nodes w Hrej) as (msg & w' & -> & [Ha Hl]).
      eexists _, _. split; [done|]. split; [done|]. right.
      split; [done|]. split; [by rewrite Ha, app_nil_r | by exists msg].
  - destruct (mesh_run net num_nodes w) as (w' & -> & [_ Hl]).
    eexists _, _. split; [done|]. split; [done|]. left. by split; [intros []|].
  - destruct (decide (1 <= 2 < Z.of_nat num_nodes)%Z) as [Hm|Hm].
    + destruct (barabasi_run net num_nodes 2 w Hm) as (w' & es & -> & [_ Hl] & _).
      eexists _, _. split; [done|]. split; [done|]. left. split; [lia | done].
    + destruct (barabasi_rejects net num_nodes 2 w) as (msg & w' & -> & [Ha Hl]); [lia|].
      eexists _, _. split; [done|]. split; [done|]. right.
      split; [lia|]. split; [by rewrite Ha, app_nil_r | by exists msg].
Qed.

(** X7. One run of the tool. With [--matrix] nothing is built, even when a
    topology is named as well: the pass is made and logged as
    [matrix_read]. Without any action the tool logs [invalid_args] and
    returns normally. With a topology, the run fails exactly on the node
    counts the constructor refuses (a grid on a count that is no perfect
    square, preferential attachment on at most two nodes): the
    [ValueError] is logged as [error]/[failed] with its message and raised
    again, and no connect has been attempted; otherwise the topology is
    built, verified and logged as [topology_<name>]. In every case the run
    appends one row, which carries the node count. *)
Theorem main_outcome (topology : option TopologyKind) (matrix : bool) (w : World) :
  exists r w' row,
    main net num_nodes topology matrix w = (r, w')
    /\ Topology.log_file w'
       = (match topology with Some _ => [] | None => Topology.log_file w end) ++ [row]
    /\ row_num_nodes row = num_nodes
    /\ match matrix, topology with
       | true, _ =>
           r = Return tt /\ attempts w' = attempts w
           /\ row_action row = "matrix_read" /\ row_status row = "completed"
       | false, None =>
           r = Return tt /\ attempts w' = attempts w
           /\ row_action row = "invalid_args" /\ row_status row = "error"
           /\ row_details row = "No action specified"
       | false, Some kind =>
           (rejected num_nodes kind
            /\ attempts w' = attempts w
            /\ exists msg, r = Raise (ValueError msg)
                           /\ row_action row = "error" /\ row_status row = "failed"
                           /\ row_details row = "ValueError: " +:+ msg)
           \/ (~ rejected num_nodes kind
               /\ r = Return tt
               /\ row_action row = "topology_" +:+ topology_name kind
               /\ row_status row = "completed")
       end.
Proof.
  unfold main, bind at 1, init_manager.
  set (w0 := mkWorld _ _ _ _ _).
  assert (Hw0 : Topology.log_file w0
                = match topology with Some _ => [] | None => Topology.log_file w end).
  { subst w0. by destruct topology. }
  assert (Ha0 : attempts w0 = attempts w) by done.
  clearbody w0. rewrite <- Hw0, <- Ha0. clear Hw0 Ha0 w.
  assert (Hread : forall w1, Topology.log_file w1 = Topology.log_file w0 -> forall action,
            exists w' row,
              try_except
                (read_connection_matrix net num_nodes ;;;
                 log_execution num_nodes action "completed" "")
                (fun e => log_execution num_nodes "error" "failed" (exn_details e) ;;;
                          raise e) w1 = (Return tt, w')
              /\ Topology.log_file w' = Topology.log_file w0 ++ [row]
              /\ row_num_nodes row = num_nodes
              /\ attempts w' = attempts w1
              /\ row_action row = action /\ row_status row = "completed").
  { intros w1 Hw1 action. unfold try_except, bind at 1.
    destruct (read_connection_matrix_returns net num_nodes w1)
      as (m & w2 & -> & (Ha & Hl & _) & _).
    eexists _, _. split; [reflexivity|]. cbn.
    rewrite Hl, Hw1, Ha. done. }
  destruct matrix.
  { destruct (Hread w0 eq_refl "matrix_read") as (w' & row & Hrun & Hl & Hnum & Ha & Hact & Hst).
    exists (Return tt), w', row. by destruct topology. }
  destruct topology as [kind|].
  - destruct (create_topology_outcome kind w0)
      as (r & w1 & Hrun & Hl & [[Hok ->]|(Hrej & Ha & msg & ->)]).
    + destruct (Hread w1 Hl ("topology_" +:+ topology_name kind))
        as (w' & row & Hrun' & Hl' & Hnum & Ha' & Hact & Hst).
      exists (Return tt), w', row. split.
      { revert Hrun'. unfold try_except, bind at 1 3. by rewrite Hrun. }
      split; [done|]. split; [done|]. right. done.
    + eexists _, _, _. split.
      { unfold try_except, bind at 1. rewrite Hrun. reflexivity. }
      cbn. rewrite Hl. split; [reflexivity|]. split; [reflexivity|]. left.
      split; [done|]. split; [done|]. by exists msg.
  - eexists _, _, _. split; [reflexivity|]. cbn. done.
Qed.

End MainOutcome.

(** ** The payload of an upload *)

Lemma generate_chunks_total fuel remaining s :
  (remaining <= Z.of_nat fuel * chunk_size)%Z ->
  exists s',
    generate_chunks fuel remaining s = (Return (Z.max 0 remaining), s')
    /\ py_pos s' = py_pos s + Z.to_nat ((remaining + chunk_size - 1) / chunk_size)
    /\ np_pos s' = np_pos s
    /\ same_files s s'.
Proof.
  revert remaining s. induction fuel as [|fuel IH]; intros remaining s Hfuel.
  - exists s. cbn [generate_chunks]. unfold ret, chunk_size in *.
    split; [f_equal; f_equal; lia|]. split; [|by split; [|apply same_files_refl]].
    assert ((remaining + 1024 * 1024 * 10 - 1) / (1024 * 1024 * 10) < 1)%Z; [|lia].
    apply Z.div_lt_upper_bound; lia.
  - cbn [generate_chunks]. destruct (0 <? remaining)%Z eqn:Hpos.
    + apply Z.ltb_lt in Hpos. unfold bind at 1, randbytes at 1.
      set (s1 := mkSim _ _ _ _ _ _).
      destruct (IH (remaining - Z.min chunk_size remaining)%Z s1)
        as (s2 & Hrun & Hpy & Hnp & Hsame).
      { unfold chunk_size in *. lia. }
      unfold bind at 1. rewrite Hrun. exists s2. unfold ret.
      split; [f_equal; f_equal; unfold chunk_size; lia|].
      split; [|split; [by rewrite Hnp|]].
      * rewrite Hpy. subst s1. cbn [py_pos]. unfold chunk_size.
        destruct (Z.le_gt_cases remaining (1024 * 1024 * 10)) as [Hle|Hgt].
        -- rewrite Z.min_r by lia.
           replace (remaining - remaining + 1024 * 1024 * 10 - 1)%Z
             with (1024 * 1024 * 10 - 1)%Z by lia.
           assert ((remaining + 1024 * 1024 * 10 - 1) / (1024 * 1024 * 10) = 1)%Z as ->.
           { symmetry. apply Z.div_unique with (r := (remaining - 1)%Z); lia. }
           replace ((1024 * 1024 * 10 - 1) / (1024 * 1024 * 10))%Z with 0%Z by reflexivity.
           lia.
        -- rewrite Z.min_l by lia.
           replace (remaining + 1024 * 1024 * 10 - 1)%Z
             with ((remaining - 1024 * 1024 * 10 + 1024 * 1024 * 10 - 1)
                   + 1 * (1024 * 1024 * 10))%Z by lia.
           rewrite Z.div_add by lia.
           assert (0 <= (remaining - 1024 * 1024 * 10 + 1024 * 1024 * 10 - 1)
                        / (1024 * 1024 * 10))%Z by (apply Z.div_pos; lia).
           lia.
      * eapply same_files_trans; [|exact Hsame]. by repeat split.
    + apply Z.ltb_ge in Hpos. exists s. unfold ret.
      split; [f_equal; f_equal; lia|]. split; [|by split; [|apply same_files_refl]].
      assert ((remaining + chunk_size - 1) / chunk_size < 1)%Z; [|lia].
      unfold chunk_size. apply Z.div_lt_upper_bound; lia.
Qed.

(** X8. [generate_random_file] ends for every size: it returns a payload of
    exactly [size_bytes] bytes (none for a negative size), made of
    [ceil(size_bytes / 10 MiB)] chunks, each a separate draw of
    [random.randbytes], so the number of draws a later operation finds
    consumed depends on the sizes of the uploads before it. *)
Theorem generate_random_file_length (size_bytes : Z) (s : Sim) :
  exists s',
    generate_random_file size_bytes s = (Return (Z.max 0 size_bytes), s')
    /\ py_pos s' = py_pos s + Z.to_nat ((size_bytes + chunk_size - 1) / chunk_size)
    /\ np_pos s' = np_pos s
    /\ uploaded_files s' = uploaded_files s
    /\ Simulator.log_file s' = Simulator.log_file s
    /\ requests s' = requests s.
Proof.
  destruct (generate_chunks_total
              (Z.to_nat ((size_bytes + chunk_size - 1) / chunk_size)) size_bytes s)
    as (s' & Hrun & Hpy & Hnp & Hu & Hl & _ & Hr).
  - unfold chunk_size.
    destruct (Z.le_gt_cases size_bytes 0) as [Hle|Hgt].
    + assert (0 <= Z.of_nat (Z.to_nat ((size_bytes + 1024 * 1024 * 10 - 1)
                                        / (1024 * 1024 * 10))))%Z by lia.
      lia.
    + rewrite Z2Nat.id by (apply Z.div_pos; lia).
      pose proof (Z.mul_div_le (size_bytes + 1024 * 1024 * 10 - 1) (1024 * 1024 * 10)
                    ltac:(lia)).
      pose proof (Z.mod_pos_bound (size_bytes + 1024 * 1024 * 10 - 1) (1024 * 1024 * 10)
                    ltac:(lia)).
      pose proof (Z.div_mod (size_bytes + 1024 * 1024 * 10 - 1) (1024 * 1024 * 10)
                    ltac:(lia)).
      lia.
  - exists s'. unfold generate_random_file. done.
Qed.

(** ** Operations, from start to end *)

Section Outcome.

Variable rng : Randomness.
Variable num_nodes : nat.
Variables mean_size max_size : Z.

(** The start of an operation: what it leaves, and when it raises. *)
Lemma run_operation_begin_outcome now s :
  exists r s',
    run_operation_begin rng num_nodes mean_size max_size now s = (r, s')
    /\ uploaded_files s' = uploaded_files s
    /\ Simulator.log_file s' = Simulator.log_file s
    /\ tasks s' = tasks s
    /\ match r with
       | Return t =>
           awaiting t = true /\ in_range num_nodes max_size t
           /\ requests s' = S (requests s) /\ 1 <= num_nodes
           /\ (forall n c st, t = Downloading n c st -> c ∈ uploaded_files s)
           /\ (uploaded_files s = [] -> (0 <= mean_size)%Z)
       | Raise e =>
           requests s' = requests s /\ (exists msg, e = ValueError msg)
           /\ (num_nodes = 0 \/ (mean_size < 0)%Z)
       end.
Proof.
  unfold run_operation_begin, bind at 1, get_uploaded.
  unfold bind at 1.
  destruct (randint_same rng 0 (Z.of_nat (length (uploaded_files s)) + 1) s)
    as (rop & s1 & -> & Hs1 & Hop & Hopr).
  destruct Hopr as [op ->]; [lia|].
  specialize (Hop op eq_refl).
  unfold bind at 1.
  destruct (randint_same rng 0 (Z.of_nat num_nodes - 1) s1)
    as (rn & s2 & Hrn & Hs2 & Hn & Hnr).
  pose proof (same_files_trans _ _ _ Hs1 Hs2) as Hs12.
  destruct rn as [nd|e].
  2: { rewrite Hrn. destruct Hs12 as (?&?&?&?). eexists _, _. split; [done|].
       split_and!; try done.
       - revert Hrn. unfold randint. destruct (_ <? _)%Z; [|done].
         intros [= <- _]. by eexists.
       - left. destruct num_nodes; [done|]. destruct Hnr as [? [=]]. lia. }
  rewrite Hrn. specialize (Hn nd eq_refl).
  destruct (is_upload_slot (uploaded_files s) op) eqn:Hslot.
  - unfold bind at 1.
    destruct (np_random_exponential_same rng (inject_Z mean_size) s2)
      as (rx & s3 & Hrx & Hs3 & Hx & Hxr).
    pose proof (same_files_trans _ _ _ Hs12 Hs3) as Hs13.
    destruct rx as [x|e].
    2: { rewrite Hrx. destruct Hs13 as (?&?&?&?). eexists _, _. split; [done|].
         split_and!; try done.
         - revert Hrx. unfold np_random_exponential. destruct (Qle_bool _ _).
           + by destruct (np_standard_exponential _ _).
           + intros [= <- _]. by eexists.
         - right. destruct (Z.lt_ge_cases mean_size 0) as [?|Hge]; [done|].
           destruct Hxr as [? [=]]. unfold Qle. cbn. lia. }
    rewrite Hrx. destruct (Hx x eq_refl) as [Hscale Hx0].
    assert (Hfloor : (0 <= Qfloor x)%Z).
    { change 0%Z with (Qfloor 0). by apply Qfloor_resp_le. }
    assert (Hmean : (0 <= mean_size)%Z).
    { unfold Qle in Hscale. cbn in Hscale. lia. }
    unfold upload_file_begin, bind at 1.
    destruct (subscript_node_range num_nodes nd s3 Hn) as [-> Hnd].
    unfold bind at 1, generate_random_file.
    destruct (generate_chunks_same
                (Z.to_nat ((Z.min (Qfloor x) max_size + chunk_size - 1) / chunk_size))
                (Z.min (Qfloor x) max_size) s3) as (len & s4 & -> & Hs4).
    destruct (same_files_trans _ _ _ Hs13 Hs4) as (?&?&?&?).
    eexists _, _. split; [done|]. cbn. split_and!; try done; try lia.
  - unfold is_upload_slot in Hslot. apply Z.leb_gt in Hslot.
    destruct (uploaded_files s !! Z.to_nat op) as [c|] eqn:Hc.
    2: { apply lookup_ge_None in Hc. lia. }
    unfold download_file_begin, bind at 1.
    destruct (subscript_node_range num_nodes nd s2 Hn) as [-> Hnd].
    destruct Hs12 as (?&?&?&?).
    eexists _, _. split; [done|]. cbn. split_and!; try done; try lia.
    + intros n c' st [= _ <- _]. by eapply list_elem_of_lookup_2.
    + intros Hnil. rewrite Hnil in Hc. by rewrite lookup_nil in Hc.
Qed.

#[local] Abbreviation step' := (Simulator.step rng num_nodes mean_size max_size).
#[local] Abbreviation gather'' := (Simulator.gather rng num_nodes mean_size max_size).

(** The three things a step can be. *)
Lemma step_cases ev s :
  step' ev s = s
  \/ (exists i now delay r s1,
        ev = Wake i now /\ tasks s !! i = Some (Sleeping delay)
        /\ run_operation_begin rng num_nodes mean_size max_size now s = (r, s1)
        /\ step' ev s
           = set_tasks (<[i := match r with Return t => t | Raise e => Crashed e end]>
                          (tasks s1)) s1)
  \/ (exists i now reply task r s1,
        ev = Respond i now reply /\ tasks s !! i = Some task /\ awaiting task = true
        /\ run_operation_end now task reply s = (r, s1)
        /\ ~ (reply = AnsweredNull /\ exists n c st, task = Downloading n c st)
        /\ step' ev s
           = set_tasks (<[i := match r with Return _ => Done | Raise e => Crashed e end]>
                          (tasks s1)) s1).
Proof.
  destruct ev as [i now|i now reply].
  - unfold Simulator.step.
    destruct (tasks s !! i) as [[delay| | | |]|] eqn:Hi; try by left.
    destruct (Qle_bool delay now); [|by left].
    right. left.
    destruct (run_operation_begin rng num_nodes mean_size max_size now s) as [r s1] eqn:Hr.
    exists i, now, delay, r, s1. done.
  - destruct (tasks s !! i) as [task|] eqn:Hi;
      [|left; unfold Simulator.step; by rewrite Hi].
    destruct (awaiting task) eqn:Haw;
      [|left; unfold Simulator.step; rewrite Hi; by destruct task].
    destruct (step_respond_cases rng num_nodes mean_size max_size s i now reply task
                Hi Haw) as [(Hsame & _)|[Hstep Hfits]]; [by left|].
    right. right.
    destruct (run_operation_end now task reply s) as [r s1] eqn:Hr.
    exists i, now, reply, task, r, s1. split_and!; try done.
Qed.

(** What every step keeps, every run keeps. *)
Lemma gather_final_preserves (I : Sim -> Prop) schedule s :
  (forall ev st, ev ∈ schedule -> I st -> I (step' ev st)) ->
  I s -> I (final_state (gather'' schedule s)).
Proof.
  revert s. induction schedule as [|ev schedule IH]; intros s Hstep Hs.
  - cbn. destruct (first_crash (tasks s)); [done|]. by destruct (all_done (tasks s)).
  - cbn [Simulator.gather].
    destruct (first_crash (tasks s)); [done|].
    destruct (all_done (tasks s)); [done|].
    apply IH.
    + intros ev' st Hev. apply Hstep. by right.
    + apply Hstep; [by left | done].
Qed.

Lemma gather_propagated schedule s e s' :
  gather'' schedule s = Propagated e s' -> Crashed e ∈ tasks s'.
Proof.
  revert s. induction schedule as [|ev schedule IH]; intros s; cbn [Simulator.gather].
  - destruct (first_crash (tasks s)) as [e0|] eqn:Hc.
    + intros [= <- <-]. unfold first_crash in Hc.
      apply head_Some_elem_of, list_elem_of_omap in Hc as (t & Ht & Hte).
      by destruct t; simplify_eq.
    + by destruct (all_done (tasks s)).
  - destruct (first_crash (tasks s)) as [e0|] eqn:Hc.
    + intros [= <- <-]. unfold first_crash in Hc.
      apply head_Some_elem_of, list_elem_of_omap in Hc as (t & Ht & Hte).
      by destruct t; simplify_eq.
    + destruct (all_done (tasks s)); [done | apply IH].
Qed.

End Outcome.

(** ** Every run, row by row *)

Lemma completion_row_well_formed num_nodes max_size now task reply row :
  in_range num_nodes max_size task ->
  completion_row now task reply = Some row ->
  well_formed num_nodes max_size row.
Proof.
  intros Hr Hrow. destruct task as [| n sz st | n c st | |]; try done.
  - destruct Hr as [Hn Hsz].
    destruct reply as [c| |e]; [| |destruct e]; cbn in Hrow; simplify_eq; by split.
  - destruct reply as [content| |e]; [| |destruct e]; cbn in Hrow; simplify_eq;
      (split; [done|]); cbn; (split; [lia | done]).
Qed.

Lemma completion_row_cid now task reply :
  reply <> AnsweredNull ->
  omap uploaded_cid (option_list (completion_row now task reply))
  = option_list (completion_cid task reply).
Proof.
  intros Hnull. destruct task as [| n sz st | n c st | |]; try done;
    (destruct reply as [c'| |e]; [| |destruct e]; done).
Qed.

Lemma completion_cid_sublist now task reply :
  option_list (completion_cid task reply)
  `sublist_of` omap uploaded_cid (option_list (completion_row now task reply)).
Proof.
  destruct task as [| n sz st | n c st | |]; try done;
    (destruct reply as [c'| |e]; [| |destruct e]; cbn; try done).
  by apply sublist_cons.
Qed.

Lemma run_operation_end_raises now task reply s e s' :
  awaiting task = true ->
  run_operation_end now task reply s = (Raise e, s') ->
  Simulator.log_file s' = Simulator.log_file s
  /\ uploaded_files s' = uploaded_files s
  /\ requests s' = requests s /\ tasks s' = tasks s
  /\ ((reply = Failed e /\ e <> TimeoutError)
      \/ (reply = AnsweredNull /\ exists n c st, task = Downloading n c st)).
Proof.
  intros Haw. destruct task as [| n sz st | n c st | |]; try done;
    (destruct reply as [c'| |e']; [| |destruct e']; cbn; intros [= <- <-];
     split_and!; try done; eauto 10).
Qed.

Section Rows.

Variable rng : Randomness.
Variable num_nodes : nat.
Variables mean_size max_size : Z.

#[local] Abbreviation step'' := (Simulator.step rng num_nodes mean_size max_size).

Lemma step_rows_well_formed s0 ev st :
  (exists rows, Simulator.log_file st = Simulator.log_file s0 ++ rows
                /\ Forall (well_formed num_nodes max_size) rows)
  /\ Forall (in_range num_nodes max_size) (tasks st) ->
  (exists rows, Simulator.log_file (step'' ev st) = Simulator.log_file s0 ++ rows
                /\ Forall (well_formed num_nodes max_size) rows)
  /\ Forall (in_range num_nodes max_size) (tasks (step'' ev st)).
Proof.
  intros [(rows & Hlog & Hwf) Htasks].
  destruct (step_cases rng num_nodes mean_size max_size ev st)
    as [->|[(i & now & delay & r & s1 & -> & Hi & Hrun & ->)
           |(i & now & reply & task & r & s1 & -> & Hi & Haw & Hrun & Hfits & ->)]].
  - split; [by exists rows | done].
  - destruct (run_operation_begin_outcome rng num_nodes mean_size max_size now st)
      as (r' & s1' & Hrun' & Hu & Hl & Ht & Hr).
    rewrite Hrun in Hrun'. injection Hrun' as <- <-.
    unfold set_tasks. cbn [Simulator.log_file uploaded_files tasks].
    rewrite Hl, Ht. split; [by exists rows|].
    apply Forall_insert; [done|]. destruct r as [t|e]; [|done]. apply Hr.
  - destruct (run_operation_end_effect now task reply st Haw)
      as (r' & s1' & Hrun' & Hl & Hu & Ht & _).
    rewrite Hrun in Hrun'. injection Hrun' as <- <-.
    unfold set_tasks. cbn [Simulator.log_file uploaded_files tasks].
    rewrite Hl, Ht. split.
    + exists (rows ++ option_list (completion_row now task reply)).
      split; [by rewrite Hlog, app_assoc|].
      apply Forall_app. split; [done|].
      destruct (completion_row now task reply) as [row|] eqn:Hrow; [|done].
      apply Forall_singleton.
      eapply completion_row_well_formed; [|exact Hrow].
      by eapply (Forall_lookup_1 _ _ _ _ Htasks).
    + apply Forall_insert; [done|]. by destruct r.
Qed.

Lemma run_rows_well_formed num_operations mean_delay schedule s :
  exists rows,
    let s' := final_state (run_seeded rng num_nodes num_operations mean_size
                                      max_size mean_delay schedule s) in
    Simulator.log_file s' = Simulator.log_file s ++ rows
    /\ Forall (well_formed num_nodes max_size) rows.
Proof.
  unfold run_seeded.
  destruct (create_tasks_cases rng mean_delay num_operations (reseed s))
    as [(offsets & s1 & -> & (Hu & Hl & Ht & Hq) & Hlen)|(e & -> & Hneg)].
  - set (s2 := set_tasks (Sleeping <$> offsets) s1).
    destruct (gather_final_preserves rng num_nodes mean_size max_size
                (fun st =>
                   (exists rows, Simulator.log_file st = Simulator.log_file s2 ++ rows
                      /\ Forall (well_formed num_nodes max_size) rows)
                   /\ Forall (in_range num_nodes max_size) (tasks st))
                schedule s2) as [(rows & Hlog & Hwf) _].
    + intros ev st _. apply step_rows_well_formed.
    + split; [exists []; by rewrite !app_nil_r|].
      subst s2. cbn. apply Forall_fmap, Forall_true. done.
    + exists rows. cbn zeta. rewrite Hlog. subst s2. cbn. by rewrite Hl.
  - exists []. cbn. by rewrite app_nil_r.
Qed.

(** The collection against the rows: what is appended is the identifier of
    a row just written, and every successful upload row but that of a null
    ["Hash"] appends its identifier. *)
Lemma step_collection (schedule : list Event) s0 ev st :
  ev ∈ schedule ->
  (exists rows cids,
      Simulator.log_file st = Simulator.log_file s0 ++ rows
      /\ uploaded_files st = uploaded_files s0 ++ cids
      /\ cids `sublist_of` omap uploaded_cid rows
      /\ ((forall i now, Respond i now AnsweredNull ∉ schedule) ->
          cids = omap uploaded_cid rows)) ->
  exists rows cids,
    Simulator.log_file (step'' ev st) = Simulator.log_file s0 ++ rows
    /\ uploaded_files (step'' ev st) = uploaded_files s0 ++ cids
    /\ cids `sublist_of` omap uploaded_cid rows
    /\ ((forall i now, Respond i now AnsweredNull ∉ schedule) ->
        cids = omap uploaded_cid rows).
Proof.
  intros Hev (rows & cids & Hlog & Hup & Hsub & Heq).
  destruct (step_cases rng num_nodes mean_size max_size ev st)
    as [->|[(i & now & delay & r & s1 & -> & Hi & Hrun & ->)
           |(i & now & reply & task & r & s1 & -> & Hi & Haw & Hrun & Hfits & ->)]].
  - by exists rows, cids.
  - destruct (run_operation_begin_outcome rng num_nodes mean_size max_size now st)
      as (r' & s1' & Hrun' & Hu & Hl & Ht & Hr).
    rewrite Hrun in Hrun'. injection Hrun' as <- <-.
    unfold set_tasks. cbn [Simulator.log_file uploaded_files].
    rewrite Hl, Hu. by exists rows, cids.
  - destruct (run_operation_end_effect now task reply st Haw)
      as (r' & s1' & Hrun' & Hl & Hu & Ht & _).
    rewrite Hrun in Hrun'. injection Hrun' as <- <-.
    unfold set_tasks. cbn [Simulator.log_file uploaded_files].
    rewrite Hl, Hu.
    exists (rows ++ option_list (completion_row now task reply)),
           (cids ++ option_list (completion_cid task reply)).
    split; [by rewrite Hlog, app_assoc|]. split; [by rewrite Hup, app_assoc|].
    rewrite omap_app. split.
    + apply sublist_app; [done | apply completion_cid_sublist].
    + intros Hnull. rewrite Heq by done. f_equal. symmetry.
      apply completion_row_cid. intros ->. by apply (Hnull i now).
Qed.

Lemma run_collection num_operations mean_delay schedule s :
  exists rows,
    let s' := final_state (run_seeded rng num_nodes num_operations mean_size
                                      max_size mean_delay schedule s) in
    Simulator.log_file s' = Simulator.log_file s ++ rows
    /\ uploaded_files s' `sublist_of` omap uploaded_cid rows
    /\ ((forall i now, Respond i now AnsweredNull ∉ schedule) ->
        uploaded_files s' = omap uploaded_cid rows).
Proof.
  unfold run_seeded.
  destruct (create_tasks_cases rng mean_delay num_operations (reseed s))
    as [(offsets & s1 & -> & (Hu & Hl & Ht & Hq) & Hlen)|(e & -> & Hneg)].
  - set (s2 := set_tasks (Sleeping <$> offsets) s1).
    destruct (gather_final_preserves rng num_nodes mean_size max_size
                (fun st =>
                   exists rows cids,
                     Simulator.log_file st = Simulator.log_file s2 ++ rows
                     /\ uploaded_files st = uploaded_files s2 ++ cids
                     /\ cids `sublist_of` omap uploaded_cid rows
                     /\ ((forall i now, Respond i now AnsweredNull ∉ schedule) ->
                         cids = omap uploaded_cid rows))
                schedule s2) as (rows & cids & Hlog & Hup & Hsub & Heq).
    + intros ev st Hev. by apply step_collection.
    + exists [], []. by rewrite !app_nil_r.
    + exists rows. cbn zeta. rewrite Hlog, Hup. subst s2. cbn. rewrite Hl, Hu. cbn.
      split; [done|]. split; [done|]. exact Heq.
  - exists []. cbn. by rewrite app_nil_r.
Qed.

End Rows.

(** X9. Every row that a run writes is well formed, whatever the schedule
    and the replies: its node is a node of the cluster; an upload row
    carries a size between [min(0, max_size)] and [max_size], and the
    identifier "error" when it failed; a download row carries a
    non-negative size, 0 when it failed. *)
Theorem rows_are_well_formed (seeded : Z -> Randomness) (num_nodes : nat)
    (seed : Z) (num_operations : nat) (mean_size max_size : Z) (mean_delay : Q)
    (schedule : list Event) (s : Sim) :
  exists rows,
    Simulator.log_file
      (final_state (run_simulation seeded num_nodes seed num_operations mean_size
                      max_size mean_delay schedule s))
    = Simulator.log_file s ++ rows
    /\ Forall (well_formed num_nodes max_size) rows.
Proof.
  destruct (run_simulation_cases seeded num_nodes seed num_operations mean_size
              max_size mean_delay schedule s) as [[_ ->]|[_ ->]].
  - destruct (run_rows_well_formed (seeded seed) num_nodes mean_size max_size
                num_operations mean_delay schedule s) as (rows & Hlog & Hwf).
    by exists rows.
  - exists []. cbn. by rewrite app_nil_r.
Qed.

(** X10. At every point of every run the shared collection is a part of
    the list of the identifiers of the successful upload rows written so
    far, in the order of the rows. It is exactly that list when no upload is
    answered with a null ["Hash"]: such an answer is logged as a successful
    upload (with an empty identifier), but nothing is appended for it. *)
Theorem collection_is_successful_uploads (seeded : Z -> Randomness) (num_nodes : nat)
    (seed : Z) (num_operations : nat) (mean_size max_size : Z) (mean_delay : Q)
    (schedule : list Event) (s : Sim) :
  exists rows,
    let s' := final_state (run_simulation seeded num_nodes seed num_operations
                             mean_size max_size mean_delay schedule s) in
    Simulator.log_file s' = Simulator.log_file s ++ rows
    /\ uploaded_files s' `sublist_of` omap uploaded_cid rows
    /\ ((forall i now, Respond i now AnsweredNull ∉ schedule) ->
        uploaded_files s' = omap uploaded_cid rows).
Proof.
  destruct (run_simulation_cases seeded num_nodes seed num_operations mean_size
              max_size mean_delay schedule s) as [[_ ->]|[_ ->]].
  - apply (run_collection (seeded seed) num_nodes mean_size max_size).
  - exists []. cbn. by rewrite app_nil_r.
Qed.

(** An upload answered with a null ["Hash"] is logged and appends nothing;
    the download of an identifier uploaded before follows its row. *)
Lemma collection_is_successful_uploads_witness :
  (exists rows,
     let s' := final_state (run_simulation steady 16 42 1 100 1000 (1 # 2)
                              [Wake 0 1; Respond 0 3 AnsweredNull] new_simulator) in
     Simulator.log_file s' = rows /\ omap uploaded_cid rows = [""]
     /\ uploaded_files s' = []
     /\ uploaded_files s' `sublist_of` omap uploaded_cid rows)
  /\ (exists rows,
        let s' := final_state (run_simulation steady 16 42 1 100 1000 (1 # 2)
                                 [Wake 0 1; Respond 0 3 (Answered "QmX")]
                                 new_simulator) in
        Simulator.log_file s' = rows /\ uploaded_files s' = omap uploaded_cid rows
        /\ uploaded_files s' = ["QmX"]).
Proof.
  split.
  - destruct (collection_is_successful_uploads steady 16 42 1 100 1000 (1 # 2)
                [Wake 0 1; Respond 0 3 AnsweredNull] new_simulator)
      as (rows & Hlog & Hsub & _).
    exists rows. cbn zeta in *. split; [exact Hlog|].
    split; [|split; [reflexivity | exact Hsub]].
    cbn in Hlog. rewrite <- Hlog. reflexivity.
  - destruct (collection_is_successful_uploads steady 16 42 1 100 1000 (1 # 2)
                [Wake 0 1; Respond 0 3 (Answered "QmX")] new_simulator)
      as (rows & Hlog & _ & Heq).
    exists rows. cbn zeta in *. split; [exact Hlog|].
    split; [|reflexivity]. apply Heq.
    intros i now Hin. repeat (apply elem_of_cons in Hin as [[=]|Hin]).
    by apply elem_of_nil in Hin.
Defined.

(** ** Requests and rows *)

Section Requests.

Variable rng : Randomness.
Variable num_nodes : nat.
Variables mean_size max_size : Z.

#[local] Abbreviation step3 := (Simulator.step rng num_nodes mean_size max_size).

(** Every task that is in its request, or done, has sent its request. *)
Lemma step_requests_sent (base : nat) ev st :
  base + count awaiting (tasks st) + count is_done (tasks st) <= requests st ->
  base + count awaiting (tasks (step3 ev st)) + count is_done (tasks (step3 ev st))
  <= requests (step3 ev st).
Proof.
  intros Hinv.
  destruct (step_cases rng num_nodes mean_size max_size ev st)
    as [->|[(i & now & delay & r & s1 & -> & Hi & Hrun & ->)
           |(i & now & reply & task & r & s1 & -> & Hi & Haw & Hrun & Hfits & ->)]].
  - done.
  - destruct (run_operation_begin_outcome rng num_nodes mean_size max_size now st)
      as (r' & s1' & Hrun' & _ & _ & Ht & Hr).
    rewrite Hrun in Hrun'. injection Hrun' as <- <-.
    unfold set_tasks. cbn [tasks requests]. rewrite Ht.
    set (t' := match r with Return t => t | Raise e => Crashed e end).
    pose proof (count_insert awaiting _ _ _ t' Hi) as Hca.
    pose proof (count_insert is_done _ _ _ t' Hi) as Hcd.
    cbn in Hca, Hcd. subst t'. destruct r as [t|e].
    + destruct Hr as (Hawt & _ & Hreq & _). rewrite Hawt in Hca.
      assert (is_done t = false) as Hd by (by destruct t).
      rewrite Hd in Hcd. cbn in Hca, Hcd. lia.
    + destruct Hr as (Hreq & _). cbn in Hca, Hcd. lia.
  - destruct (run_operation_end_effect now task reply st Haw)
      as (r' & s1' & Hrun' & _ & _ & Ht & Hq & _).
    rewrite Hrun in Hrun'. injection Hrun' as <- <-.
    unfold set_tasks. cbn [tasks requests]. rewrite Ht, Hq.
    set (t' := match r with Return _ => Done | Raise e => Crashed e end).
    pose proof (count_insert awaiting _ _ _ t' Hi) as Hca.
    pose proof (count_insert is_done _ _ _ t' Hi) as Hcd.
    rewrite Haw in Hca.
    assert (is_done task = false) as Hd by (by destruct task).
    rewrite Hd in Hcd. subst t'. destruct r as [[]|e]; cbn in Hca, Hcd; lia.
Qed.

Lemma count_fmap_sleeping f offsets :
  (forall d, f (Sleeping d) = false) -> count f (Sleeping <$> offsets) = 0.
Proof.
  intros Hf. unfold count. induction offsets as [|d offsets IH]; [done|].
  cbn. by rewrite Hf.
Qed.

Lemma run_requests num_operations mean_delay schedule s :
  let o := run_seeded rng num_nodes num_operations mean_size max_size
                      mean_delay schedule s in
  (exists rows,
      Simulator.log_file (final_state o) = Simulator.log_file s ++ rows
      /\ requests s + length rows + count awaiting (tasks (final_state o))
         <= requests (final_state o)
      /\ requests (final_state o) <= requests s + num_operations)
  /\ (forall s', o = Returned s' -> requests s' = requests s + num_operations).
Proof.
  cbn zeta. unfold run_seeded.
  destruct (create_tasks_cases rng mean_delay num_operations (reseed s))
    as [(offsets & s1 & -> & (Hu & Hl & Ht & Hq) & Hlen)|(e & -> & Hneg)].
  - set (s2 := set_tasks (Sleeping <$> offsets) s1).
    destruct (gather_invariant rng num_nodes mean_size max_size schedule s2 s2 []
                (run_start_invariant offsets s1 Hu))
      as (rows & Hlog & _ & _ & _ & Hlen' & Hrows & Hreq).
    pose proof (gather_final_preserves rng num_nodes mean_size max_size
                  (fun st => requests s2 + count awaiting (tasks st)
                             + count is_done (tasks st) <= requests st)
                  schedule s2) as Hsent.
    cbv beta in Hsent.
    assert (Hsent' := Hsent (fun ev st _ => step_requests_sent (requests s2) ev st)).
    clear Hsent. rename Hsent' into Hsent.
    assert (Hstart : requests s2 + count awaiting (tasks s2) + count is_done (tasks s2)
                     <= requests s2).
    { subst s2. cbn [set_tasks tasks requests].
      rewrite !count_fmap_sleeping by done. lia. }
    specialize (Hsent Hstart).
    assert (Hq2 : requests s2 = requests s) by (subst s2; cbn; by rewrite Hq).
    assert (Hl2 : Simulator.log_file s2 = Simulator.log_file s)
      by (subst s2; cbn; by rewrite Hl).
    assert (Hlen2 : length (tasks s2) = num_operations)
      by (subst s2; cbn; by rewrite length_fmap).
    rewrite Hq2, Hl2, Hlen2 in *. cbn [app] in Hlog, Hrows. split.
    + exists rows. split; [done|]. lia.
    + intros s' Hret. rewrite Hret in *. cbn [final_state] in *.
      apply gather_returned in Hret. apply all_done_count in Hret.
      assert (count awaiting (tasks s') + count is_done (tasks s') <= length (tasks s')).
      { clear. unfold count. induction (tasks s') as [|t ts IH]; [done|].
        cbn. destruct t; cbn; lia. }
      lia.
  - split; [|done]. exists []. cbn. rewrite app_nil_r. split; [done|]. lia.
Qed.

End Requests.

(** X11. Requests and rows of a run. At every point, each row written and
    each task suspended in its request accounts for one request already
    sent, and never more than [K] requests are sent; when the run returns,
    exactly [K] requests have been sent, one per operation. *)
Theorem requests_account_for_rows (seeded : Z -> Randomness) (num_nodes : nat)
    (seed : Z) (num_operations : nat) (mean_size max_size : Z) (mean_delay : Q)
    (schedule : list Event) (s : Sim) :
  let o := run_simulation seeded num_nodes seed num_operations mean_size
                          max_size mean_delay schedule s in
  (exists rows,
      Simulator.log_file (final_state o) = Simulator.log_file s ++ rows
      /\ requests s + length rows + count awaiting (tasks (final_state o))
         <= requests (final_state o)
      /\ requests (final_state o) <= requests s + num_operations)
  /\ (forall s', o = Returned s' -> requests s' = requests s + num_operations).
Proof.
  cbn zeta.
  destruct (run_simulation_cases seeded num_nodes seed num_operations mean_size
              max_size mean_delay schedule s) as [[_ ->]|[_ ->]].
  - apply (run_requests (seeded seed) num_nodes mean_size max_size).
  - split; [|done]. exists []. cbn. rewrite app_nil_r. split; [done|]. lia.
Qed.

(** ** Runs that cannot work, and runs that fail *)

Section Failures.

Variable rng : Randomness.
Variable num_nodes : nat.
Variables mean_size max_size : Z.

#[local] Abbreviation step4 := (Simulator.step rng num_nodes mean_size max_size).

Lemma never_started_not_awaiting t : never_started t -> awaiting t = false.
Proof. intros [Ht|[msg ->]]; [by destruct t | done]. Qed.

Lemma step_never_started s0 ev st :
  num_nodes = 0 \/ (mean_size < 0)%Z ->
  Simulator.log_file st = Simulator.log_file s0 /\ requests st = requests s0
  /\ uploaded_files st = [] /\ Forall never_started (tasks st)
  /\ length (tasks st) = length (tasks s0) ->
  Simulator.log_file (step4 ev st) = Simulator.log_file s0
  /\ requests (step4 ev st) = requests s0
  /\ uploaded_files (step4 ev st) = [] /\ Forall never_started (tasks (step4 ev st))
  /\ length (tasks (step4 ev st)) = length (tasks s0).
Proof.
  intros Hbad (Hlog & Hreq & Hup & Hts & Hlen).
  destruct (step_cases rng num_nodes mean_size max_size ev st)
    as [->|[(i & now & delay & r & s1 & -> & Hi & Hrun & ->)
           |(i & now & reply & task & r & s1 & -> & Hi & Haw & Hrun & Hfits & ->)]].
  - done.
  - destruct (run_operation_begin_outcome rng num_nodes mean_size max_size now st)
      as (r' & s1' & Hrun' & Hu & Hl & Ht & Hr).
    rewrite Hrun in Hrun'. injection Hrun' as <- <-.
    unfold set_tasks. cbn [Simulator.log_file uploaded_files tasks requests].
    rewrite Hl, Hu, Ht, length_insert. destruct r as [t|e].
    + destruct Hr as (_ & _ & _ & Hn & _ & Hmean). specialize (Hmean Hup). lia.
    + destruct Hr as (Hq & [msg ->] & _). split_and!; try done; [congruence|].
      apply Forall_insert; [done|]. right. by exists msg.
  - pose proof (Forall_lookup_1 _ _ _ _ Hts Hi) as Hns.
    apply never_started_not_awaiting in Hns. congruence.
Qed.

Lemma step_crashes_from_replies (schedule : list Event) ev st :
  1 <= num_nodes -> (0 <= mean_size)%Z -> ev ∈ schedule ->
  Forall (fun t => forall e, t = Crashed e ->
            e <> TimeoutError /\ exists i now, Respond i now (Failed e) ∈ schedule)
         (tasks st) ->
  Forall (fun t => forall e, t = Crashed e ->
            e <> TimeoutError /\ exists i now, Respond i now (Failed e) ∈ schedule)
         (tasks (step4 ev st)).
Proof.
  intros Hn Hmean Hev Hts.
  destruct (step_cases rng num_nodes mean_size max_size ev st)
    as [->|[(i & now & delay & r & s1 & -> & Hi & Hrun & ->)
           |(i & now & reply & task & r & s1 & -> & Hi & Haw & Hrun & Hfits & ->)]].
  - done.
  - destruct (run_operation_begin_outcome rng num_nodes mean_size max_size now st)
      as (r' & s1' & Hrun' & _ & _ & Ht & Hr).
    rewrite Hrun in Hrun'. injection Hrun' as <- <-.
    unfold set_tasks. cbn [tasks]. rewrite Ht.
    apply Forall_insert; [done|]. destruct r as [t|e].
    + destruct Hr as (Hawt & _). intros e ->. done.
    + destruct Hr as (_ & _ & [?|?]); lia.
  - destruct r as [[]|e].
    + destruct (run_operation_end_effect now task reply st Haw)
        as (r' & s1' & Hrun' & _ & _ & Ht & _).
      rewrite Hrun in Hrun'. injection Hrun' as <- <-.
      unfold set_tasks. cbn [tasks]. rewrite Ht.
      apply Forall_insert; [done|]. by intros e.
    + destruct (run_operation_end_raises now task reply st e s1 Haw Hrun)
        as (_ & _ & _ & Ht & [[-> Hne]|Hnull]); [|done].
      unfold set_tasks. cbn [tasks]. rewrite Ht.
      apply Forall_insert; [done|]. intros e' [= <-]. split; [done|]. eauto.
Qed.

Lemma misconfigured_run num_operations mean_delay schedule s :
  num_nodes = 0 \/ (mean_size < 0)%Z -> 1 <= num_operations ->
  let o := run_seeded rng num_nodes num_operations mean_size max_size
                      mean_delay schedule s in
  (forall s', o <> Returned s')
  /\ Simulator.log_file (final_state o) = Simulator.log_file s
  /\ requests (final_state o) = requests s
  /\ (forall e s', o = Propagated e s' -> exists msg, e = ValueError msg).
Proof.
  intros Hbad HK. cbn zeta. unfold run_seeded.
  destruct (create_tasks_cases rng mean_delay num_operations (reseed s))
    as [(offsets & s1 & -> & (Hu & Hl & Ht & Hq) & Hlen)|(e & Hrun & Hneg)].
  - set (s2 := set_tasks (Sleeping <$> offsets) s1).
    destruct (gather_final_preserves rng num_nodes mean_size max_size
                (fun st =>
                   Simulator.log_file st = Simulator.log_file s2
                   /\ requests st = requests s2
                   /\ uploaded_files st = [] /\ Forall never_started (tasks st)
                   /\ length (tasks st) = length (tasks s2))
                schedule s2) as (Hlog & Hreq & _ & Hts & Hlen2).
    + intros ev st _. by apply step_never_started.
    + subst s2. cbn. split_and!; try done.
      apply Forall_fmap, Forall_true. intros d. by left.
    + assert (Hq2 : requests s2 = requests s) by (subst s2; cbn; by rewrite Hq).
      assert (Hl2 : Simulator.log_file s2 = Simulator.log_file s)
        by (subst s2; cbn; by rewrite Hl).
      assert (Hlen3 : length (tasks s2) = num_operations)
        by (subst s2; cbn; by rewrite length_fmap).
      rewrite Hq2, Hl2, Hlen3 in *. split_and!; try done.
      * intros s' Hret. rewrite Hret in *. cbn [final_state] in *.
        apply gather_returned in Hret.
        destruct (tasks s') as [|t ts]; [cbn in Hlen2; lia|].
        apply Forall_cons in Hts as [Hns _].
        cbn in Hret. apply andb_true_iff in Hret as [Hd _].
        destruct Hns as [Hsl|[msg ->]]; [by destruct t | done].
      * intros e s' Hprop. rewrite Hprop in *. cbn [final_state] in *.
        apply gather_propagated in Hprop.
        pose proof (proj1 (Forall_forall _ _) Hts _ Hprop) as [Hsl|[msg [= ->]]];
          [done | by exists msg].
  - destruct num_operations as [|n]; [lia|].
    rewrite create_tasks_negative in Hrun |- * by done.
    injection Hrun as <-. cbn. split_and!; try done. intros e s' [= <- _]. by eexists.
Qed.

Lemma run_propagates_only_replies num_operations mean_delay schedule s e s' :
  1 <= num_nodes -> (0 <= mean_size)%Z -> (0 <= mean_delay)%Q ->
  run_seeded rng num_nodes num_operations mean_size max_size mean_delay schedule s
  = Propagated e s' ->
  e <> TimeoutError /\ exists i now, Respond i now (Failed e) ∈ schedule.
Proof.
  intros Hn Hmean Hdelay. unfold run_seeded.
  destruct (create_tasks_returns rng mean_delay num_operations 0 (reseed s) Hdelay)
    as (offsets & s1 & -> & _).
  set (s2 := set_tasks (Sleeping <$> offsets) s1). intros Hprop.
  pose proof (gather_final_preserves rng num_nodes mean_size max_size
                (fun st => Forall (fun t => forall e, t = Crashed e ->
                     e <> TimeoutError
                     /\ exists i now, Respond i now (Failed e) ∈ schedule) (tasks st))
                schedule s2) as Hinv.
  cbv beta in Hinv. rewrite Hprop in Hinv. cbn [final_state] in Hinv.
  apply gather_propagated in Hprop.
  eapply (proj1 (Forall_forall _ _) (Hinv _ _) _ Hprop); [done].
  Unshelve.
  - intros ev st Hev. by apply step_crashes_from_replies.
  - subst s2. cbn. apply Forall_fmap, Forall_true. by intros d e0.
Qed.

End Failures.

(** X12. A run that cannot work. With no node at all, or with a negative
    mean size, no run of at least one operation ever returns, whatever the
    schedule: every operation that starts raises a [ValueError] (the empty
    range of [randint], the negative scale of the exponential) before any
    request is sent, so no request is sent and no row is written, and the
    only exception that leaves the run is a [ValueError]. *)
Theorem misconfigured_run_never_returns (seeded : Z -> Randomness) (num_nodes : nat)
    (seed : Z) (num_operations : nat) (mean_size max_size : Z) (mean_delay : Q)
    (schedule : list Event) (s : Sim) :
  num_nodes = 0 \/ (mean_size < 0)%Z -> 1 <= num_operations ->
  let o := run_simulation seeded num_nodes seed num_operations mean_size
                          max_size mean_delay schedule s in
  (forall s', o <> Returned s')
  /\ Simulator.log_file (final_state o) = Simulator.log_file s
  /\ requests (final_state o) = requests s
  /\ (forall e s', o = Propagated e s' -> exists msg, e = ValueError msg).
Proof.
  intros Hbad HK. cbn zeta.
  destruct (run_simulation_cases seeded num_nodes seed num_operations mean_size
              max_size mean_delay schedule s) as [[_ ->]|[_ ->]].
  - by apply (misconfigured_run (seeded seed) num_nodes mean_size max_size).
  - split_and!; try done. intros e s' [= <- _]. by eexists.
Qed.

(** A run without nodes: the first task to wake raises. *)
Lemma misconfigured_run_never_returns_witness :
  exists msg s',
    run_simulation steady 0 42 2 100 1000 (1 # 2) [Wake 0 1; Wake 1 4] new_simulator
    = Propagated (ValueError msg) s'
    /\ Simulator.log_file s' = [] /\ requests s' = 0.
Proof.
  destruct (misconfigured_run_never_returns steady 0 42 2 100 1000 (1 # 2)
              [Wake 0 1; Wake 1 4] new_simulator)
    as (_ & Hlog & Hreq & _); [by left | lia |].
  eexists _, _. split; [vm_compute; reflexivity|].
  split; [exact Hlog | exact Hreq].
Defined.

(** X13. A run that fails. With at least one node, a non-negative mean
    size and a non-negative mean delay, an exception leaves
    [run_simulation] in two ways only: the [ValueError] of
    [np.random.seed] for a seed outside [0 .. 2**32 - 1], raised before
    anything is done, and the exception of a request that failed otherwise
    than by timeout (an error status, a refused connection, a body without
    ["Hash"]). A timeout never leaves the run. A request that fails in
    that way writes no row, adds nothing to the collection, and its task
    ends with that exception. *)
Theorem run_fails_only_on_failed_request (seeded : Z -> Randomness) (num_nodes : nat)
    (seed : Z) (num_operations : nat) (mean_size max_size : Z) (mean_delay : Q) :
  1 <= num_nodes -> (0 <= mean_size)%Z -> (0 <= mean_delay)%Q ->
  (forall schedule s e s',
      run_simulation seeded num_nodes seed num_operations mean_size max_size
                     mean_delay schedule s = Propagated e s' ->
      (~ (0 <= seed < 2 ^ 32)%Z
       /\ e = ValueError "Seed must be between 0 and 2**32 - 1"
       /\ s' = seed_rejected s)
      \/ ((0 <= seed < 2 ^ 32)%Z
          /\ e <> TimeoutError
          /\ exists i now, Respond i now (Failed e) ∈ schedule))
  /\ (~ (0 <= seed < 2 ^ 32)%Z ->
      forall schedule s,
        run_simulation seeded num_nodes seed num_operations mean_size max_size
                       mean_delay schedule s
        = Propagated (ValueError "Seed must be between 0 and 2**32 - 1")
                     (seed_rejected s))
  /\ (forall st i now task e,
        tasks st !! i = Some task -> awaiting task = true -> e <> TimeoutError ->
        let st' := Simulator.step (seeded seed) num_nodes mean_size max_size
                     (Respond i now (Failed e)) st in
        tasks st' = <[i := Crashed e]> (tasks st)
        /\ Simulator.log_file st' = Simulator.log_file st
        /\ uploaded_files st' = uploaded_files st
        /\ requests st' = requests st).
Proof.
  intros Hn Hmean Hdelay. split; [|split].
  - intros schedule s e s'.
    destruct (run_simulation_cases seeded num_nodes seed num_operations mean_size
                max_size mean_delay schedule s) as [[Hseed ->]|[Hseed ->]].
    + intros Hprop. right. split; [done|].
      by apply (run_propagates_only_replies (seeded seed) num_nodes mean_size max_size
                  num_operations mean_delay schedule s e s').
    + intros [= <- <-]. by left.
  - intros Hseed schedule s. by apply run_simulation_rejected.
  - intros st i now task e Hi Haw Hne. cbn zeta.
    unfold Simulator.step. rewrite Hi.
    destruct task as [| n sz t0 | n c t0 | |]; try done;
      destruct e; done.
Qed.

(** One node, one upload, and a reply with an error status; and the seed
    -1. *)
Lemma run_fails_only_on_failed_request_witness :
  (exists s',
     run_simulation steady 1 42 1 100 1000 (1 # 2)
       [Wake 0 1; Respond 0 3 (Failed (OtherException "ClientResponseError"))]
       new_simulator
     = Propagated (OtherException "ClientResponseError") s'
     /\ Simulator.log_file s' = [])
  /\ run_simulation steady 1 (-1) 1 100 1000 (1 # 2) [Wake 0 1] new_simulator
     = Propagated (ValueError "Seed must be between 0 and 2**32 - 1")
                  (seed_rejected new_simulator).
Proof.
  split.
  - eexists. split; [vm_compute; reflexivity | reflexivity].
  - refine (proj1 (proj2 (run_fails_only_on_failed_request steady 1 (-1) 1 100 1000
                            (1 # 2) _ _ _)) _ [Wake 0 1] new_simulator).
    + lia.
    + lia.
    + unfold Qle. cbn. lia.
    + change (2 ^ 32)%Z with 4294967296%Z. lia.
Defined.

(** ** Preferential attachment when every connect succeeds *)

Section BarabasiReachable.

Variable net : Network.
Variable num_nodes : nat.
Hypothesis Hreach : reachable net.

Lemma connect_nodes_reachable s t w :
  s < num_nodes -> t < num_nodes ->
  exists w', connect_nodes net num_nodes s t w = (Return true, w')
             /\ attempted w w' [(s, t)].
Proof.
  intros Hs Ht.
  destruct (connect_nodes_line net num_nodes s t w Hs Ht) as (b & w' & lines & Hrun & Ha & _).
  destruct (connect_nodes_outcome net num_nodes s t w Hs Ht)
    as (b' & w'' & lines' & Hrun' & _ & Hiff & _).
  assert (b' = true) as ->.
  { apply Hiff.
    destruct (Hreach (tick w) s t "") as ((ip & Hip & Hipe) & _ & _).
    destruct (Hreach (S (tick w)) s t "") as (_ & (id & Hid & Hide) & _).
    destruct (Hreach (S (S (tick w))) s t ("/ip4/" +:+ ip +:+ "/tcp/4001/p2p/" +:+ id))
      as (_ & _ & (text & Hpost)).
    by exists ip, id, text. }
  exists w'. split; [congruence | done].
Qed.

Lemma set_add_idemp k connected : set_add k (set_add k connected) = set_add k connected.
Proof.
  unfold set_add at 1. rewrite bool_decide_eq_true_2; [done|].
  apply elem_of_set_add. by right.
Qed.

Lemma barabasi_connect_reachable k selected connected w :
  k < num_nodes -> (forall t, t ∈ selected -> t < num_nodes) ->
  exists w',
    barabasi_connect net num_nodes k selected connected w
    = (Return (match selected with [] => connected | _ => set_add k connected end), w')
    /\ attempted w w' ((fun t => (k, t)) <$> selected).
Proof.
  intros Hk. revert connected w.
  induction selected as [|t selected IH]; intros connected w Hsel.
  - exists w. split; [done | apply attempted_refl].
  - cbn [barabasi_connect]. unfold bind at 1.
    destruct (connect_nodes_reachable k t w) as (w1 & -> & Ha1);
      [done | apply Hsel; by left |].
    destruct (IH (set_add k connected) w1) as (w2 & -> & Ha2).
    { intros t' Ht'. apply Hsel. by right. }
    exists w2. split; [|apply (attempted_trans _ _ _ _ _ Ha1 Ha2)].
    destruct selected; [done | by rewrite set_add_idemp].
Qed.

Lemma barabasi_loop_reachable (m : Z) a n connected w :
  (1 <= m)%Z -> a + n <= num_nodes -> 1 <= a -> length connected = a ->
  (forall x, x ∈ connected -> x < a) ->
  exists connected' w' es,
    barabasi_loop net num_nodes m (seq a n) connected w = (Return connected', w')
    /\ attempted w w' es
    /\ (forall k, a <= k < a + n -> out_degree k es = Nat.min (Z.to_nat m) k)
    /\ (forall s t, (s, t) ∈ es -> a <= s)
    /\ length es = sum_list_with (fun k => Nat.min (Z.to_nat m) k) (seq a n).
Proof.
  intros Hm. revert a connected w.
  induction n as [|n IH]; intros a connected w Hn Ha Hlen Hlt.
  - exists connected, w, []. split; [done|]. split; [apply attempted_refl|].
    split; [lia|]. split; [by intros s t ?%elem_of_nil | done].
  - cbn [seq barabasi_loop]. unfold bind at 1.
    assert (Hne : connected <> []) by (intros ->; cbn in Hlen; lia).
    destruct (barabasi_step_returns net num_nodes m a connected w)
      as (sel & c1 & w1 & Hstep & Ha1 & Hsel & Hin & _); [done|lia|done|done|].
    assert (Hc1 : c1 = connected ++ [a]).
    { revert Hstep. unfold barabasi_step.
      destruct (length connected =? 0) eqn:Hz; [apply Nat.eqb_eq in Hz; lia|].
      unfold bind at 1, ret at 1. unfold bind at 1.
      destruct (choices_returns net connected
                  (Z.to_nat (Z.min m (Z.of_nat (length connected)))) w Hne)
        as (sel' & w0 & -> & _ & Hl' & Hin').
      destruct (barabasi_connect_reachable a sel' connected w0) as (w2 & -> & _); [lia| |].
      { intros t Ht%Hin'%Hlt. lia. }
      intros [= <- _]. destruct sel' as [|t sel']; [cbn in Hl'; lia|].
      unfold set_add. rewrite bool_decide_eq_false_2; [done|].
      intros Hin0%Hlt. lia. }
    rewrite Hstep. subst c1.
    destruct (IH (S a) (connected ++ [a]) w1) as (c2 & w2 & es & -> & Ha2 & Hdeg & Hsrc & Hsum).
    { lia. }
    { lia. }
    { rewrite length_app. cbn. lia. }
    { intros x [Hx%Hlt | ->%list_elem_of_singleton]%elem_of_app; lia. }
    exists c2, w2, (((fun t => (a, t)) <$> sel) ++ es). split; [done|].
    split; [apply (attempted_trans _ _ _ _ _ Ha1 Ha2)|].
    assert (Hsrc' : forall s t, (s, t) ∈ es -> s <> a).
    { intros s t Hst%Hsrc. lia. }
    split; [|split].
    + intros k Hk. rewrite out_degree_app.
      destruct (decide (k = a)) as [->|Hka].
      * rewrite out_degree_same, (out_degree_other a es Hsrc'). lia.
      * rewrite (out_degree_other k (_ <$> sel)); [apply Hdeg; lia|].
        intros s t (t' & Heq & _)%list_elem_of_fmap. injection Heq as -> ->. done.
    + intros s t [(t' & Heq & _)%list_elem_of_fmap|Hst%Hsrc]%elem_of_app; [|lia].
      injection Heq as -> ->. done.
    + rewrite length_app, length_fmap, Hsum. cbn [sum_list_with]. lia.
Qed.

End BarabasiReachable.

(** X14. Preferential attachment on a cluster in which every connect
    succeeds: node [k] makes exactly [min(m, k)] attempts, since all the
    [k] nodes before it are connected when its turn comes. With the
    default [m = 2], node 1 makes one attempt and every later node two. *)
Theorem barabasi_attempts_when_all_succeed (net : Network) (num_nodes : nat)
    (m : Z) (w : World) :
  reachable net -> (1 <= m < Z.of_nat num_nodes)%Z ->
  exists w' es,
    create_barabasi_albert_topology net num_nodes m w = (Return tt, w')
    /\ attempts w' = attempts w ++ es
    /\ (forall k, 1 <= k < num_nodes -> out_degree k es = Nat.min (Z.to_nat m) k)
    /\ length es = sum_list_with (fun k => Nat.min (Z.to_nat m) k) (range2 1 num_nodes).
Proof.
  intros Hreach Hm. unfold create_barabasi_albert_topology, bind at 1, print at 1.
  assert ((m <? 1)%Z || (Z.of_nat num_nodes <=? m)%Z = false) as ->.
  { apply orb_false_iff. split; [apply Z.ltb_ge | apply Z.leb_gt]; lia. }
  unfold bind at 1, range2.
  set (w1 := mkWorld _ _ _ _ _).
  destruct (barabasi_loop_reachable net num_nodes Hreach m 1 (num_nodes - 1) [0] w1)
    as (c' & w2 & es & -> & [Ha2 _] & Hdeg & _ & Hsum); [lia|lia|lia|done| |].
  { intros x ->%list_elem_of_singleton. lia. }
  exists w2, es. split; [done|]. split; [exact Ha2|].
  split; [|exact Hsum]. intros k Hk. apply Hdeg. lia.
Qed.

(** Three healthy nodes, [m = 2]: one attempt of node 1, two of node 2. *)
Lemma barabasi_attempts_when_all_succeed_witness :
  exists w' es,
    create_barabasi_albert_topology healthy 3 2 initial_world = (Return tt, w')
    /\ attempts w' = es /\ out_degree 1 es = 1 /\ out_degree 2 es = 2 /\ length es = 3.
Proof.
  destruct (barabasi_attempts_when_all_succeed healthy 3 2 initial_world)
    as (w' & es & Hrun & Ha & Hdeg & Hlen).
  - intros t s i arg. split; [by exists "10.0.0.1"|].
    split; [exists (node_identity i); split; [done | by destruct i as [|[|?]]]|].
    by exists "ok".
  - lia.
  - exists w', es. split; [exact Hrun|]. split; [exact Ha|].
    split; [by rewrite Hdeg by lia|]. split; [by rewrite Hdeg by lia | exact Hlen].
Defined.

(** ** Degrees in the grid *)

Lemma grid_degree size i j :
  i < size -> j < size ->
  degree (i * size + j)
    (range size ≫= fun i' => range size ≫= fun j' => cell_edges size i' j')
  = neighbours size i j.
Proof.
  intros Hi Hj. unfold degree.
  set (c := i * size + j).
  set (around :=
    (if j <? size - 1 then [(c, c + 1)] else [])
    ++ (if i <? size - 1 then [(c, c + size)] else [])
    ++ (if 0 <? j then [(c - 1, c)] else [])
    ++ (if 0 <? i then [(c - size, c)] else [])).
  assert (Hlen : length around = neighbours size i j).
  { subst around. unfold neighbours. rewrite !length_app.
    destruct (j <? size - 1), (i <? size - 1), (0 <? j), (0 <? i); cbn; lia. }
  rewrite <- Hlen. apply Permutation_length, NoDup_Permutation.
  - apply NoDup_filter, grid_NoDup.
  - subst around.
    destruct (j <? size - 1) eqn:Hj1, (i <? size - 1) eqn:Hi1,
             (0 <? j) eqn:Hj0, (0 <? i) eqn:Hi0;
      try apply Nat.ltb_lt in Hj1; try apply Nat.ltb_lt in Hi1;
      try apply Nat.ltb_lt in Hj0; try apply Nat.ltb_lt in Hi0;
      cbn [app]; repeat (apply NoDup_cons; split); try apply NoDup_nil_2;
      rewrite ?elem_of_cons, ?elem_of_nil; intros Hin;
      repeat (destruct Hin as [Hin|Hin]); try done; injection Hin; subst c; nia.
  - intros [s t]. rewrite list_elem_of_filter, grid_elem_of. cbn [fst snd].
    subst around. rewrite !elem_of_app. split.
    + intros [Hc (i' & j' & Hi' & Hj' & -> & Hedge)].
      destruct Hc as [Hc|Hc].
      * apply cell_index_inj in Hc as [-> ->]; [|done|done]. fold c.
        destruct Hedge as [[Hlt ->]|[Hlt ->]].
        -- left. apply Nat.ltb_lt in Hlt. rewrite Hlt. by left.
        -- right. left. apply Nat.ltb_lt in Hlt. rewrite Hlt. by left.
      * destruct Hedge as [[Hlt ->]|[Hlt ->]].
        -- assert (i' = i /\ j' + 1 = j) as [-> <-].
           { apply (cell_index_inj size); [lia | done | subst c; lia]. }
           right. right. left.
           assert ((0 <? j' + 1) = true) as -> by (apply Nat.ltb_lt; lia).
           apply list_elem_of_singleton. f_equal; subst c; lia.
        -- assert (i' + 1 = i /\ j' = j) as [<- ->].
           { apply (cell_index_inj size); [done | done | subst c; lia]. }
           right. right. right.
           assert ((0 <? i' + 1) = true) as -> by (apply Nat.ltb_lt; lia).
           apply list_elem_of_singleton. f_equal; subst c; lia.
    + intros [Hin|[Hin|[Hin|Hin]]].
      * destruct (j <? size - 1) eqn:Hlt; [|by apply elem_of_nil in Hin].
        apply Nat.ltb_lt in Hlt. apply list_elem_of_singleton in Hin as [= -> ->].
        split; [by left|]. exists i, j. split_and!; try done. by left.
      * destruct (i <? size - 1) eqn:Hlt; [|by apply elem_of_nil in Hin].
        apply Nat.ltb_lt in Hlt. apply list_elem_of_singleton in Hin as [= -> ->].
        split; [by left|]. exists i, j. split_and!; try done. by right.
      * destruct (0 <? j) eqn:Hlt; [|by apply elem_of_nil in Hin].
        apply Nat.ltb_lt in Hlt. apply list_elem_of_singleton in Hin as [= -> ->].
        split; [by right|]. exists i, (j - 1). subst c. split_and!; lia.
      * destruct (0 <? i) eqn:Hlt; [|by apply elem_of_nil in Hin].
        apply Nat.ltb_lt in Hlt. apply list_elem_of_singleton in Hin as [= -> ->].
        split; [by right|]. exists (i - 1), j. subst c. split_and!; nia.
Qed.

(** X15. In the grid on [S * S] nodes every cell is an endpoint of exactly
    as many connect attempts as it has neighbours (above, below, left,
    right), counting the attempts it makes and those made towards it: 4 for
    an interior cell, 3 for a cell of an edge, and 2 for a corner when
    [S >= 2]. *)
Theorem grid_degrees (net : Network) (size : nat) (w : World) :
  exists w' es,
    create_grid_topology net (size * size) w = (Return tt, w')
    /\ attempts w' = attempts w ++ es
    /\ (forall i j, i < size -> j < size ->
          degree (i * size + j) es = neighbours size i j)
    /\ (forall i j, i < size -> j < size -> interior_cell size i j = true ->
          degree (i * size + j) es = 4)
    /\ (forall i j, i < size -> j < size -> edge_cell size i j = true ->
          degree (i * size + j) es = 3)
    /\ (forall i j, 2 <= size -> i < size -> j < size -> corner_cell size i j = true ->
          degree (i * size + j) es = 2).
Proof.
  destruct (grid_run net (size * size) size w eq_refl) as (w' & Hrun & Ha & _).
  eexists w', _. split; [exact Hrun|]. split; [exact Ha|].
  split; [apply grid_degree|]. split; [|split].
  - intros i j Hi Hj Hint. rewrite grid_degree by done.
    unfold interior_cell, boundary_cell in Hint. unfold neighbours.
    apply negb_true_iff in Hint.
    repeat (apply orb_false_iff in Hint as [Hint ?]).
    repeat match goal with H : (_ =? _) = false |- _ => apply Nat.eqb_neq in H end.
    assert ((0 <? i) = true) as -> by (apply Nat.ltb_lt; lia).
    assert ((i <? size - 1) = true) as -> by (apply Nat.ltb_lt; lia).
    assert ((0 <? j) = true) as -> by (apply Nat.ltb_lt; lia).
    assert ((j <? size - 1) = true) as -> by (apply Nat.ltb_lt; lia).
    done.
  - intros i j Hi Hj Hedge. rewrite grid_degree by done.
    unfold edge_cell, boundary_cell, corner_cell in Hedge. unfold neighbours.
    destruct (Nat.eqb_spec i 0), (Nat.eqb_spec i (size - 1)),
             (Nat.eqb_spec j 0), (Nat.eqb_spec j (size - 1));
      cbn in Hedge; try discriminate;
      destruct (Nat.ltb_spec 0 i), (Nat.ltb_spec i (size - 1)),
               (Nat.ltb_spec 0 j), (Nat.ltb_spec j (size - 1)); lia.
  - intros i j Hsize Hi Hj Hcorner. rewrite grid_degree by done.
    unfold corner_cell in Hcorner. unfold neighbours.
    destruct (Nat.eqb_spec i 0), (Nat.eqb_spec i (size - 1)),
             (Nat.eqb_spec j 0), (Nat.eqb_spec j (size - 1));
      cbn in Hcorner; try discriminate;
      destruct (Nat.ltb_spec 0 i), (Nat.ltb_spec i (size - 1)),
               (Nat.ltb_spec 0 j), (Nat.ltb_spec j (size - 1)); lia.
Qed.

(** ** Degrees in the ring and in the full mesh *)

Lemma ring_elem_of n s t :
  (s, t) ∈ (range n ≫= fun i => [(i, (i + 1) mod n)]) <-> s < n /\ t = (s + 1) mod n.
Proof.
  rewrite bind_singleton_fmap, list_elem_of_fmap. unfold range. split.
  - intros (i & [= -> ->] & [_ Hi]%elem_of_seq). split; [lia | done].
  - intros [Hs ->]. exists s. split; [done|]. apply elem_of_seq. lia.
Qed.

Lemma ring_NoDup n : NoDup (range n ≫= fun i => [(i, (i + 1) mod n)]).
Proof.
  rewrite bind_singleton_fmap. apply NoDup_fmap_2; [|apply NoDup_seq].
  by intros i j [= ->].
Qed.

Lemma ring_degree n c :
  2 <= n -> c < n ->
  degree c (range n ≫= fun i => [(i, (i + 1) mod n)]) = 2.
Proof.
  intros Hn Hc. unfold degree.
  set (before := if c =? 0 then n - 1 else c - 1).
  assert (Hbefore : before < n /\ (before + 1) mod n = c /\ before <> c).
  { subst before. destruct (Nat.eqb_spec c 0) as [->|Hc0].
    - replace (n - 1 + 1) with n by lia. rewrite Nat.Div0.mod_same. lia.
    - replace (c - 1 + 1) with c by lia. rewrite Nat.mod_small by lia. lia. }
  destruct Hbefore as (Hb & Hbc & Hne).
  change 2 with (length [(c, (c + 1) mod n); (before, c)]).
  apply Permutation_length, NoDup_Permutation.
  - apply NoDup_filter, ring_NoDup.
  - apply NoDup_cons. split; [|apply NoDup_singleton].
    intros [= Heq _]%list_elem_of_singleton. lia.
  - intros [s t]. rewrite list_elem_of_filter, ring_elem_of. cbn [fst snd].
    rewrite elem_of_cons, list_elem_of_singleton. split.
    + intros [[-> | Ht] [Hs Heq]]; [left; by rewrite Heq|].
      right. subst t. f_equal. clear Hbc Hne.
      destruct (decide (s + 1 < n)) as [Hlt|Hge].
      * rewrite Nat.mod_small in Heq by lia.
        subst before. destruct (Nat.eqb_spec c 0); lia.
      * replace (s + 1) with n in Heq by lia. rewrite Nat.Div0.mod_same in Heq.
        subst before. destruct (Nat.eqb_spec c 0); lia.
    + intros [[= -> ->]|[= -> ->]]; (split; [auto | split; [lia | done]]).
Qed.

Lemma mesh_degree n c :
  c < n ->
  degree c (range n ≫= fun i => range2 (i + 1) n ≫= fun j => [(i, j)]) = n - 1.
Proof.
  intros Hc. unfold degree.
  set (around := ((fun j => (c, j)) <$> seq (c + 1) (n - (c + 1)))
                 ++ ((fun i => (i, c)) <$> seq 0 c)).
  assert (Hlen : length around = n - 1).
  { subst around. rewrite length_app, !length_fmap, !length_seq. lia. }
  rewrite <- Hlen. apply Permutation_length, NoDup_Permutation.
  - apply NoDup_filter, mesh_NoDup.
  - subst around. apply NoDup_app. split_and!.
    + apply NoDup_fmap_2; [by intros i j [= ->] | apply NoDup_seq].
    + intros [s t] (j & [= -> ->] & [Hj _]%elem_of_seq)%list_elem_of_fmap
                   (i & [= -> Heq] & [_ Hi]%elem_of_seq)%list_elem_of_fmap. lia.
    + apply NoDup_fmap_2; [by intros i j [= ->] | apply NoDup_seq].
  - intros [s t]. rewrite list_elem_of_filter, mesh_elem_of. cbn [fst snd].
    subst around. rewrite elem_of_app, !list_elem_of_fmap. split.
    + intros [[->| ->] [Hst Ht]].
      * left. exists t. split; [done|]. apply elem_of_seq. lia.
      * right. exists s. split; [done|]. apply elem_of_seq. lia.
    + intros [(j & [= -> ->] & [Hj Hj']%elem_of_seq)
             |(i & [= -> ->] & [_ Hi]%elem_of_seq)].
      * split; [by left | lia].
      * split; [by right | lia].
Qed.

(** X16. In the ring on at least two nodes every node is an endpoint of
    exactly two connect attempts: the one it makes to its successor and the
    one its predecessor makes to it. (On two nodes these are the attempts
    0 to 1 and 1 to 0.) *)
Theorem ring_degrees (net : Network) (num_nodes : nat) (w : World) :
  2 <= num_nodes ->
  exists w' es,
    create_ring_topology net num_nodes w = (Return tt, w')
    /\ attempts w' = attempts w ++ es
    /\ (forall c, c < num_nodes -> degree c es = 2)
    /\ (forall c, c < num_nodes -> out_degree c es = 1).
Proof.
  intros Hn. destruct (ring_run net num_nodes w) as (w' & Hrun & Ha & _).
  eexists w', _. split; [exact Hrun|]. split; [exact Ha|]. split.
  - intros c Hc. by apply ring_degree.
  - intros c Hc. unfold out_degree.
    change 1 with (length [(c, (c + 1) mod num_nodes)]).
    apply Permutation_length, NoDup_Permutation.
    + apply NoDup_filter, ring_NoDup.
    + apply NoDup_singleton.
    + intros [s t]. rewrite list_elem_of_filter, ring_elem_of, list_elem_of_singleton.
      cbn [fst snd]. split.
      * by intros [-> [_ ->]].
      * intros [= -> ->]. done.
Qed.

(** The ring of the three healthy nodes. *)
Lemma ring_degrees_witness :
  exists w' es,
    create_ring_topology healthy 3 initial_world = (Return tt, w')
    /\ attempts w' = es /\ degree 0 es = 2 /\ degree 2 es = 2.
Proof.
  destruct (ring_degrees healthy 3 initial_world) as (w' & es & Hrun & Ha & Hdeg & _); [lia|].
  exists w', es. split; [exact Hrun|]. split; [exact Ha|].
  split; apply Hdeg; lia.
Defined.

(** X17. In the full mesh every node is an endpoint of exactly [N - 1]
    connect attempts, one with every other node: node [c] makes
    [N - 1 - c] of them and is the target of [c]. *)
Theorem mesh_degrees (net : Network) (num_nodes : nat) (w : World) :
  exists w' es,
    create_fully_connected_topology net num_nodes w = (Return tt, w')
    /\ attempts w' = attempts w ++ es
    /\ (forall c, c < num_nodes -> degree c es = num_nodes - 1)
    /\ (forall c, c < num_nodes -> out_degree c es = num_nodes - 1 - c).
Proof.
  destruct (mesh_run net num_nodes w) as (w' & Hrun & Ha & _).
  eexists w', _. split; [exact Hrun|]. split; [exact Ha|]. split.
  - intros c Hc. by apply mesh_degree.
  - intros c Hc. unfold out_degree.
    replace (num_nodes - 1 - c)
      with (length ((fun j => (c, j)) <$> seq (c + 1) (num_nodes - (c + 1))))
      by (rewrite length_fmap, length_seq; lia).
    apply Permutation_length, NoDup_Permutation.
    + apply NoDup_filter, mesh_NoDup.
    + apply NoDup_fmap_2; [by intros i j [= ->] | apply NoDup_seq].
    + intros [s t]. rewrite list_elem_of_filter, mesh_elem_of, list_elem_of_fmap.
      cbn [fst snd]. split.
      * intros [-> [Hst Ht]]. exists t. split; [done|]. apply elem_of_seq. lia.
      * intros (j & [= -> ->] & [Hj Hj']%elem_of_seq). split; [done | lia].
Qed.
